(** * Benchmark driver scripts for cuML: K-means and random-forest classification

    A shallow embedding of [cuml/kmeans.py] and [cuml_bench/df_clsf.py].
    Both scripts are straight-line orchestration around external
    collaborators (argparse, numpy, cuML and the [bench] helper module).
    The scripts' own statements are embedded as computations in a
    state-and-exception monad over an explicit interpreter state; the
    collaborators are interfaces (type classes) whose operations the scripts
    call. *)

From Stdlib Require Import ZArith QArith String Ascii List Lia.
From stdpp Require Import base option gmap strings list.

Local Open Scope Z_scope.
Local Open Scope string_scope.

(** ** Python values and exceptions *)

#[global] Instance Q_eq_dec : EqDecision Q.
Proof. solve_decision. Defined.

(** The values a script-level attribute can hold.  Python floats are
    represented by rationals: no statement below depends on rounding. *)
Inductive pyval :=
| PyNone
| PyBool (b : bool)
| PyInt (z : Z)
| PyFloat (q : Q)
| PyStr (s : string).

#[global] Instance pyval_eq_dec : EqDecision pyval.
Proof. solve_decision. Defined.

Inductive exn :=
| SystemExit (code : Z)
| NameError (name : string)
| AttributeError (attr : string)
| TypeError
| ValueError
| IndexError
| LibraryError (msg : string).

#[global] Instance exn_eq_dec : EqDecision exn.
Proof. solve_decision. Defined.

(** [argparse.Namespace]: a bag of attributes, assigned by name. *)
Abbreviation Namespace := (gmap string pyval).

(** The builtin conversions [int(s)] and [float(s)] on strings, as argparse
    applies them for [type=int] and [type=float]. *)
Class PyBuiltins := {
  py_int : string -> option Z;
  py_float : string -> option Q
}.

(** ** argparse *)

Module Argparse.

Inductive action := Store | StoreFalse | Help.

Inductive argtype :=
| type_str
| type_int
| type_float
| type_callable (f : string -> option pyval).

(** One [add_argument] call.  [arg_default = None] records that the call
    has no [default=] keyword; [Some PyNone] is an explicit
    [default=None]. *)
Record Argument := {
  option_strings : list string;
  arg_dest : option string;
  arg_type : argtype;
  arg_default : option pyval;
  arg_choices : option (list pyval);
  arg_action : action
}.

Fixpoint lstrip_dash (s : string) : string :=
  match s with
  | String "-" s' => lstrip_dash s'
  | _ => s
  end.

Fixpoint dash_to_underscore (s : string) : string :=
  match s with
  | EmptyString => EmptyString
  | String c s' =>
      String (if Ascii.eqb c "-" then "_"%char else c) (dash_to_underscore s')
  end.

Definition is_long (s : string) : bool := String.prefix "--" s.

(** The attribute name: the explicit [dest=] when given, otherwise the
    first long option string (the first option string when there is no
    long one), stripped of leading dashes, inner dashes replaced. *)
Definition dest (a : Argument) : string :=
  match arg_dest a with
  | Some d => d
  | None =>
      let o := match List.filter is_long (option_strings a) with
               | l :: _ => l
               | [] => List.hd "" (option_strings a)
               end in
      dash_to_underscore (lstrip_dash o)
  end.

Definition convert `{PyBuiltins} (t : argtype) (s : string) : option pyval :=
  match t with
  | type_str => Some (PyStr s)
  | type_int => PyInt <$> py_int s
  | type_float => PyFloat <$> py_float s
  | type_callable f => f s
  end.

Definition in_choices (a : Argument) (v : pyval) : bool :=
  match arg_choices a with
  | None => true
  | Some cs => bool_decide (v ∈ cs)
  end.

(** [_get_values] followed by [_check_value]: convert the argument string
    with [type], then test it against [choices].  Both failures end in
    [parser.error], which exits with status 2. *)
Definition get_value `{PyBuiltins} (a : Argument) (s : string) : exn + pyval :=
  match convert (arg_type a) s with
  | None => inl (SystemExit 2)
  | Some v => if in_choices a v then inr v else inl (SystemExit 2)
  end.

(** *** Recognising option tokens *)

Fixpoint split_eq (s : string) : option (string * string) :=
  match s with
  | EmptyString => None
  | String c s' =>
      if Ascii.eqb c "=" then Some (EmptyString, s')
      else match split_eq s' with
           | Some (l, r) => Some (String c l, r)
           | None => None
           end
  end.

Definition is_digit (c : ascii) : bool :=
  let n := nat_of_ascii c in (Nat.leb 48 n && Nat.leb n 57)%bool.

(** In the two functions below a pattern's final [$] also matches before
    a newline that ends the string. *)
Definition at_end (s : string) : bool :=
  (String.eqb s "" || String.eqb s (String "010"%char ""))%bool.

Fixpoint digits_to_end (s : string) : bool :=
  match s with
  | EmptyString => false
  | String c s' => (is_digit c && (at_end s' || digits_to_end s'))%bool
  end.

Fixpoint digits_then_fraction (s : string) : bool :=
  match s with
  | EmptyString => false
  | String c s' =>
      if Ascii.eqb c "." then digits_to_end s'
      else (is_digit c && digits_then_fraction s')%bool
  end.

(** The pattern [^-\d+$|^-\d*\.\d+$]. *)
Definition negative_number_like (s : string) : bool :=
  match s with
  | String "-" s' => (digits_to_end s' || digits_then_fraction s')%bool
  | _ => false
  end.

Fixpoint has_space (s : string) : bool :=
  match s with
  | EmptyString => false
  | String c s' => (Ascii.eqb c " " || has_space s')%bool
  end.

Definition has_option_string (o : string) (a : Argument) : bool :=
  bool_decide (o ∈ option_strings a).

(** The parser's table of option strings, in the order of declaration. *)
Definition option_string_actions (opts : list Argument) : list (string * Argument) :=
  flat_map (fun a => List.map (fun o => (o, a)) (option_strings a)) opts.

(** [_has_negative_number_optionals] *)
Definition has_negative_number_optionals (opts : list Argument) : bool :=
  existsb (fun oa => negative_number_like (fst oa)) (option_string_actions opts).

(** The first two characters of a token and what follows them. *)
Definition short_split (tok : string) : string * string :=
  match tok with
  | String c1 (String c2 rest) => (String c1 (String c2 ""), rest)
  | _ => (tok, "")
  end.

(** [_get_option_tuples]: the readings of a token that is no option string
    itself.  A token that starts with two dashes is split at its first [=]
    and stands for every option string it is a prefix of.  A token with one
    dash stands for the option string made of its first two characters,
    the rest being that option's argument, and for every option string it
    is a prefix of.  Each option string counts, also several of one
    declaration. *)
Definition option_tuples (opts : list Argument) (tok : string)
  : list (Argument * string * option string) :=
  if is_long tok then
    let name := match split_eq tok with Some (n, _) => n | None => tok end in
    let explicit := match split_eq tok with Some (_, v) => Some v | None => None end in
    flat_map (fun oa => if String.prefix name (fst oa)
                        then [(snd oa, fst oa, explicit)] else [])
      (option_string_actions opts)
  else
    flat_map (fun oa => if String.eqb (fst oa) (fst (short_split tok))
                        then [(snd oa, fst oa, Some (snd (short_split tok)))]
                        else if String.prefix tok (fst oa)
                             then [(snd oa, fst oa, None)] else [])
      (option_string_actions opts).

(** How a token is read: as an argument ([Positional]), or as an
    occurrence of the option [a] under its option string [o], possibly
    with an argument attached ([explicit]). *)
Inductive token_class :=
| Positional
| Optional (a : Argument) (o : string) (explicit : option string)
| Ambiguous
| Unknown.

(** [_parse_optional]: an exact option string; else [name=value] with
    [name] an exact option string; else the one reading
    [_get_option_tuples] finds (several readings are an error); else an
    argument when the token looks like a negative number or holds a space;
    otherwise an unknown option. *)
Definition classify (opts : list Argument) (tok : string) : token_class :=
  if negb (String.prefix "-" tok) then Positional
  else
    match List.find (has_option_string tok) opts with
    | Some a => Optional a tok None
    | None =>
        if String.eqb tok "-" then Positional
        else
          let by_eq :=
            match split_eq tok with
            | Some (name, v) =>
                match List.find (has_option_string name) opts with
                | Some a => Some (a, name, v)
                | None => None
                end
            | None => None
            end in
          match by_eq with
          | Some (a, name, v) => Optional a name (Some v)
          | None =>
              match option_tuples opts tok with
              | [(a, o, explicit)] => Optional a o explicit
              | _ :: _ :: _ => Ambiguous
              | [] =>
                  if (negative_number_like tok
                      && negb (has_negative_number_optionals opts))%bool
                  then Positional
                  else if has_space tok then Positional
                  else Unknown
              end
          end
    end.

(** A token can be the argument of a [store] option when it is read as an
    argument; the token [--] is not. *)
Definition is_argument_token (opts : list Argument) (tok : string) : bool :=
  match classify opts tok with
  | Positional => negb (String.eqb tok "--")
  | _ => false
  end.

(** *** Parsing *)

(** Every destination starts at its declared default ([None] when the
    call states none); the first declaration of a destination wins. *)
Definition initial_namespace (opts : list Argument) : Namespace :=
  foldr (fun a ns =>
           match arg_action a with
           | Help => ns
           | _ => <[dest a := default (PyNone) (arg_default a)]> ns
           end) ∅ opts.

(** The loop of [consume_optional] for an option [a] that came with the
    attached argument [e]; [short] tells whether its option string has a
    single dash.  A [store] option takes [e].  An option without argument
    under a single-dash option string passes on: the first character of
    [e] names the next single-dash option and the rest of [e] is attached
    to that one ([-xyz] is [-x -y -z]).  The result is the list of options
    met with their arguments and, when the last one came with nothing
    attached, that option, whose argument is then looked for among the
    following tokens. *)
Fixpoint chain (opts : list Argument) (a : Argument) (short : bool) (e : string)
  {struct e} : option (list (Argument * option string) * option Argument) :=
  match arg_action a with
  | Store => Some ([(a, Some e)], None)
  | _ =>
      match e with
      | EmptyString => None
      | String c e' =>
          if short then
            match List.find (has_option_string (String "-" (String c ""))) opts with
            | None => None
            | Some a' =>
                match e' with
                | EmptyString => Some ([(a, None)], Some a')
                | _ =>
                    match chain opts a' (negb (Ascii.eqb c "-")) e' with
                    | None => None
                    | Some (l, p) => Some ((a, None) :: l, p)
                    end
                end
            end
          else None
      end
  end.

(** The options one token stands for.  [option_string[1]] is evaluated
    only for an option without argument that came with something attached;
    it does not exist when the option string is a single character. *)
Definition token_plan (opts : list Argument) (a : Argument) (o : string)
    (explicit : option string)
  : exn + (list (Argument * option string) * option Argument) :=
  match explicit with
  | None => inr ([], Some a)
  | Some e =>
      match o with
      | String _ (String c _) =>
          match chain opts a (negb (Ascii.eqb c "-")) e with
          | Some r => inr r
          | None => inl (SystemExit 2)
          end
      | _ =>
          match arg_action a with
          | Store => inr ([(a, Some e)], None)
          | _ => inl IndexError
          end
      end
  end.

(** [take_action], for the options of one token in their order: [help]
    prints and exits with status 0, [store_false] stores [False], [store]
    converts and checks its argument.  [seen] collects the options that
    occurred (by their option strings). *)
Fixpoint take_actions `{PyBuiltins} (acts : list (Argument * option string))
    (ns : Namespace) (seen : list (list string))
  : exn + (Namespace * list (list string)) :=
  match acts with
  | [] => inr (ns, seen)
  | (a, arg) :: acts' =>
      match arg_action a with
      | Help => inl (SystemExit 0)
      | StoreFalse =>
          take_actions acts' (<[dest a := PyBool false]> ns) (option_strings a :: seen)
      | Store =>
          match arg with
          | Some s =>
              match get_value a s with
              | inl e => inl e
              | inr v =>
                  take_actions acts' (<[dest a := v]> ns) (option_strings a :: seen)
              end
          | None => inl (SystemExit 2)
          end
      end
  end.

(** Left-to-right consumption of the command line.  [extras] records
    whether a token was left over: the parsers here declare no positional
    argument, so every token that is neither an option nor the argument of
    one is left over, and so are [--] and all that follows it. *)
Fixpoint consume `{PyBuiltins} (opts : list Argument) (argv : list string)
    (ns : Namespace) (seen : list (list string)) (extras : bool)
  : exn + (Namespace * list (list string) * bool) :=
  match argv with
  | [] => inr (ns, seen, extras)
  | tok :: rest =>
      if String.eqb tok "--" then inr (ns, seen, true)
      else
        match classify opts tok with
        | Positional | Unknown => consume opts rest ns seen true
        | Ambiguous => inl (SystemExit 2)
        | Optional a o explicit =>
            match token_plan opts a o explicit with
            | inl e => inl e
            | inr (acts, None) =>
                match take_actions acts ns seen with
                | inl e => inl e
                | inr (ns', seen') => consume opts rest ns' seen' extras
                end
            | inr (acts, Some a') =>
                match arg_action a' with
                | Store =>
                    match rest with
                    | s :: rest' =>
                        if is_argument_token opts s then
                          match take_actions (acts ++ [(a', Some s)]) ns seen with
                          | inl e => inl e
                          | inr (ns', seen') => consume opts rest' ns' seen' extras
                          end
                        else inl (SystemExit 2)
                    | [] => inl (SystemExit 2)
                    end
                | _ =>
                    match take_actions (acts ++ [(a', None)]) ns seen with
                    | inl e => inl e
                    | inr (ns', seen') => consume opts rest ns' seen' extras
                    end
                end
            end
        end
  end.

(** A string default of an option that did not occur, still in place, is
    passed through the option's [type] (and not checked against
    [choices]). *)
Definition convert_default `{PyBuiltins} (seen : list (list string)) (a : Argument)
    (acc : exn + Namespace) : exn + Namespace :=
  match acc with
  | inl e => inl e
  | inr ns =>
      match arg_action a, arg_default a with
      | Store, Some (PyStr s) =>
          if bool_decide (option_strings a ∈ seen) then inr ns
          else if bool_decide (ns !! dest a = Some (PyStr s)) then
            match convert (arg_type a) s with
            | None => inl (SystemExit 2)
            | Some v => inr (<[dest a := v]> ns)
            end
          else inr ns
      | _, _ => inr ns
      end
  end.

(** The tokens before the first [--]: the ones read as options or their
    arguments. *)
Fixpoint before_dashes (argv : list string) : list string :=
  match argv with
  | [] => []
  | tok :: rest => if String.eqb tok "--" then [] else tok :: before_dashes rest
  end.

Definition ambiguous (opts : list Argument) (tok : string) : bool :=
  match classify opts tok with
  | Ambiguous => true
  | _ => false
  end.

(** [ArgumentParser.parse_args].  Every token before [--] is classified
    before any option is acted on, and an ambiguous abbreviation ends the
    parser there (status 2).  Left-over tokens are an error (status 2)
    raised once the whole command line is consumed and the defaults are
    converted. *)
Definition parse_args `{PyBuiltins} (opts : list Argument) (argv : list string)
  : exn + Namespace :=
  if existsb (ambiguous opts) (before_dashes argv) then inl (SystemExit 2)
  else
    match consume opts argv (initial_namespace opts) [] false with
    | inl e => inl e
    | inr (ns, seen, extras) =>
        match foldl (fun acc a => convert_default seen a acc) (inr ns) opts with
        | inl e => inl e
        | inr ns' => if extras then inl (SystemExit 2) else inr ns'
        end
    end.

(** [ArgumentParser(description=...)]: a new parser knows [-h/--help]. *)
Definition ArgumentParser : list Argument :=
  [ {| option_strings := ["-h"; "--help"]; arg_dest := None;
       arg_type := type_str; arg_default := None; arg_choices := None;
       arg_action := Help |} ].

Definition add_argument (parser : list Argument) (a : Argument) : list Argument :=
  parser ++ [a].

(** The values an occurrence of the option [a] on the command line can
    store in its destination. *)
Definition can_store `{PyBuiltins} (a : Argument) (v : pyval) : Prop :=
  (arg_action a = Store /\ exists s, get_value a s = inr v) \/
  (arg_action a = StoreFalse /\ v = PyBool false).

(** The options a token stands for when it is read as an option. *)
Definition token_actions (opts : list Argument) (tok : string) : list Argument :=
  match classify opts tok with
  | Optional a o explicit =>
      match token_plan opts a o explicit with
      | inr (acts, last) => (List.map fst acts ++ option_list last)%list
      | inl _ => []
      end
  | _ => []
  end.

Fixpoint some_dest (k : string) (l : list Argument) : Prop :=
  match l with
  | [] => False
  | a :: l' => dest a = k \/ some_dest k l'
  end.

(** The token [tok] is read as an occurrence of an option whose
    destination is [k]. *)
Definition selects (opts : list Argument) (k : string) (tok : string) : Prop :=
  some_dest k (token_actions opts tok).

End Argparse.

Import Argparse.

(** An [add_argument] call with option strings, a [type] and possibly a
    [default]; the keywords it leaves out take argparse's own defaults: no
    [dest=], no [choices=], [action='store']. *)
Definition option_ (flags : list string) (t : argtype) (d : option pyval) : Argument :=
  {| option_strings := flags; arg_dest := None; arg_type := t;
     arg_default := d; arg_choices := None; arg_action := Store |}.

(** ** The parsers the two scripts declare *)

Module KMeansCLI.

(** cuml/kmeans.py, lines 19-20. *)
Definition filei : Argument :=
  option_ ["-i"; "--filei"; "--fileI"; "--init"] type_str None.
(** lines 21-22 *)
Definition tol : Argument :=
  option_ ["-t"; "--tol"] type_float (Some (PyFloat 0)).
(** lines 23-24 *)
Definition maxiter : Argument :=
  option_ ["--maxiter"] type_int (Some (PyInt 100)).
(** lines 25-26 *)
Definition samples_per_batch : Argument :=
  option_ ["--samples-per-batch"] type_int (Some (PyInt 32768)).
(** line 27 *)
Definition n_clusters : Argument :=
  option_ ["--n-clusters"] type_int None.

Definition declared : list Argument :=
  [filei; tol; maxiter; samples_per_batch; n_clusters].

Definition parser : list Argument :=
  foldl add_argument ArgumentParser declared.

End KMeansCLI.

Module ForestCLI.

Section Declared.
(** [bench.float_or_int], the converter of two options; it lives in the
    [bench] module. *)
Variable float_or_int : string -> option pyval.

(** cuml_bench/df_clsf.py, lines 28-30. *)
Definition criterion : Argument :=
  {| option_strings := ["--criterion"]; arg_dest := None; arg_type := type_str;
     arg_default := Some (PyStr "gini");
     arg_choices := Some [PyStr "gini"; PyStr "entropy"];
     arg_action := Store |}.
(** lines 31-34 *)
Definition split_algorithm : Argument :=
  {| option_strings := ["--split-algorithm"]; arg_dest := None;
     arg_type := type_str; arg_default := Some (PyStr "hist");
     arg_choices := Some [PyStr "hist"; PyStr "global_quantile"];
     arg_action := Store |}.
(** lines 35-36 *)
Definition num_trees : Argument :=
  option_ ["--num-trees"] type_int (Some (PyInt 100)).
(** lines 37-38 *)
Definition max_features : Argument :=
  option_ ["--max-features"] (type_callable float_or_int) (Some PyNone).
(** lines 39-40 *)
Definition max_depth : Argument :=
  option_ ["--max-depth"] type_int (Some PyNone).
(** lines 41-42 *)
Definition min_samples_split : Argument :=
  option_ ["--min-samples-split"] (type_callable float_or_int) (Some (PyInt 2)).
(** lines 43-44 *)
Definition max_leaf_nodes : Argument :=
  option_ ["--max-leaf-nodes"] type_int (Some (PyInt (-1))).
(** lines 45-46 *)
Definition min_impurity_decrease : Argument :=
  option_ ["--min-impurity-decrease"] type_float (Some (PyFloat 0)).
(** lines 47-48 *)
Definition no_bootstrap : Argument :=
  {| option_strings := ["--no-bootstrap"]; arg_dest := Some "bootstrap";
     arg_type := type_str; arg_default := Some (PyBool true);
     arg_choices := None; arg_action := StoreFalse |}.

Definition declared : list Argument :=
  [criterion; split_algorithm; num_trees; max_features; max_depth;
   min_samples_split; max_leaf_nodes; min_impurity_decrease; no_bootstrap].

Definition parser : list Argument :=
  foldl add_argument ArgumentParser declared.
End Declared.

End ForestCLI.

(** ** Data handed between the collaborators *)

Definition row := list Q.

(** The feature tables [load_data] returns: a numpy array, or a data frame
    (which has [.iloc]). *)
Inductive table :=
| NdArray (rows : list row)
| DataFrame (rows : list row).

Definition table_rows (X : table) : list row :=
  match X with NdArray rows | DataFrame rows => rows end.

(** [X.shape[0]] *)
Definition shape0 (X : table) : Z := Z.of_nat (length (table_rows X)).

(** [hasattr(X, "iloc")] *)
Definition has_iloc (X : table) : bool :=
  match X with DataFrame _ => true | NdArray _ => false end.

(** What [np.random.randint] returns: one integer for [size=None], an array
    of integers otherwise. *)
Inductive indices :=
| Scalar (i : Z)
| Vector (l : list Z).

(** The initial centroids: a matrix, or a single row when the index was a
    scalar. *)
Inductive init_array :=
| Init1D (r : row)
| Init2D (rows : list row).

(** Indexing rows by an integer: negative indices count from the end, an
    index outside the table raises [IndexError]. *)
Definition row_at (rows : list row) (i : Z) : exn + row :=
  let n := Z.of_nat (length rows) in
  let j := if (i <? 0)%Z then (i + n)%Z else i in
  if ((0 <=? j)%Z && (j <? n)%Z)%bool then
    match rows !! Z.to_nat j with
    | Some r => inr r
    | None => inl IndexError
    end
  else inl IndexError.

Fixpoint rows_at (rows : list row) (idx : list Z) : exn + list row :=
  match idx with
  | [] => inr []
  | i :: idx' =>
      match row_at rows i with
      | inl e => inl e
      | inr r =>
          match rows_at rows idx' with
          | inl e => inl e
          | inr rs => inr (r :: rs)
          end
      end
  end.

Definition take (rows : list row) (idx : indices) : exn + init_array :=
  match idx with
  | Scalar i =>
      match row_at rows i with inl e => inl e | inr r => inr (Init1D r) end
  | Vector l =>
      match rows_at rows l with inl e => inl e | inr rs => inr (Init2D rs) end
  end.

(** [X_train.iloc[centroids_idx].to_pandas().values] *)
Definition iloc_values (X : table) (idx : indices) : exn + init_array :=
  take (table_rows X) idx.

(** [X_train[centroids_idx]] *)
Definition getitem (X : table) (idx : indices) : exn + init_array :=
  take (table_rows X) idx.

(** Keyword arguments of [KMeans(...)], cuml/kmeans.py lines 54-56. *)
Record KMeansArgs := {
  km_n_clusters : pyval;
  km_tol : pyval;
  km_max_iter : pyval;
  km_init : init_array;
  km_max_samples_per_batch : pyval
}.

(** Keyword arguments of [RandomForestClassifier(...)],
    cuml_bench/df_clsf.py lines 70-78. *)
Record ForestArgs := {
  split_criterion : pyval;
  split_algo : pyval;
  n_estimators : pyval;
  rf_max_depth : pyval;
  rf_max_features : pyval;
  min_rows_per_node : pyval;
  max_leaves : pyval;
  rf_min_impurity_decrease : pyval;
  rf_bootstrap : pyval
}.

(** ** The collaborators *)

(** numpy: the global random state and array loading.  Seeding with an
    integer determines the state from the integer alone; any other seed
    value may also draw on operating-system entropy. *)
Class Numpy := {
  RandomState : Type;
  np_random_seed_int : Z -> exn + RandomState;
  np_random_seed_other : pyval -> Z -> exn + RandomState;
  np_random_randint : RandomState -> Z -> Z -> pyval -> exn + (indices * RandomState);
  np_load : pyval -> exn + list row;
  np_astype : pyval -> list row -> exn + list row
}.

(** cuML: the two estimator classes.  A method acts on the state of its
    receiver and returns the receiver's next state. *)
Class Cuml := {
  KMeans : Type;
  RandomForestClassifier : Type;
  cuml_version : string;
  KMeans_init : KMeansArgs -> exn + KMeans;
  KMeans_fit : KMeans -> table -> exn + KMeans;
  KMeans_predict : KMeans -> table -> exn + (KMeans * list Z);
  KMeans_inertia_ : KMeans -> exn + pyval;
  RandomForestClassifier_init : ForestArgs -> exn + RandomForestClassifier;
  RandomForestClassifier_fit :
    RandomForestClassifier -> table -> list Z -> exn + RandomForestClassifier;
  RandomForestClassifier_predict :
    RandomForestClassifier -> table -> gmap string pyval ->
    exn + (RandomForestClassifier * list Z)
}.

(** The [bench] helper module, as far as its behaviour is left open: the
    options [bench.parse_args] registers besides the script's own (they may
    depend on the [prefix] and [loop_types] keywords), the converter [bench.float_or_int], the data
    loader (which may consume random numbers), how many further times the
    timing harness repeats a call, and how it condenses the measured
    durations. *)
Class Bench `{Numpy} := {
  shared_arguments : option string -> option (list string) -> list Argument;
  float_or_int : string -> option pyval;
  load_data :
    Namespace -> option bool -> RandomState ->
    exn + (table * table * list Z * list Z * RandomState);
  further_calls : Namespace -> nat;
  summarise : list Q -> Q
}.

Section Scripts.

Context {builtins : PyBuiltins} {numpy : Numpy} {cuml : Cuml} {bench : Bench}.

(** ** Interpreter state *)

Inductive estimator :=
| EKMeans (k : KMeans)
| EForest (f : RandomForestClassifier).

(** What a module-level name is bound to by an import, a [def] or a
    [global] assignment. *)
Inductive binding :=
| Module_ (name : string)
| Callable (qualname : string)
| Object (ref : nat).

(** Arguments of one [print_output] call. *)
Record Report := {
  library : string;
  algorithm : string;
  stages : list string;
  columns : option (list string);
  report_params : Namespace;
  functions : list string;
  times : list Q;
  accuracy_type : string;
  accuracies : list Q;
  data : list table;
  alg_instance : nat
}.

Record World := {
  params : Namespace;            (* the object the name [params] is bound to *)
  globals : gmap string binding; (* names bound by import, def and global *)
  heap : gmap nat estimator;     (* estimator objects, by identity *)
  rng : RandomState;             (* numpy's global random state *)
  os_entropy : Z;
  timer : list Q;                (* the readings the wall clock will give *)
  reports : list Report          (* what print_output has emitted *)
}.

Definition set_params (p : Namespace) (w : World) : World :=
  {| params := p; globals := globals w; heap := heap w; rng := rng w;
     os_entropy := os_entropy w; timer := timer w; reports := reports w |}.
Definition set_globals (g : gmap string binding) (w : World) : World :=
  {| params := params w; globals := g; heap := heap w; rng := rng w;
     os_entropy := os_entropy w; timer := timer w; reports := reports w |}.
Definition set_heap (h : gmap nat estimator) (w : World) : World :=
  {| params := params w; globals := globals w; heap := h; rng := rng w;
     os_entropy := os_entropy w; timer := timer w; reports := reports w |}.
Definition set_rng (s : RandomState) (w : World) : World :=
  {| params := params w; globals := globals w; heap := heap w; rng := s;
     os_entropy := os_entropy w; timer := timer w; reports := reports w |}.
Definition set_timer (t : list Q) (w : World) : World :=
  {| params := params w; globals := globals w; heap := heap w; rng := rng w;
     os_entropy := os_entropy w; timer := t; reports := reports w |}.
Definition set_reports (r : list Report) (w : World) : World :=
  {| params := params w; globals := globals w; heap := heap w; rng := rng w;
     os_entropy := os_entropy w; timer := timer w; reports := r |}.

(** ** The monad of script statements *)

Inductive Result (A : Type) :=
| Ok (a : A) (w : World)
| Raise (e : exn) (w : World).
Arguments Ok {A} a w.
Arguments Raise {A} e w.

Definition M (A : Type) : Type := World -> Result A.

Definition ret {A} (a : A) : M A := fun w => Ok a w.
Definition raise {A} (e : exn) : M A := fun w => Raise e w.
Definition bind {A B} (m : M A) (k : A -> M B) : M B :=
  fun w => match m w with
           | Ok a w' => k a w'
           | Raise e w' => Raise e w'
           end.
Definition lift {A} (r : exn + A) : M A :=
  match r with inl e => raise e | inr a => ret a end.
Definition get : M World := fun w => Ok w w.
Definition modify (f : World -> World) : M unit := fun w => Ok tt (f w).

Notation "x <- m ;; k" := (bind m (fun x => k))
  (at level 100, m at next level, right associativity).
Notation "m ;;; k" := (bind m (fun _ => k))
  (at level 100, right associativity).

(** *** Names, attributes, objects *)

(** Reading a global name: [NameError] when nothing bound it. *)
Definition name_lookup (n : string) : M binding :=
  fun w => match globals w !! n with
           | Some b => Ok b w
           | None => Raise (NameError n) w
           end.

Definition bind_name (n : string) (b : binding) : M unit :=
  modify (fun w => set_globals (<[n := b]> (globals w)) w).

(** [params.k] *)
Definition getattr (k : string) : M pyval :=
  fun w => match params w !! k with
           | Some v => Ok v w
           | None => Raise (AttributeError k) w
           end.

(** [params.k = v] *)
Definition setattr (k : string) (v : pyval) : M unit :=
  modify (fun w => set_params (<[k := v]> (params w)) w).

(** Constructing an object gives it an identity no live object has. *)
Definition alloc (e : estimator) : M nat :=
  fun w => let r := fresh (dom (heap w)) in
           Ok r (set_heap (<[r := e]> (heap w)) w).

Definition store (r : nat) (e : estimator) : M unit :=
  modify (fun w => set_heap (<[r := e]> (heap w)) w).

Definition deref_kmeans (r : nat) (method : string) : M KMeans :=
  fun w => match heap w !! r with
           | Some (EKMeans k) => Ok k w
           | _ => Raise (AttributeError method) w
           end.

Definition deref_forest (r : nat) (method : string) : M RandomForestClassifier :=
  fun w => match heap w !! r with
           | Some (EForest f) => Ok f w
           | _ => Raise (AttributeError method) w
           end.

(** The object a global name refers to. *)
Definition name_object (n : string) : M nat :=
  b <- name_lookup n ;;
  match b with
  | Object r => ret r
  | _ => raise TypeError
  end.

(** [float(v)] *)
Definition float (v : pyval) : exn + Q :=
  match v with
  | PyFloat q => inr q
  | PyInt z => inr (inject_Z z)
  | PyBool b => inr (if b then 1%Q else 0%Q)
  | PyStr s => match py_float s with Some q => inr q | None => inl ValueError end
  | PyNone => inl TypeError
  end.

(** *** The [bench] helpers the scripts call *)

(** Modelled from the spec: the options [bench.parse_args] (not among the
    sources) parses, the script's own merged with the shared ones (dataset,
    dtype, seed, threads, loop counts). *)
Definition bench_options (parser : list Argument) (prefix : option string)
    (loop_types : option (list string)) : list Argument :=
  foldl add_argument parser (shared_arguments prefix loop_types).

(** Modelled from the spec: [bench.parse_args], which is not among the
    sources.  It parses the command line into the configuration object,
    failing with a usage error on an invalid type or a value outside an
    enumerated choice set. *)
Definition bench_parse_args (parser : list Argument) (prefix : option string)
    (loop_types : option (list string)) (argv : list string) : M Namespace :=
  lift (parse_args (bench_options parser prefix loop_types) argv).

(** [load_data(params)] and [load_data(params, int_label=...)] *)
Definition bench_load_data (int_label : option bool)
  : M (table * table * list Z * list Z) :=
  fun w => match load_data (params w) int_label (rng w) with
           | inl e => Raise e w
           | inr (d, s) => Ok d (set_rng s w)
           end.

(** [timeit.default_timer()]: the next reading of the wall clock. *)
Definition default_timer : M Q :=
  fun w => match timer w with
           | t :: ts => Ok t (set_timer ts w)
           | [] => Ok 0%Q w
           end.

(** One timed call followed by [n] more; the value is the last call's. *)
Fixpoint timed_calls {A} (n : nat) (func : M A) : M (list Q * A) :=
  t0 <- default_timer ;;
  v <- func ;;
  t1 <- default_timer ;;
  match n with
  | O => ret ([(t1 - t0)%Q], v)
  | S n' => r <- timed_calls n' func ;; ret ((t1 - t0)%Q :: fst r, snd r)
  end.

(** Modelled from the spec: [bench.measure_function_time], which is not
    among the sources.  It executes the callable a configured number of
    times and returns the elapsed time together with the callable's
    result. *)
Definition measure_function_time {A} (func : M A) : M (Q * A) :=
  w <- get ;;
  r <- timed_calls (further_calls (params w)) func ;;
  ret (summarise (fst r), snd r).

(** Modelled from the spec: [bench.accuracy_score], which is not among the
    sources: the fraction of exact label matches between predictions and
    ground truth. *)
Definition accuracy_score (y_pred y_true : list Z) : Q :=
  Z.of_nat (length (List.filter (fun p => Z.eqb (fst p) (snd p)) (zip y_pred y_true)))
  # Pos.of_nat (length y_true).

(** [print_output(...)]: the output emitter records one report. *)
Definition emit (r : Report) : M unit :=
  modify (fun w => set_reports (reports w ++ [r]) w).

(** *** numpy's global random state *)

(** [np.random.seed(seed)] *)
Definition random_seed (seed : pyval) : M unit :=
  fun w =>
    let r := match seed with
             | PyInt z => np_random_seed_int z
             | v => np_random_seed_other v (os_entropy w)
             end in
    match r with
    | inl e => Raise e w
    | inr s => Ok tt (set_rng s w)
    end.

(** [np.random.randint(low, high, size=size)] *)
Definition random_randint (low high : Z) (size : pyval) : M indices :=
  fun w => match np_random_randint (rng w) low high size with
           | inl e => Raise e w
           | inr (idx, s) => Ok idx (set_rng s w)
           end.

(** ** cuml/kmeans.py *)

(** Lines 5-12: the names the imports bind.  (Lines 14 and 17 adjust the
    library's logger and the warning filters.) *)
Definition kmeans_imports : gmap string binding :=
  list_to_map
    [ ("argparse", Module_ "argparse");
      ("parse_args", Callable "bench.parse_args");
      ("measure_function_time", Callable "bench.measure_function_time");
      ("load_data", Callable "bench.load_data");
      ("print_output", Callable "bench.print_output");
      ("np", Module_ "numpy");
      ("KMeans", Callable "cuml.KMeans");
      ("cuml", Module_ "cuml");
      ("warnings", Module_ "warnings") ].

(** Lines 33-45: the initial centroids. *)
Definition initial_centroids (X_train : table) : M init_array :=
  filei <- getattr "filei" ;;
  if bool_decide (filei ≠ PyNone) then
    _ <- name_lookup "np" ;;
    path <- getattr "filei" ;;
    loaded <- lift (np_load path) ;;
    dtype <- getattr "dtype" ;;
    X_init <- lift (np_astype dtype loaded) ;;
    setattr "n_clusters" (PyInt (Z.of_nat (length X_init))) ;;;
    ret (Init2D X_init)
  else
    _ <- name_lookup "np" ;;
    seed <- getattr "seed" ;;
    random_seed seed ;;;
    size <- getattr "n_clusters" ;;
    centroids_idx <- random_randint 0 (shape0 X_train) size ;;
    if has_iloc X_train then lift (iloc_values X_train centroids_idx)
    else lift (getitem X_train centroids_idx).

(** [alg.fit(X)] *)
Definition KMeans_fit_method (r : nat) (X : table) : M unit :=
  k <- deref_kmeans r "fit" ;;
  k' <- lift (KMeans_fit k X) ;;
  store r (EKMeans k').

(** [kmeans.predict(X)] *)
Definition KMeans_predict_method (r : nat) (X : table) : M (list Z) :=
  k <- deref_kmeans r "predict" ;;
  res <- lift (KMeans_predict k X) ;;
  store r (EKMeans (fst res)) ;;;
  ret (snd res).

(** [kmeans.inertia_] *)
Definition inertia_ (r : nat) : M pyval :=
  k <- deref_kmeans r "inertia_" ;;
  lift (KMeans_inertia_ k).

(** Lines 54-56: the keyword arguments, read from [params] at call time. *)
Definition kmeans_kwargs (X_init : init_array) : M KMeansArgs :=
  n_clusters <- getattr "n_clusters" ;;
  tol <- getattr "tol" ;;
  maxiter <- getattr "maxiter" ;;
  samples_per_batch <- getattr "samples_per_batch" ;;
  ret {| km_n_clusters := n_clusters; km_tol := tol;
         km_max_iter := maxiter; km_init := X_init;
         km_max_samples_per_batch := samples_per_batch |}.

(** Lines 53-58. *)
Definition kmeans_fit (X_init : init_array) (X : table) : M nat :=
  _ <- name_lookup "KMeans" ;;
  kwargs <- kmeans_kwargs X_init ;;
  k <- lift (KMeans_init kwargs) ;;
  alg <- alloc (EKMeans k) ;;
  KMeans_fit_method alg X ;;;
  ret alg.

Record KMeansMeasured := {
  km_fit_time : Q;
  km_kmeans : nat;
  km_train_inertia : Q;
  km_predict_time : Q;
  km_test_inertia : Q
}.

(** Lines 62-67. *)
Definition kmeans_measure (X_init : init_array) (X_train X_test : table)
  : M KMeansMeasured :=
  _ <- name_lookup "measure_function_time" ;;
  _ <- name_lookup "kmeans_fit" ;;
  fitted <- measure_function_time (kmeans_fit X_init X_train) ;;
  let fit_time := fst fitted in
  let kmeans := snd fitted in
  v <- inertia_ kmeans ;;
  train_inertia <- lift (float v) ;;
  _ <- name_lookup "measure_function_time" ;;
  _ <- deref_kmeans kmeans "predict" ;;
  predicted <- measure_function_time (KMeans_predict_method kmeans X_test) ;;
  let predict_time := fst predicted in
  v' <- inertia_ kmeans ;;
  test_inertia <- lift (float v') ;;
  ret {| km_fit_time := fit_time; km_kmeans := kmeans;
         km_train_inertia := train_inertia; km_predict_time := predict_time;
         km_test_inertia := test_inertia |}.

(** Lines 47-48. *)
Definition kmeans_columns : list string :=
  ["batch"; "arch"; "prefix"; "function"; "threads"; "dtype"; "size";
   "n_clusters"; "time"].

(** Lines 69-74. *)
Definition kmeans_report (X_train X_test : table) (m : KMeansMeasured) : M unit :=
  _ <- name_lookup "print_output" ;;
  w <- get ;;
  emit {| library := "cuml"; algorithm := "kmeans";
          stages := ["training"; "prediction"];
          columns := Some kmeans_columns;
          report_params := params w;
          functions := ["KMeans.fit"; "KMeans.predict"];
          times := [km_fit_time m; km_predict_time m];
          accuracy_type := "inertia";
          accuracies := [km_train_inertia m; km_test_inertia m];
          data := [X_train; X_test];
          alg_instance := km_kmeans m |}.

(** Lines 5-31: imports, the parser, [parse_args] and [load_data]. *)
Definition kmeans_setup (argv : list string)
  : M (table * table * list Z * list Z) :=
  modify (set_globals kmeans_imports) ;;;
  _ <- name_lookup "argparse" ;;
  _ <- name_lookup "parse_args" ;;
  p <- bench_parse_args KMeansCLI.parser (Some "cuml") (Some ["fit"; "predict"])
         argv ;;
  modify (set_params p) ;;;
  _ <- name_lookup "load_data" ;;
  bench_load_data None.

(** Lines 33-74: everything after the data is loaded. *)
Definition kmeans_run (X_train X_test : table) : M unit :=
  X_init <- initial_centroids X_train ;;
  bind_name "kmeans_fit" (Callable "kmeans_fit") ;;;
  m <- kmeans_measure X_init X_train X_test ;;
  kmeans_report X_train X_test m.

(** The whole script, run on the command line [argv]. *)
Definition kmeans_script (argv : list string) : M unit :=
  d <- kmeans_setup argv ;;
  let '(X_train, X_test, _, _) := d in
  kmeans_run X_train X_test.

(** ** cuml_bench/df_clsf.py *)

(** Lines 17-23: the names the imports bind. *)
Definition df_clsf_imports : gmap string binding :=
  list_to_map
    [ ("sys", Module_ "sys");
      ("os", Module_ "os");
      ("argparse", Module_ "argparse");
      ("bench", Module_ "bench");
      ("cuml", Module_ "cuml");
      ("RandomForestClassifier", Callable "cuml.ensemble.RandomForestClassifier") ].

(** Lines 55-65: the string-valued hyperparameters become integer codes
    and the class count is derived from the training labels. *)
Definition translate_params (y_train : list Z) : M unit :=
  criterion <- getattr "criterion" ;;
  (if bool_decide (criterion = PyStr "gini")
   then setattr "criterion" (PyInt 0)
   else setattr "criterion" (PyInt 1)) ;;;
  split_algorithm <- getattr "split_algorithm" ;;
  (if bool_decide (split_algorithm = PyStr "hist")
   then setattr "split_algorithm" (PyInt 0)
   else setattr "split_algorithm" (PyInt 1)) ;;;
  setattr "n_classes" (PyInt (Z.of_nat (length (remove_dups y_train)))).

(** [clf.fit(X, y)] *)
Definition RandomForestClassifier_fit_method (r : nat) (X : table) (y : list Z)
  : M nat :=
  f <- deref_forest r "fit" ;;
  f' <- lift (RandomForestClassifier_fit f X y) ;;
  store r (EForest f') ;;;
  ret r.

(** [clf.predict(X, **prediction_args)] *)
Definition RandomForestClassifier_predict_method (r : nat) (X : table)
    (kwargs : gmap string pyval) : M (list Z) :=
  f <- deref_forest r "predict" ;;
  res <- lift (RandomForestClassifier_predict f X kwargs) ;;
  store r (EForest (fst res)) ;;;
  ret (snd res).

(** Lines 70-78: the keyword arguments, read from [params] at call time. *)
Definition forest_kwargs : M ForestArgs :=
  criterion <- getattr "criterion" ;;
  split_algorithm <- getattr "split_algorithm" ;;
  num_trees <- getattr "num_trees" ;;
  max_depth <- getattr "max_depth" ;;
  max_features <- getattr "max_features" ;;
  min_samples_split <- getattr "min_samples_split" ;;
  max_leaf_nodes <- getattr "max_leaf_nodes" ;;
  min_impurity_decrease <- getattr "min_impurity_decrease" ;;
  bootstrap <- getattr "bootstrap" ;;
  ret {| split_criterion := criterion;
         split_algo := split_algorithm;
         n_estimators := num_trees;
         rf_max_depth := max_depth;
         rf_max_features := max_features;
         min_rows_per_node := min_samples_split;
         max_leaves := max_leaf_nodes;
         rf_min_impurity_decrease := min_impurity_decrease;
         rf_bootstrap := bootstrap |}.

(** Lines 68-79. *)
Definition fit (X : table) (y : list Z) : M nat :=
  _ <- name_lookup "RandomForestClassifier" ;;
  kwargs <- forest_kwargs ;;
  f <- lift (RandomForestClassifier_init kwargs) ;;
  r <- alloc (EForest f) ;;
  bind_name "clf" (Object r) ;;;
  clf <- name_object "clf" ;;
  RandomForestClassifier_fit_method clf X y.

Fixpoint split_dots (s : string) : list string :=
  match s with
  | EmptyString => [EmptyString]
  | String c s' =>
      if Ascii.eqb c "." then EmptyString :: split_dots s'
      else match split_dots s' with
           | h :: t => String c h :: t
           | [] => [String c EmptyString]
           end
  end.

(** [int(cuml.__version__.split('.')[1])] *)
Definition version_minor : exn + Z :=
  match split_dots cuml_version !! 1%nat with
  | None => inl IndexError
  | Some m => match py_int m with Some z => inr z | None => inl ValueError end
  end.

(** Lines 82-86. *)
Definition predict (X : table) : M (list Z) :=
  let prediction_args : gmap string pyval := {[ "predict_model" := PyStr "GPU" ]} in
  _ <- name_lookup "cuml" ;;
  minor <- lift version_minor ;;
  prediction_args <-
    (if (minor <=? 14)%Z then
       n_classes <- getattr "n_classes" ;;
       ret (<["num_classes" := n_classes]> prediction_args)
     else ret prediction_args) ;;
  clf <- name_object "clf" ;;
  RandomForestClassifier_predict_method clf X prediction_args.

Record ForestMeasured := {
  rf_fit_time : Q;
  rf_train_acc : Q;
  rf_predict_time : Q;
  rf_test_acc : Q
}.

(** Lines 88-93. *)
Definition df_clsf_measure (X_train X_test : table) (y_train y_test : list Z)
  : M ForestMeasured :=
  _ <- name_lookup "bench" ;;
  _ <- name_lookup "fit" ;;
  fitted <- measure_function_time (fit X_train y_train) ;;
  let fit_time := fst fitted in
  _ <- name_lookup "predict" ;;
  y_pred <- predict X_train ;;
  _ <- name_lookup "bench" ;;
  let train_acc := (100 * accuracy_score y_pred y_train)%Q in
  _ <- name_lookup "bench" ;;
  _ <- name_lookup "predict" ;;
  predicted <- measure_function_time (predict X_test) ;;
  let predict_time := fst predicted in
  let y_pred := snd predicted in
  _ <- name_lookup "bench" ;;
  let test_acc := (100 * accuracy_score y_pred y_test)%Q in
  ret {| rf_fit_time := fit_time; rf_train_acc := train_acc;
         rf_predict_time := predict_time; rf_test_acc := test_acc |}.

(** Lines 95-100.  The callee is the bare name [print_output]. *)
Definition df_clsf_report (X_train X_test : table) (m : ForestMeasured) : M unit :=
  _ <- name_lookup "print_output" ;;
  w <- get ;;
  clf <- name_object "clf" ;;
  emit {| library := "cuml"; algorithm := "decision_forest_classification";
          stages := ["training"; "prediction"];
          columns := None;
          report_params := params w;
          functions := ["df_clsf.fit"; "df_clsf.predict"];
          times := [rf_fit_time m; rf_predict_time m];
          accuracy_type := "accuracy[%]";
          accuracies := [rf_train_acc m; rf_test_acc m];
          data := [X_train; X_test];
          alg_instance := clf |}.

(** Lines 17-53: imports, the parser, [parse_args] and [load_data]. *)
Definition df_clsf_setup (argv : list string)
  : M (table * table * list Z * list Z) :=
  modify (set_globals df_clsf_imports) ;;;
  _ <- name_lookup "argparse" ;;
  _ <- name_lookup "bench" ;;
  p <- bench_parse_args (ForestCLI.parser float_or_int) None None argv ;;
  modify (set_params p) ;;;
  _ <- name_lookup "bench" ;;
  bench_load_data (Some true).

(** Lines 55-100: everything after the data is loaded. *)
Definition df_clsf_run (X_train X_test : table) (y_train y_test : list Z)
  : M unit :=
  translate_params y_train ;;;
  bind_name "fit" (Callable "fit") ;;;
  bind_name "predict" (Callable "predict") ;;;
  m <- df_clsf_measure X_train X_test y_train y_test ;;
  df_clsf_report X_train X_test m.

(** The whole script, run on the command line [argv]. *)
Definition df_clsf_script (argv : list string) : M unit :=
  d <- df_clsf_setup argv ;;
  let '(X_train, X_test, y_train, y_test) := d in
  df_clsf_run X_train X_test y_train y_test.

(** *** Observing a run *)

Definition world_of {A} (r : Result A) : World :=
  match r with Ok _ w | Raise _ w => w end.

Definition outcome {A} (r : Result A) : exn + A :=
  match r with Ok a _ => inr a | Raise e _ => inl e end.

(** Two attribute bags that agree outside the names [ks]. *)
Definition agree_except (ks : list string) (p q : Namespace) : Prop :=
  forall k, k ∉ ks -> p !! k = q !! k.

(** A statement is framed by a relation on states when every run of it,
    normal or exceptional, ends in a related state. *)
Definition framed (R : World -> World -> Prop) {A} (m : M A) : Prop :=
  forall w, R w (world_of (m w)).

(** The relations used as frames: [params] changes at most at the names
    [ks]; [params] is unchanged when no centroid file is configured; while
    the name [n] is unbound it stays unbound and nothing is emitted; no
    object is removed or altered and [params] is unchanged; the K-means
    object [r], if there is one, keeps its [inertia_]. *)
Definition params_agree (ks : list string) (w w' : World) : Prop :=
  agree_except ks (params w) (params w').

Definition params_kept_without_file (w w' : World) : Prop :=
  params w !! "filei" = Some PyNone -> params w' = params w.

Definition quiet_without (n : string) (w w' : World) : Prop :=
  globals w !! n = None ->
  globals w' !! n = None /\ reports w' = reports w.

Definition heap_grows (w w' : World) : Prop :=
  (forall r e, heap w !! r = Some e -> heap w' !! r = Some e) /\
  params w' = params w.

Definition inertia_kept (r : nat) (w w' : World) : Prop :=
  forall k, heap w !! r = Some (EKMeans k) ->
            exists k', heap w' !! r = Some (EKMeans k') /\
                       KMeans_inertia_ k' = KMeans_inertia_ k.

(** A further frame: nothing is emitted. *)
Definition reports_kept (w w' : World) : Prop := reports w' = reports w.

(** The report of the K-means script (lines 69-74), for the measured values
    [m] and the configuration [p]. *)
Definition kmeans_report_of (X_train X_test : table) (m : KMeansMeasured)
    (p : Namespace) : Report :=
  {| library := "cuml"; algorithm := "kmeans";
     stages := ["training"; "prediction"];
     columns := Some kmeans_columns;
     report_params := p;
     functions := ["KMeans.fit"; "KMeans.predict"];
     times := [km_fit_time m; km_predict_time m];
     accuracy_type := "inertia";
     accuracies := [km_train_inertia m; km_test_inertia m];
     data := [X_train; X_test];
     alg_instance := km_kmeans m |}.

End Scripts.

Arguments Ok {_ _ A} a w.
Arguments Raise {_ _ A} e w.

(** * A reference configuration

    Small executable stand-ins for the collaborators, on which the scripts
    run from end to end: a decimal [int], a linear congruential generator
    for numpy's random state, a K-means whose inertia is the row count of
    the last table it was fitted on, a forest that predicts the first
    training label, and a [bench] module with a [--seed] and a [--dtype]
    option that times every callable twice. *)

Module Example.

Fixpoint digits (s : string) (acc : Z) : option Z :=
  match s with
  | EmptyString => Some acc
  | String c s' =>
      if is_digit c
      then digits s' (10 * acc + Z.of_nat (nat_of_ascii c) - 48)%Z
      else None
  end.

Definition int (s : string) : option Z :=
  match s with
  | EmptyString => None
  | String "-" s' => if String.eqb s' "" then None else Z.opp <$> digits s' 0
  | _ => digits s 0
  end.

#[export] Instance builtins : PyBuiltins :=
  {| py_int := int; py_float s := inject_Z <$> int s |}.

Definition lcg (s : Z) : Z := ((s * 1103515245 + 12345) mod 2147483648)%Z.

Fixpoint draws (k : nat) (s low high : Z) : list Z * Z :=
  match k with
  | O => ([], s)
  | S k' =>
      let s' := lcg s in
      let r := draws k' s' low high in
      ((low + s' mod (high - low))%Z :: fst r, snd r)
  end.

Definition randint (s low high : Z) (size : pyval) : exn + (indices * Z) :=
  if (high <=? low)%Z then inl ValueError
  else match size with
       | PyNone => inr (Scalar (low + lcg s mod (high - low))%Z, lcg s)
       | PyInt k =>
           if (k <? 0)%Z then inl ValueError
           else let r := draws (Z.to_nat k) s low high in
                inr (Vector (fst r), snd r)
       | _ => inl TypeError
       end.

#[export] Instance numpy : Numpy :=
  {| RandomState := Z;
     np_random_seed_int z :=
       if ((0 <=? z) && (z <? 4294967296))%Z then inr z else inl ValueError;
     np_random_seed_other v e :=
       match v with PyNone => inr e | _ => inl TypeError end;
     np_random_randint := randint;
     np_load path :=
       match path with
       | PyStr "centroids.npy" => inr [[1%Q; 1%Q]; [5%Q; 5%Q]]
       | _ => inl (LibraryError "no such file")
       end;
     np_astype _ rows := inr rows |}.

#[export] Instance cuml : Cuml :=
  {| KMeans := Q;
     RandomForestClassifier := list Z;
     cuml_version := "0.14.0";
     KMeans_init _ := inr 0%Q;
     KMeans_fit _ X := inr (inject_Z (shape0 X));
     KMeans_predict k X := inr (k, List.map (fun _ => 0%Z) (table_rows X));
     KMeans_inertia_ k := inr (PyFloat k);
     RandomForestClassifier_init _ := inr [];
     RandomForestClassifier_fit _ _ y := inr y;
     RandomForestClassifier_predict f X _ :=
       inr (f, List.map (fun _ => List.hd 0%Z f) (table_rows X)) |}.

Definition seed_option : Argument :=
  option_ ["--seed"] type_int (Some (PyInt 12345)).
Definition dtype_option : Argument :=
  option_ ["--dtype"] type_str (Some (PyStr "float64")).

Definition X_train : table :=
  NdArray [[0%Q; 0%Q]; [0%Q; 1%Q]; [4%Q; 4%Q]; [4%Q; 5%Q]].
Definition X_test : table := NdArray [[0%Q; 2%Q]; [5%Q; 4%Q]].
Definition y_train : list Z := [0; 0; 1; 1]%Z.
Definition y_test : list Z := [0; 1]%Z.

#[export] Instance bench : Bench :=
  {| shared_arguments _ _ := [seed_option; dtype_option];
     float_or_int s := PyInt <$> int s;
     load_data _ _ s := inr (X_train, X_test, y_train, y_test, s);
     further_calls _ := 1%nat;
     summarise ts := List.hd 0%Q ts |}.

(** What the two parsers return on an empty command line. *)
Definition kmeans_defaults : Namespace :=
  list_to_map
    [ ("filei", PyNone); ("tol", PyFloat 0); ("maxiter", PyInt 100);
      ("samples_per_batch", PyInt 32768); ("n_clusters", PyNone);
      ("seed", PyInt 12345); ("dtype", PyStr "float64") ].

Definition forest_defaults : Namespace :=
  list_to_map
    [ ("criterion", PyStr "gini"); ("split_algorithm", PyStr "hist");
      ("num_trees", PyInt 100); ("max_features", PyNone);
      ("max_depth", PyNone); ("min_samples_split", PyInt 2);
      ("max_leaf_nodes", PyInt (-1)); ("min_impurity_decrease", PyFloat 0);
      ("bootstrap", PyBool true);
      ("seed", PyInt 12345); ("dtype", PyStr "float64") ].

(** The state in which the interpreter starts a script. *)
Definition w0 : World :=
  {| params := ∅; globals := ∅; heap := ∅; rng := 0%Z; os_entropy := 7%Z;
     timer := [1%Q; 3%Q; 4%Q; 8%Q; 9%Q; 10%Q; 12%Q; 15%Q]; reports := [] |}.

(** The state of the K-means script, run on [--n-clusters 3], when it has
    defined [kmeans_fit] (line 53) and not yet sampled the centroids. *)
Definition kmeans_ready : World :=
  {| params := <["n_clusters" := PyInt 3]> kmeans_defaults;
     globals := <["kmeans_fit" := Callable "kmeans_fit"]> kmeans_imports;
     heap := ∅; rng := 0%Z; os_entropy := 7%Z;
     timer := [1%Q; 3%Q; 4%Q; 8%Q; 9%Q; 10%Q; 12%Q; 15%Q]; reports := [] |}.

(** The state of the classification script, run on an empty command line,
    when it has defined [predict] (line 82). *)
Definition df_clsf_ready : World :=
  {| params :=
       <["n_classes" := PyInt 2]>
         (<["split_algorithm" := PyInt 0]>
            (<["criterion" := PyInt 0]> forest_defaults));
     globals :=
       <["predict" := Callable "predict"]>
         (<["fit" := Callable "fit"]> df_clsf_imports);
     heap := ∅; rng := 0%Z; os_entropy := 7%Z;
     timer := [1%Q; 3%Q; 4%Q; 8%Q; 9%Q; 10%Q; 12%Q; 15%Q]; reports := [] |}.

(** A library that, like cuML, refuses to fit a forest on an empty training
    set, and is otherwise as above. *)
Definition strict_cuml : Cuml :=
  {| KMeans := Q;
     RandomForestClassifier := list Z;
     cuml_version := "0.14.0";
     KMeans_init _ := inr 0%Q;
     KMeans_fit _ X := inr (inject_Z (shape0 X));
     KMeans_predict k X := inr (k, List.map (fun _ => 0%Z) (table_rows X));
     KMeans_inertia_ k := inr (PyFloat k);
     RandomForestClassifier_init _ := inr [];
     RandomForestClassifier_fit _ _ y :=
       match y with
       | [] => inl (LibraryError "empty training set")
       | _ => inr y
       end;
     RandomForestClassifier_predict f X _ :=
       inr (f, List.map (fun _ => List.hd 0%Z f) (table_rows X)) |}.

(** The state of the classification script over that library after a first
    call of [fit]: the global [clf] refers to a fitted estimator. *)
Definition df_clsf_fitted : @World numpy strict_cuml :=
  @Build_World numpy strict_cuml
    (<["n_classes" := PyInt 2]>
       (<["split_algorithm" := PyInt 0]>
          (<["criterion" := PyInt 0]> forest_defaults)))
    (<["clf" := Object 0%nat]>
       (<["predict" := Callable "predict"]>
          (<["fit" := Callable "fit"]> df_clsf_imports)))
    {[ 0%nat := @EForest strict_cuml [0; 0; 1; 1]%Z ]}
    0%Z 7%Z [1%Q; 3%Q; 4%Q; 8%Q; 9%Q; 10%Q; 12%Q; 15%Q] [].

(** The state of the K-means script, run on an empty command line, when it
    has defined [kmeans_fit] (line 53): no cluster count is configured. *)
Definition kmeans_uncounted : World :=
  {| params := kmeans_defaults;
     globals := <["kmeans_fit" := Callable "kmeans_fit"]> kmeans_imports;
     heap := ∅; rng := 0%Z; os_entropy := 7%Z;
     timer := [1%Q; 3%Q; 4%Q; 8%Q; 9%Q; 10%Q; 12%Q; 15%Q]; reports := [] |}.

(** The same state when the script is run on [--filei centroids.npy
    --n-clusters 5]. *)
Definition kmeans_from_file : World :=
  {| params :=
       <["n_clusters" := PyInt 5]>
         (<["filei" := PyStr "centroids.npy"]> kmeans_defaults);
     globals := <["kmeans_fit" := Callable "kmeans_fit"]> kmeans_imports;
     heap := ∅; rng := 0%Z; os_entropy := 7%Z;
     timer := [1%Q; 3%Q; 4%Q; 8%Q; 9%Q; 10%Q; 12%Q; 15%Q]; reports := [] |}.

End Example.

(** * Properties *)

Section Properties.

Context {builtins : PyBuiltins} {numpy : Numpy} {cuml : Cuml} {bench : Bench}.

(** ** Reasoning about statements *)

Lemma bind_Ok {A B} (m : M A) (k : A -> M B) w b w' :
  bind m k w = Ok b w' ->
  exists a w1, m w = Ok a w1 /\ k a w1 = Ok b w'.
Proof.
  unfold bind. destruct (m w) as [a w1|e w1]; [eauto | discriminate].
Qed.

Lemma bind_run {A B} (m : M A) (k : A -> M B) w a w1 :
  m w = Ok a w1 -> bind m k w = k a w1.
Proof. unfold bind. intros ->. reflexivity. Qed.

Lemma bind_raise {A B} (m : M A) (k : A -> M B) w e w1 :
  m w = Raise e w1 -> bind m k w = Raise e w1.
Proof. unfold bind. intros ->. reflexivity. Qed.

Lemma lift_Ok {A} (r : exn + A) w a w' :
  lift r w = Ok a w' -> r = inr a /\ w' = w.
Proof. destruct r; simpl; unfold raise, ret; intros [=]; subst; auto. Qed.

Lemma name_lookup_Ok n w b w' :
  name_lookup n w = Ok b w' -> globals w !! n = Some b /\ w' = w.
Proof.
  unfold name_lookup. destruct (globals w !! n); intros [=]; subst; auto.
Qed.

Lemma getattr_Ok k w v w' :
  getattr k w = Ok v w' -> params w !! k = Some v /\ w' = w.
Proof.
  unfold getattr. destruct (params w !! k); intros [=]; subst; auto.
Qed.

Lemma deref_kmeans_Ok r meth w k w' :
  deref_kmeans r meth w = Ok k w' -> heap w !! r = Some (EKMeans k) /\ w' = w.
Proof.
  unfold deref_kmeans. destruct (heap w !! r) as [[]|]; intros [=]; subst; auto.
Qed.

Lemma deref_forest_Ok r meth w f w' :
  deref_forest r meth w = Ok f w' -> heap w !! r = Some (EForest f) /\ w' = w.
Proof.
  unfold deref_forest. destruct (heap w !! r) as [[]|]; intros [=]; subst; auto.
Qed.

Lemma name_object_Ok n w r w' :
  name_object n w = Ok r w' -> globals w !! n = Some (Object r) /\ w' = w.
Proof.
  unfold name_object. intros (b & w1 & Hb & Hk)%bind_Ok.
  apply name_lookup_Ok in Hb as [Hb ->].
  destruct b; try discriminate. injection Hk as -> ->. auto.
Qed.

(** Successive inversion of a successful run, statement by statement. *)
Ltac inv_run :=
  repeat match goal with
    | H : bind _ _ _ = Ok _ _ |- _ =>
        let a := fresh "a" in let w := fresh "w" in
        let Hm := fresh "Hm" in let Hk := fresh "Hk" in
        apply bind_Ok in H as (a & w & Hm & Hk)
    | H : name_lookup _ _ = Ok _ _ |- _ => apply name_lookup_Ok in H as [H ->]
    | H : name_object _ _ = Ok _ _ |- _ => apply name_object_Ok in H as [H ->]
    | H : getattr _ _ = Ok _ _ |- _ => apply getattr_Ok in H as [H ->]
    | H : lift _ _ = Ok _ _ |- _ => apply lift_Ok in H as [H ->]
    | H : deref_kmeans _ _ _ = Ok _ _ |- _ => apply deref_kmeans_Ok in H as [H ->]
    | H : deref_forest _ _ _ = Ok _ _ |- _ => apply deref_forest_Ok in H as [H ->]
    | H : ret _ _ = Ok _ _ |- _ => unfold ret in H; injection H as <- <-
    | H : get _ = Ok _ _ |- _ => unfold get in H; injection H as <- <-
    | H : modify _ _ = Ok _ _ |- _ => unfold modify in H; injection H as <- <-
    | H : alloc _ _ = Ok _ _ |- _ => unfold alloc in H; injection H as <- <-
    | H : store _ _ _ = Ok _ _ |- _ => unfold store in H
    | H : bind_name _ _ _ = Ok _ _ |- _ => unfold bind_name in H
    | H : setattr _ _ _ = Ok _ _ |- _ => unfold setattr in H
    | H : emit _ _ = Ok _ _ |- _ => unfold emit in H
    end.

(** ** The command-line parser *)

Lemma foldl_add_argument parser l : foldl add_argument parser l = (parser ++ l)%list.
Proof.
  revert parser. induction l as [|a l IH]; intros parser; simpl.
  - by rewrite app_nil_r.
  - rewrite IH. unfold add_argument. by rewrite <- app_assoc.
Qed.

Lemma bench_options_app parser prefix loop_types :
  bench_options parser prefix loop_types
  = (parser ++ shared_arguments prefix loop_types)%list.
Proof. apply foldl_add_argument. Qed.

Lemma find_option_in o opts a :
  List.find (has_option_string o) opts = Some a -> a ∈ opts.
Proof. intros Hf. apply list_elem_of_In. by apply List.find_some in Hf as [Hf _]. Qed.

Lemma option_string_actions_in opts oa :
  In oa (option_string_actions opts) -> snd oa ∈ opts.
Proof.
  unfold option_string_actions. intros Hin.
  apply in_flat_map in Hin as (a & Ha & Hin).
  apply in_map_iff in Hin as (o & <- & _). by apply list_elem_of_In.
Qed.

Lemma option_tuples_in opts tok t :
  In t (option_tuples opts tok) -> fst (fst t) ∈ opts.
Proof.
  unfold option_tuples. intros Hin.
  destruct (is_long tok); apply in_flat_map in Hin as (oa & Hoa & Hin);
    apply option_string_actions_in in Hoa;
    repeat case_match; simpl in Hin; intuition; by subst.
Qed.

Lemma classify_in opts tok a o e : classify opts tok = Optional a o e -> a ∈ opts.
Proof.
  unfold classify. intros Hc.
  repeat case_match; simplify_eq; eauto using find_option_in.
  all: match goal with
       | H : option_tuples _ _ = [?t] |- _ =>
           assert (Hin : In t (option_tuples opts tok)) by (rewrite H; by left);
           exact (option_tuples_in _ _ _ Hin)
       end.
Qed.

Lemma chain_in opts e : forall a short acts last,
  a ∈ opts -> chain opts a short e = Some (acts, last) ->
  (forall x, x ∈ List.map fst acts -> x ∈ opts) /\
  (forall a', last = Some a' -> a' ∈ opts).
Proof.
  induction e as [|c e' IH]; intros a short acts last Ha Hc; simpl in Hc.
  - destruct (arg_action a); simplify_eq.
    split; [|done]. intros x Hx. simpl in Hx.
    apply list_elem_of_singleton in Hx. by subst.
  - destruct (arg_action a) eqn:Hact.
    + simplify_eq. split; [|done]. intros x Hx. simpl in Hx.
      apply list_elem_of_singleton in Hx. by subst.
    + destruct short; [|discriminate].
      destruct (List.find _ opts) as [a'|] eqn:Hf; [|discriminate].
      apply find_option_in in Hf.
      destruct e' as [|c' e''].
      * simplify_eq. split.
        -- intros x Hx. simpl in Hx. apply list_elem_of_singleton in Hx. by subst.
        -- by intros ? [= <-].
      * destruct (chain opts a' _ _) as [[l p]|] eqn:Hch; [|discriminate].
        simplify_eq. destruct (IH _ _ _ _ Hf Hch) as [Hl Hp].
        split; [|exact Hp]. intros x Hx. simpl in Hx.
        apply elem_of_cons in Hx as [->|Hx]; auto.
    + destruct short; [|discriminate].
      destruct (List.find _ opts) as [a'|] eqn:Hf; [|discriminate].
      apply find_option_in in Hf.
      destruct e' as [|c' e''].
      * simplify_eq. split.
        -- intros x Hx. simpl in Hx. apply list_elem_of_singleton in Hx. by subst.
        -- by intros ? [= <-].
      * destruct (chain opts a' _ _) as [[l p]|] eqn:Hch; [|discriminate].
        simplify_eq. destruct (IH _ _ _ _ Hf Hch) as [Hl Hp].
        split; [|exact Hp]. intros x Hx. simpl in Hx.
        apply elem_of_cons in Hx as [->|Hx]; auto.
Qed.

Lemma token_plan_in opts a o explicit acts last :
  a ∈ opts -> token_plan opts a o explicit = inr (acts, last) ->
  (forall x, x ∈ List.map fst acts -> x ∈ opts) /\
  (forall a', last = Some a' -> a' ∈ opts).
Proof.
  intros Ha Hp. unfold token_plan in Hp.
  destruct explicit as [e|].
  - assert (Hstore : forall acts' last',
               @inr exn _ ([(a, Some e)], @None Argument) = inr (acts', last') ->
               (forall x, x ∈ List.map fst acts' -> x ∈ opts) /\
               (forall a', last' = Some a' -> a' ∈ opts)).
    { intros acts' last' [= <- <-]. split; [|done]. intros x Hx. simpl in Hx.
      apply list_elem_of_singleton in Hx. by subst. }
    destruct o as [|c1 [|c2 o']].
    + destruct (arg_action a); try discriminate. by apply Hstore.
    + destruct (arg_action a); try discriminate. by apply Hstore.
    + destruct (chain opts a _ e) as [r|] eqn:Hch; [|discriminate].
      injection Hp as ->. by eapply chain_in.
  - injection Hp as <- <-. split; [by intros x Hx; simpl in Hx; apply elem_of_nil in Hx|].
    by intros ? [= <-].
Qed.

Lemma token_actions_in opts tok a : a ∈ token_actions opts tok -> a ∈ opts.
Proof.
  unfold token_actions. intros Ha.
  destruct (classify opts tok) as [|a0 o e| |] eqn:Hc;
    try by apply elem_of_nil in Ha.
  apply classify_in in Hc.
  destruct (token_plan opts a0 o e) as [|[acts last]] eqn:Hp;
    [by apply elem_of_nil in Ha|].
  destruct (token_plan_in _ _ _ _ _ _ Hc Hp) as [Hacts Hlast].
  apply elem_of_app in Ha as [Ha|Ha]; [by apply Hacts|].
  destruct last as [a'|]; simpl in Ha; [|by apply elem_of_nil in Ha].
  apply list_elem_of_singleton in Ha as ->. by apply Hlast.
Qed.

(** An invariant of the attribute bag that every store of an occurring
    option preserves holds when the options of a token are acted on, and
    when the command line is consumed. *)
Lemma take_actions_inv (P : Namespace -> Prop) acts :
  forall ns seen r,
    (forall a v ns, a ∈ List.map fst acts -> can_store a v ->
                    P ns -> P (<[dest a := v]> ns)) ->
    P ns -> take_actions acts ns seen = inr r -> P r.1.
Proof.
  induction acts as [|[a arg] acts IH]; intros ns seen r Hstep HP Ht; simpl in Ht.
  - by simplify_eq.
  - assert (Hrest : forall a v ns, a ∈ List.map fst acts -> can_store a v ->
                                    P ns -> P (<[dest a := v]> ns)).
    { intros a0 v0 ns0 Ha0. apply Hstep. simpl. by right. }
    assert (Hhead : forall v, can_store a v -> P (<[dest a := v]> ns)).
    { intros v Hv. apply Hstep; [simpl; by left|exact Hv|exact HP]. }
    destruct (arg_action a) eqn:Hact; [| |discriminate].
    + destruct arg as [s|]; [|discriminate].
      destruct (get_value a s) as [|v] eqn:Hv; [discriminate|].
      eapply IH; [exact Hrest| |exact Ht]. apply Hhead. left. eauto.
    + eapply IH; [exact Hrest| |exact Ht]. apply Hhead. by right.
Qed.

Lemma consume_inv (P : Namespace -> Prop) opts argv0 :
  (forall tok a v ns,
      tok ∈ argv0 -> a ∈ token_actions opts tok -> can_store a v ->
      P ns -> P (<[dest a := v]> ns)) ->
  forall n argv ns seen extras r,
    (length argv <= n)%nat -> argv ⊆ argv0 -> P ns ->
    consume opts argv ns seen extras = inr r -> P r.1.1.
Proof.
  intros Hstep. induction n as [|n IH]; intros argv ns seen extras r Hlen Hsub HP Hc.
  - destruct argv; [|simpl in Hlen; lia]. simpl in Hc. by simplify_eq.
  - destruct argv as [|tok rest]; [simpl in Hc; by simplify_eq|].
    simpl in Hlen. cbn [consume] in Hc.
    assert (Htok : tok ∈ argv0) by (apply Hsub; left).
    assert (Hrest : rest ⊆ argv0) by (intros x Hx; apply Hsub; by right).
    destruct (String.eqb tok "--"); [by simplify_eq|].
    pose proof (Hstep tok) as Htokstep. unfold token_actions in Htokstep.
    destruct (classify opts tok) as [|a o e| |] eqn:Hcl; try discriminate.
    + eapply IH; [| |exact HP|exact Hc]; [lia|done].
    + destruct (token_plan opts a o e) as [|[acts last]] eqn:Hp; [discriminate|].
      assert (Hacts : forall l ns1 seen1,
                 List.map fst l = (List.map fst acts ++ option_list last)%list ->
                 take_actions l ns seen = inr (ns1, seen1) -> P ns1).
      { intros l ns1 seen1 Hl Ht.
        change ns1 with ((ns1, seen1).1).
        eapply (take_actions_inv P l); [|exact HP|exact Ht].
        intros a0 v0 ns0 Ha0. apply Htokstep; [exact Htok|by rewrite <- Hl]. }
      destruct last as [a'|].
      * destruct (arg_action a').
        -- destruct rest as [|s rest']; [discriminate|].
           destruct (is_argument_token opts s); [|discriminate].
           destruct (take_actions _ ns seen) as [|[ns1 seen1]] eqn:Ht; [discriminate|].
           eapply IH; [| | |exact Hc]; [simpl in Hlen; lia| |].
           ++ intros x Hx. apply Hrest. by right.
           ++ eapply Hacts; [|exact Ht]. by rewrite map_app.
        -- destruct (take_actions _ ns seen) as [|[ns1 seen1]] eqn:Ht; [discriminate|].
           eapply IH; [| | |exact Hc]; [lia|done|].
           eapply Hacts; [|exact Ht]. by rewrite map_app.
        -- destruct (take_actions _ ns seen) as [|[ns1 seen1]] eqn:Ht; [discriminate|].
           eapply IH; [| | |exact Hc]; [lia|done|].
           eapply Hacts; [|exact Ht]. by rewrite map_app.
      * destruct (take_actions _ ns seen) as [|[ns1 seen1]] eqn:Ht; [discriminate|].
        eapply IH; [| | |exact Hc]; [lia|done|].
        eapply Hacts; [|exact Ht]. simpl. by rewrite app_nil_r.
    + eapply IH; [| |exact HP|exact Hc]; [lia|done].
Qed.

Lemma convert_defaults_inv (P : Namespace -> Prop) opts seen :
  (forall a s v ns,
      a ∈ opts -> arg_action a = Store -> arg_default a = Some (PyStr s) ->
      convert (arg_type a) s = Some v -> ns !! dest a = Some (PyStr s) ->
      P ns -> P (<[dest a := v]> ns)) ->
  forall l acc ns',
    l ⊆ opts -> (forall ns, acc = inr ns -> P ns) ->
    foldl (fun acc a => convert_default seen a acc) acc l = inr ns' -> P ns'.
Proof.
  intros Hstep. induction l as [|a l IH]; intros acc ns' Hsub Hacc Hf; simpl in Hf.
  - by apply Hacc.
  - eapply IH; [| |exact Hf].
    + intros x Hx. apply Hsub. by right.
    + intros ns Hns. unfold convert_default in Hns.
      destruct acc as [|ns0]; [discriminate|]. specialize (Hacc ns0 eq_refl).
      repeat case_match; simplify_eq; try done.
      eapply Hstep; eauto; [apply Hsub; by left|].
      by eapply bool_decide_eq_true_1.
Qed.

Lemma parse_args_inv (P : Namespace -> Prop) opts argv :
  P (initial_namespace opts) ->
  (forall tok a v ns,
      tok ∈ argv -> a ∈ token_actions opts tok -> can_store a v ->
      P ns -> P (<[dest a := v]> ns)) ->
  (forall a s v ns,
      a ∈ opts -> arg_action a = Store -> arg_default a = Some (PyStr s) ->
      convert (arg_type a) s = Some v -> ns !! dest a = Some (PyStr s) ->
      P ns -> P (<[dest a := v]> ns)) ->
  forall p, parse_args opts argv = inr p -> P p.
Proof.
  intros Hinit Hstep Hdef p. unfold parse_args.
  destruct (existsb _ _); [discriminate|].
  destruct (consume _ _ _ _ _) as [|[[ns seen] extras]] eqn:Hc; [discriminate|].
  destruct (foldl _ _ _) as [|ns'] eqn:Hf; [discriminate|].
  destruct extras; [discriminate|]. intros [= <-].
  eapply (convert_defaults_inv P opts seen Hdef opts (inr ns)); [done| |exact Hf].
  intros ? [= <-].
  change ns with ((ns, seen, false).1.1).
  eapply (consume_inv P opts argv Hstep); [reflexivity|done|exact Hinit|exact Hc].
Qed.

Lemma initial_namespace_app l1 l2 k v :
  initial_namespace l1 !! k = Some v ->
  initial_namespace (l1 ++ l2)%list !! k = Some v.
Proof.
  unfold initial_namespace. rewrite foldr_app.
  induction l1 as [|a l1 IH]; simpl; [by rewrite lookup_empty|].
  destruct (arg_action a); try exact IH.
  all: destruct (decide (dest a = k)) as [->|Hne];
    [by rewrite !lookup_insert_eq | rewrite !lookup_insert_ne by done; exact IH].
Qed.

(** ** Frames *)

Section Frame.
Variable R : World -> World -> Prop.
Context {R_pre : PreOrder R}.

Lemma framed_ret {A} (a : A) : framed R (ret a).
Proof. intros w. simpl. reflexivity. Qed.

Lemma framed_raise {A} e : framed R (@raise _ _ A e).
Proof. intros w. simpl. reflexivity. Qed.

Lemma framed_lift {A} (r : exn + A) : framed R (lift r).
Proof. destruct r; [apply framed_raise | apply framed_ret]. Qed.

Lemma framed_get : framed R get.
Proof. intros w. simpl. reflexivity. Qed.

Lemma framed_bind {A B} (m : M A) (k : A -> M B) :
  framed R m -> (forall a, framed R (k a)) -> framed R (bind m k).
Proof.
  intros Hm Hk w. unfold bind. specialize (Hm w).
  destruct (m w) as [a w1|e w1]; simpl in *; [|assumption].
  etransitivity; [eassumption | apply Hk].
Qed.

Lemma framed_name_lookup n : framed R (name_lookup n).
Proof. intros w. unfold name_lookup. destruct (globals w !! n); simpl; reflexivity. Qed.

Lemma framed_getattr k : framed R (getattr k).
Proof. intros w. unfold getattr. destruct (params w !! k); simpl; reflexivity. Qed.

Lemma framed_deref_kmeans r meth : framed R (deref_kmeans r meth).
Proof.
  intros w. unfold deref_kmeans.
  destruct (heap w !! r) as [[]|]; simpl; reflexivity.
Qed.

Lemma framed_deref_forest r meth : framed R (deref_forest r meth).
Proof.
  intros w. unfold deref_forest.
  destruct (heap w !! r) as [[]|]; simpl; reflexivity.
Qed.

Lemma framed_name_object n : framed R (name_object n).
Proof.
  apply framed_bind; [apply framed_name_lookup|].
  intros []; first [apply framed_ret | apply framed_raise].
Qed.

Lemma framed_modify f : (forall w, R w (f w)) -> framed R (modify f).
Proof. intros Hf w. apply Hf. Qed.

Lemma framed_timed_calls {A} (func : M A) n :
  framed R default_timer -> framed R func -> framed R (timed_calls n func).
Proof.
  intros Ht Hf. induction n as [|n IH]; simpl;
    repeat (apply framed_bind; [assumption | intros ?]);
    apply framed_ret.
Qed.

Lemma framed_measure_function_time {A} (func : M A) :
  framed R default_timer -> framed R func ->
  framed R (measure_function_time func).
Proof.
  intros Ht Hf. unfold measure_function_time.
  apply framed_bind; [apply framed_get | intros w0].
  apply framed_bind; [by apply framed_timed_calls | intros ?; apply framed_ret].
Qed.
End Frame.

#[local] Instance params_agree_pre ks : PreOrder (params_agree ks).
Proof.
  split; [intros w k _; reflexivity|].
  intros w1 w2 w3 H12 H23 k Hk. rewrite (H12 k Hk). apply (H23 k Hk).
Qed.

#[local] Instance params_kept_without_file_pre : PreOrder params_kept_without_file.
Proof.
  split; [intros w _; reflexivity|].
  intros w1 w2 w3 H12 H23 Hf. specialize (H12 Hf).
  rewrite <- H12. apply H23. rewrite H12. exact Hf.
Qed.

#[local] Instance quiet_without_pre n : PreOrder (quiet_without n).
Proof.
  split; [intros w Hn; auto|].
  intros w1 w2 w3 H12 H23 Hn.
  destruct (H12 Hn) as [Hn2 Hr2]. destruct (H23 Hn2) as [Hn3 Hr3].
  split; [exact Hn3 | congruence].
Qed.

#[local] Instance heap_grows_pre : PreOrder heap_grows.
Proof.
  split; [intros w; split; auto|].
  intros w1 w2 w3 [H12 P12] [H23 P23]. split; [|congruence].
  intros r e Hr. apply H23, H12, Hr.
Qed.

#[local] Instance reports_kept_pre : PreOrder reports_kept.
Proof.
  split; [intros w; reflexivity|].
  intros w1 w2 w3 H12 H23. unfold reports_kept in *. congruence.
Qed.

#[local] Instance inertia_kept_pre r : PreOrder (inertia_kept r).
Proof.
  split; [intros w k Hk; eauto|].
  intros w1 w2 w3 H12 H23 k Hk.
  destruct (H12 k Hk) as (k2 & Hk2 & Hi2).
  destruct (H23 k2 Hk2) as (k3 & Hk3 & Hi3).
  exists k3. split; [exact Hk3 | congruence].
Qed.

(** Statements that touch neither [params], nor the names, nor the
    reports, nor the heap are framed by each of these relations. *)
Ltac frame_field :=
  intros w;
  unfold default_timer, random_seed, random_randint, bench_load_data,
    alloc, store, emit, setattr, bind_name, modify;
  repeat case_match; simpl;
  unfold params_agree, agree_except, params_kept_without_file,
    quiet_without, heap_grows, inertia_kept, reports_kept; simpl; eauto.

Lemma framed_setattr ks k v : k ∈ ks -> framed (params_agree ks) (setattr k v).
Proof.
  intros Hk. frame_field. intros k' Hk'.
  rewrite lookup_insert_ne; [reflexivity | congruence].
Qed.

Lemma framed_bind_name n n' b : n' <> n -> framed (quiet_without n) (bind_name n' b).
Proof. intros Hn. frame_field. intros Hu. by rewrite lookup_insert_ne. Qed.

Lemma fresh_unused (h : gmap nat estimator) : h !! fresh (dom h) = None.
Proof. apply not_elem_of_dom, is_fresh. Qed.

Lemma framed_alloc e : framed heap_grows (alloc e).
Proof.
  frame_field. split; [|reflexivity].
  intros r e' Hr. rewrite lookup_insert_ne; [exact Hr|].
  intros <-. by rewrite fresh_unused in Hr.
Qed.

(** Decomposition of a composite statement into its primitive ones. *)
Ltac frame_step :=
  first
    [ apply framed_ret | apply framed_raise | apply framed_lift
    | apply framed_get | apply framed_name_lookup | apply framed_getattr
    | apply framed_name_object
    | apply framed_deref_kmeans | apply framed_deref_forest
    | apply framed_measure_function_time | apply framed_timed_calls
    | apply framed_setattr; set_solver
    | apply framed_bind_name; discriminate
    | apply framed_alloc
    | match goal with
      | |- PreOrder _ => typeclasses eauto
      | |- forall _, framed _ _ => intros ?
      | |- framed _ (bind _ _) => apply framed_bind
      | |- framed _ (if ?b then _ else _) => destruct b
      | |- framed _ (match ?x with _ => _ end) => destruct x
      end
    | solve [frame_field] ].

Ltac frame := repeat frame_step.

(** ** What the statements after [parse_args] do to [params] *)

Lemma framed_params_kmeans_fit ks X_init X :
  framed (params_agree ks) (kmeans_fit X_init X).
Proof. unfold kmeans_fit, kmeans_kwargs, KMeans_fit_method. frame. Qed.

Lemma framed_params_kmeans_measure ks X_init X_train X_test :
  framed (params_agree ks) (kmeans_measure X_init X_train X_test).
Proof.
  unfold kmeans_measure, inertia_. frame.
  - apply framed_params_kmeans_fit.
  - unfold KMeans_predict_method. frame.
Qed.

Lemma framed_params_initial_centroids X_train :
  framed (params_agree ["n_clusters"]) (initial_centroids X_train).
Proof. unfold initial_centroids. frame. Qed.

Lemma framed_params_fit ks X y : framed (params_agree ks) (fit X y).
Proof.
  unfold fit, forest_kwargs, RandomForestClassifier_fit_method. frame.
Qed.

Lemma framed_params_predict ks X : framed (params_agree ks) (predict X).
Proof. unfold predict, RandomForestClassifier_predict_method. frame. Qed.

Lemma framed_params_df_clsf_measure ks X_train X_test y_train y_test :
  framed (params_agree ks) (df_clsf_measure X_train X_test y_train y_test).
Proof.
  unfold df_clsf_measure. frame;
    first [apply framed_params_fit | apply framed_params_predict].
Qed.

Lemma framed_params_translate y_train :
  framed (params_agree ["criterion"; "split_algorithm"; "n_classes"])
    (translate_params y_train).
Proof. unfold translate_params. frame. Qed.

Lemma run_name_lookup n b w :
  globals w !! n = Some b -> name_lookup n w = Ok b w.
Proof. unfold name_lookup. intros ->. reflexivity. Qed.

Lemma run_getattr k v w :
  params w !! k = Some v -> getattr k w = Ok v w.
Proof. unfold getattr. intros ->. reflexivity. Qed.

(** Running a statement whose first step is a lookup of an imported
    name. *)
Ltac run_import :=
  erewrite (bind_run (name_lookup _)) by (apply run_name_lookup; vm_compute; reflexivity).

(** The command-line parsers [bench.parse_args] runs for the two
    scripts. *)
Lemma kmeans_setup_run argv w :
  kmeans_setup argv w =
  match parse_args (bench_options KMeansCLI.parser (Some "cuml")
                      (Some ["fit"; "predict"])) argv with
  | inl e => Raise e (set_globals kmeans_imports w)
  | inr p => bench_load_data None (set_params p (set_globals kmeans_imports w))
  end.
Proof.
  unfold kmeans_setup.
  rewrite (bind_run _ _ _ tt (set_globals kmeans_imports w)) by reflexivity.
  do 2 run_import.
  unfold bench_parse_args.
  destruct (parse_args _ argv) as [e|p]; [reflexivity|].
  simpl lift. rewrite (bind_run (ret p) _ _ p (set_globals kmeans_imports w)) by reflexivity.
  rewrite (bind_run _ _ _ tt (set_params p (set_globals kmeans_imports w))) by reflexivity.
  run_import. reflexivity.
Qed.

Lemma df_clsf_setup_run argv w :
  df_clsf_setup argv w =
  match parse_args (bench_options (ForestCLI.parser float_or_int) None None)
          argv with
  | inl e => Raise e (set_globals df_clsf_imports w)
  | inr p => bench_load_data (Some true) (set_params p (set_globals df_clsf_imports w))
  end.
Proof.
  unfold df_clsf_setup.
  rewrite (bind_run _ _ _ tt (set_globals df_clsf_imports w)) by reflexivity.
  do 2 run_import.
  unfold bench_parse_args.
  destruct (parse_args _ argv) as [e|p]; [reflexivity|].
  simpl lift. rewrite (bind_run (ret p) _ _ p (set_globals df_clsf_imports w)) by reflexivity.
  rewrite (bind_run _ _ _ tt (set_params p (set_globals df_clsf_imports w))) by reflexivity.
  run_import. reflexivity.
Qed.

Lemma bench_load_data_world il w :
  exists s, world_of (bench_load_data il w) = set_rng s w.
Proof.
  unfold bench_load_data.
  destruct (load_data _ _ _) as [e|[d s]]; simpl.
  - exists (rng w). by destruct w.
  - by exists s.
Qed.

Lemma framed_world {A B} R `{!PreOrder R} (m : M A) (k : A -> M B) w :
  (forall a, framed R (k a)) ->
  R (world_of (m w)) (world_of (bind m k w)).
Proof.
  intros Hk. unfold bind. destruct (m w) as [a w1|e w1]; simpl.
  - apply Hk.
  - reflexivity.
Qed.

Lemma framed_params_kmeans_run ks X_train X_test :
  "n_clusters" ∈ ks -> framed (params_agree ks) (kmeans_run X_train X_test).
Proof.
  intros Hk. unfold kmeans_run, kmeans_report. frame.
  - unfold initial_centroids. frame.
  - apply framed_params_kmeans_measure.
Qed.

Lemma framed_kept_kmeans_run X_train X_test :
  framed params_kept_without_file (kmeans_run X_train X_test).
Proof.
  apply framed_bind; [typeclasses eauto| |].
  - assert (Hfr : framed params_kept_without_file
                (bind (name_lookup "np") (fun _ =>
                 bind (getattr "seed") (fun seed =>
                 bind (random_seed seed) (fun _ =>
                 bind (getattr "n_clusters") (fun size =>
                 bind (random_randint 0 (shape0 X_train) size) (fun centroids_idx =>
                 if has_iloc X_train then lift (iloc_values X_train centroids_idx)
                 else lift (getitem X_train centroids_idx)))))))) by frame.
    intros w. unfold initial_centroids, bind at 1, getattr at 1.
    destruct (params w !! "filei") as [v|] eqn:Hv; [|simpl; by intros ?].
    case_bool_decide as Hn.
    + intros Hf. rewrite Hv in Hf. congruence.
    + apply Hfr.
  - intros X_init. unfold kmeans_report, kmeans_measure, inertia_,
      KMeans_predict_method. frame.
    unfold kmeans_fit, kmeans_kwargs, KMeans_fit_method. frame.
Qed.

Lemma framed_params_df_clsf_run X_train X_test y_train y_test :
  framed (params_agree ["criterion"; "split_algorithm"; "n_classes"])
    (df_clsf_run X_train X_test y_train y_test).
Proof.
  unfold df_clsf_run, df_clsf_report, translate_params. frame.
  apply framed_params_df_clsf_measure.
Qed.

(** ** Assignments to [params] after parsing *)

(** C4, as amended.  Once [parse_args] has returned the configuration
    [p], the K-means script assigns at most [params.n_clusters] (and
    nothing at all when no centroid file is configured), and the
    classification script assigns at most [params.criterion],
    [params.split_algorithm] and [params.n_classes]; every other
    attribute keeps the parsed value until the script ends, whether it
    ends normally or with an exception. *)
Theorem params_assigned_after_parse (argv : list string) (w : World) :
  (forall p,
      parse_args (bench_options KMeansCLI.parser (Some "cuml")
                    (Some ["fit"; "predict"])) argv = inr p ->
      agree_except ["n_clusters"] p (params (world_of (kmeans_script argv w))) /\
      (p !! "filei" = Some PyNone ->
       params (world_of (kmeans_script argv w)) = p)) /\
  (forall p,
      parse_args (bench_options (ForestCLI.parser float_or_int) None None) argv
      = inr p ->
      agree_except ["criterion"; "split_algorithm"; "n_classes"] p
        (params (world_of (df_clsf_script argv w)))).
Proof.
  split; intros p Hp.
  - assert (Hs : params (world_of (kmeans_setup argv w)) = p).
    { rewrite kmeans_setup_run, Hp.
      destruct (bench_load_data_world None
                  (set_params p (set_globals kmeans_imports w))) as [s ->].
      reflexivity. }
    unfold kmeans_script. split.
    + rewrite <- Hs at 1.
      apply (framed_world (params_agree ["n_clusters"])).
      intros [[[X_train X_test] ?] ?].
      apply framed_params_kmeans_run. set_solver.
    + intros Hf. etransitivity; [|exact Hs].
      refine (framed_world params_kept_without_file (kmeans_setup argv) _ w _ _).
      * intros [[[X_train X_test] ?] ?]. apply framed_kept_kmeans_run.
      * by rewrite Hs.
  - assert (Hs : params (world_of (df_clsf_setup argv w)) = p).
    { rewrite df_clsf_setup_run, Hp.
      destruct (bench_load_data_world (Some true)
                  (set_params p (set_globals df_clsf_imports w))) as [s ->].
      reflexivity. }
    unfold df_clsf_script. rewrite <- Hs at 1.
    apply (framed_world (params_agree ["criterion"; "split_algorithm"; "n_classes"])).
    intros [[[X_train X_test] y_train] y_test].
    apply framed_params_df_clsf_run.
Qed.

Lemma find_app_l {A} (f : A -> bool) l1 l2 a :
  List.find f l1 = Some a -> List.find f (l1 ++ l2)%list = Some a.
Proof.
  induction l1 as [|x l1 IH]; simpl; [discriminate|].
  destruct (f x); [done | exact IH].
Qed.

Lemma classify_exact l1 l2 tok a :
  String.prefix "-" tok = true ->
  List.find (has_option_string tok) l1 = Some a ->
  classify (l1 ++ l2)%list tok = Optional a tok None.
Proof.
  intros Hp Hf. unfold classify. rewrite Hp. simpl negb.
  by rewrite (find_app_l _ _ _ _ Hf).
Qed.

(** An occurrence of a [store] option takes the next token as its
    argument. *)
Lemma consume_store opts tok a s rest ns seen extras :
  String.eqb tok "--" = false ->
  classify opts tok = Optional a tok None ->
  arg_action a = Store ->
  consume opts (tok :: s :: rest) ns seen extras =
  if is_argument_token opts s then
    match get_value a s with
    | inl e => inl e
    | inr v => consume opts rest (<[dest a := v]> ns) (option_strings a :: seen) extras
    end
  else inl (SystemExit 2).
Proof.
  intros Hd Hc Ha. cbn [consume]. rewrite Hd, Hc. cbn [token_plan]. rewrite Ha.
  destruct (is_argument_token opts s); [|reflexivity].
  cbn [app take_actions]. rewrite Ha. by destruct (get_value a s).
Qed.

(** ** Values the parser can leave in a destination *)

Lemma some_dest_elem k l : some_dest k l <-> exists a, a ∈ l /\ dest a = k.
Proof.
  induction l as [|a l IH]; simpl.
  - split; [done|]. intros (a & Ha & _). by apply elem_of_nil in Ha.
  - rewrite IH. split.
    + intros [Hd|(a' & Ha' & Hd)]; [exists a; split; [by left|done]|].
      exists a'. split; [by right|done].
    + intros (a' & [->|Ha']%elem_of_cons & Hd); [by left|right; eauto].
Qed.

Lemma selects_actions opts k tok a :
  a ∈ token_actions opts tok -> dest a = k -> selects opts k tok.
Proof. intros Ha Hd. apply some_dest_elem. eauto. Qed.

Lemma parse_args_value (Q : pyval -> Prop) opts argv k :
  (exists v, initial_namespace opts !! k = Some v /\ Q v) ->
  (forall a v, a ∈ opts -> dest a = k -> can_store a v -> Q v) ->
  (forall a s v, a ∈ opts -> dest a = k -> arg_action a = Store ->
                 arg_default a = Some (PyStr s) ->
                 convert (arg_type a) s = Some v -> Q v) ->
  forall p, parse_args opts argv = inr p -> exists v, p !! k = Some v /\ Q v.
Proof.
  intros Hinit Hw Hdq.
  assert (Hstep : forall a v (ns : Namespace),
             (dest a = k -> Q v) ->
             (exists v, ns !! k = Some v /\ Q v) ->
             exists v', <[dest a := v]> ns !! k = Some v' /\ Q v').
  { intros a v ns Hv Hns. destruct (decide (dest a = k)) as [Hd|Hd].
    - exists v. rewrite <- Hd at 1. rewrite lookup_insert_eq. eauto.
    - by rewrite lookup_insert_ne. }
  apply (parse_args_inv (fun ns => exists v, ns !! k = Some v /\ Q v)); [done| |].
  - intros tok a v ns _ Hc Hv Hns. apply Hstep; eauto using token_actions_in.
  - intros a s v ns Ha Hact Hd Hv _ Hns. apply Hstep; eauto.
Qed.

Lemma parse_args_default opts argv k v0 :
  initial_namespace opts !! k = Some v0 ->
  Forall (fun tok => ~ selects opts k tok) argv ->
  (forall a s, a ∈ opts -> dest a = k -> arg_action a = Store ->
               arg_default a <> Some (PyStr s)) ->
  forall p, parse_args opts argv = inr p -> p !! k = Some v0.
Proof.
  intros Hinit Hsel Hdef.
  apply (parse_args_inv (fun ns => ns !! k = Some v0)); [done| |].
  - intros tok a v ns Htok Hc _ Hns.
    rewrite Forall_forall in Hsel. specialize (Hsel tok Htok).
    rewrite lookup_insert_ne; [done|].
    intros Hd. apply Hsel. by eapply selects_actions.
  - intros a s v ns Ha Hact Hd _ _ Hns.
    destruct (decide (dest a = k)) as [Hk|Hk].
    + by destruct (Hdef a s Ha Hk Hact).
    + by rewrite lookup_insert_ne.
Qed.

(** A [store] option given first, under one of its option strings and
    followed by its argument, leaves that argument's value in its
    destination when no later token is read as an option with the same
    destination. *)
Lemma parse_args_first opts tok a s rest p :
  String.eqb tok "--" = false ->
  classify opts tok = Optional a tok None ->
  arg_action a = Store ->
  Forall (fun t => ~ selects opts (dest a) t) rest ->
  (forall a' s', a' ∈ opts -> dest a' = dest a -> arg_action a' = Store ->
                 arg_default a' = Some (PyStr s') -> arg_type a' = type_str) ->
  parse_args opts (tok :: s :: rest) = inr p ->
  exists v, get_value a s = inr v /\ p !! dest a = Some v.
Proof.
  intros Hdd Hcl Hact Hsel Hty Hp. unfold parse_args in Hp.
  destruct (existsb _ _); [discriminate|].
  rewrite (consume_store _ _ a _ _ _ _ _ Hdd Hcl Hact) in Hp.
  destruct (is_argument_token opts s); [|discriminate].
  destruct (get_value a s) as [|v] eqn:Hv; [discriminate|].
  exists v. split; [reflexivity|].
  destruct (consume _ rest _ _ _) as [|[[ns seen] extras]] eqn:Hc; [discriminate|].
  destruct (foldl _ _ _) as [|ns'] eqn:Hf; [discriminate|].
  destruct extras; [discriminate|]. injection Hp as <-.
  eapply (convert_defaults_inv (fun ns => ns !! dest a = Some v));
    [|reflexivity| |exact Hf].
  - intros a' s' v' ns0 Ha' Hact' Hdef' Hv' Hcur Hns.
    destruct (decide (dest a' = dest a)) as [Hd|Hd];
      [|by rewrite lookup_insert_ne].
    rewrite (Hty a' s' Ha' Hd Hact' Hdef') in Hv'. injection Hv' as <-.
    rewrite Hd in Hcur |- *. by rewrite lookup_insert_eq, <- Hcur.
  - intros ? [= <-].
    change ns with ((ns, seen, false).1.1).
    eapply (consume_inv (fun ns => ns !! dest a = Some v) _ rest);
      [|reflexivity|done| |exact Hc].
    + intros t a0 v0 ns0 Ht Ha0 _ Hns.
      rewrite Forall_forall in Hsel. specialize (Hsel t Ht).
      rewrite lookup_insert_ne; [done|].
      intros Hd. apply Hsel. by eapply selects_actions.
    + apply lookup_insert_eq.
Qed.

(** The classification parser, option by option. *)
Lemma forest_parser_in a :
  a ∈ ForestCLI.parser float_or_int ->
  arg_action a = Help \/ a ∈ ForestCLI.declared float_or_int.
Proof.
  unfold ForestCLI.parser. rewrite foldl_add_argument.
  intros [Hh|Hd]%elem_of_app; [left|by right].
  apply list_elem_of_In in Hh. destruct Hh as [<-|[]]. reflexivity.
Qed.

Lemma forest_declared_dest a k :
  a ∈ ForestCLI.declared float_or_int -> dest a = k ->
  List.nth_error (ForestCLI.declared float_or_int)
    match k with
    | "criterion" => 0 | "split_algorithm" => 1 | "num_trees" => 2
    | "max_features" => 3 | "max_depth" => 4 | "min_samples_split" => 5
    | "max_leaf_nodes" => 6 | "min_impurity_decrease" => 7 | _ => 8
    end%nat = Some a.
Proof.
  intros Ha%list_elem_of_In <-. unfold ForestCLI.declared in Ha |- *.
  simpl In in Ha.
  repeat (destruct Ha as [<-|Ha]; [reflexivity|]). destruct Ha.
Qed.




Lemma can_store_not_help a v : can_store a v -> arg_action a <> Help.
Proof. intros [[Ha _]|[Ha _]]; congruence. Qed.


Lemma forest_kwargs_Ok w args w' :
  forest_kwargs w = Ok args w' ->
  w' = w /\
  params w !! "criterion" = Some (split_criterion args) /\
  params w !! "split_algorithm" = Some (split_algo args) /\
  params w !! "num_trees" = Some (n_estimators args).
Proof. unfold forest_kwargs. intros Hr. inv_run. simpl. auto. Qed.

(** ** What one call of [fit] does *)

Lemma fit_Ok X y w r w' :
  fit X y w = Ok r w' ->
  exists args f f',
    forest_kwargs w = Ok args w /\
    RandomForestClassifier_init args = inr f /\
    RandomForestClassifier_fit f X y = inr f' /\
    r = fresh (dom (heap w)) /\
    w' = set_heap (<[r := EForest f']> (<[r := EForest f]> (heap w)))
           (set_globals (<["clf" := Object r]> (globals w)) w).
Proof.
  unfold fit, RandomForestClassifier_fit_method. intros Hr. inv_run.
  match goal with
  | H : forest_kwargs _ = Ok _ _ |- _ =>
      pose proof (forest_kwargs_Ok _ _ _ H) as [-> _]; rename H into Hkw
  end.
  repeat match goal with
    | H : _ !! _ = Some _ |- _ =>
        progress cbn [heap globals set_heap set_globals] in H
    | H : <[?k:=_]> _ !! ?k = Some _ |- _ =>
        rewrite lookup_insert_eq in H; simplify_eq
    end.
  eexists _, _, _. repeat split; eauto.
Qed.

Lemma bench_load_data_Ok il w d w1 :
  bench_load_data il w = Ok d w1 -> exists s, w1 = set_rng s w.
Proof.
  unfold bench_load_data. destruct (load_data _ _ _) as [e|[d' s]]; [discriminate|].
  intros [= <- <-]. eauto.
Qed.

Lemma df_clsf_setup_Ok argv w d w1 :
  df_clsf_setup argv w = Ok d w1 ->
  exists p s,
    parse_args (bench_options (ForestCLI.parser float_or_int) None None) argv
    = inr p /\
    w1 = set_rng s (set_params p (set_globals df_clsf_imports w)).
Proof.
  rewrite df_clsf_setup_run.
  destruct (parse_args _ _) as [e|p]; [discriminate|].
  intros [s ->]%bench_load_data_Ok. eauto.
Qed.

Lemma kmeans_setup_Ok argv w d w1 :
  kmeans_setup argv w = Ok d w1 ->
  exists p s,
    parse_args (bench_options KMeansCLI.parser (Some "cuml")
                  (Some ["fit"; "predict"])) argv = inr p /\
    w1 = set_rng s (set_params p (set_globals kmeans_imports w)).
Proof.
  rewrite kmeans_setup_run.
  destruct (parse_args _ _) as [e|p]; [discriminate|].
  intros [s ->]%bench_load_data_Ok. eauto.
Qed.

(** ** Declared defaults *)

(** C6, as amended.  Every option the classification script declares
    states a default.  Of the options the K-means script declares,
    [--tol], [--maxiter] and [--samples-per-batch] state one, while
    [--filei] and [--n-clusters] are declared without one: when no token
    of the command line is read as one of these two options, the parsed
    configuration holds [None] for it. *)
Theorem stated_defaults (argv : list string) :
  Forall (fun a => is_Some (arg_default a)) (ForestCLI.declared float_or_int) /\
  List.filter (fun a => bool_decide (arg_default a = None)) KMeansCLI.declared
  = [KMeansCLI.filei; KMeansCLI.n_clusters] /\
  (forall k p,
      k = "filei" \/ k = "n_clusters" ->
      Forall (fun a => dest a <> k)
        (shared_arguments (Some "cuml") (Some ["fit"; "predict"])) ->
      Forall (fun tok =>
                ~ selects (bench_options KMeansCLI.parser (Some "cuml")
                             (Some ["fit"; "predict"])) k tok) argv ->
      parse_args (bench_options KMeansCLI.parser (Some "cuml")
                    (Some ["fit"; "predict"])) argv = inr p ->
      p !! k = Some PyNone).
Proof.
  split; [|split].
  - unfold ForestCLI.declared. repeat constructor; simpl; eauto.
  - reflexivity.
  - intros k p Hk Hsh Hsel.
    apply parse_args_default; [|exact Hsel|].
    + rewrite bench_options_app. apply initial_namespace_app.
      destruct Hk as [-> | ->]; vm_compute; reflexivity.
    + intros a s Ha Hd Hact. rewrite bench_options_app in Ha.
      apply elem_of_app in Ha as [Ha|Ha].
      * apply list_elem_of_In in Ha. vm_compute in Ha.
        destruct Hk as [-> | ->];
          repeat (destruct Ha as [<-|Ha];
                  [first [discriminate | vm_compute in Hd; discriminate]|]);
          destruct Ha.
      * rewrite Forall_forall in Hsh. by destruct (Hsh a Ha).
Qed.

(** ** The report of the classification script *)

Lemma framed_quiet_fit X y : framed (quiet_without "print_output") (fit X y).
Proof.
  unfold fit, forest_kwargs, RandomForestClassifier_fit_method. frame.
Qed.

Lemma framed_quiet_predict X : framed (quiet_without "print_output") (predict X).
Proof. unfold predict, RandomForestClassifier_predict_method. frame. Qed.

Lemma framed_quiet_df_clsf_measure X_train X_test y_train y_test :
  framed (quiet_without "print_output")
    (df_clsf_measure X_train X_test y_train y_test).
Proof.
  unfold df_clsf_measure. frame;
    first [apply framed_quiet_fit | apply framed_quiet_predict].
Qed.

Lemma framed_quiet_translate n y : framed (quiet_without n) (translate_params y).
Proof. unfold translate_params. frame. Qed.

Lemma df_clsf_report_raises X_train X_test m w :
  globals w !! "print_output" = None ->
  df_clsf_report X_train X_test m w = Raise (NameError "print_output") w.
Proof.
  intros Hn. unfold df_clsf_report. apply bind_raise.
  unfold name_lookup. by rewrite Hn.
Qed.

Lemma framed_quiet_df_clsf_run X_train X_test y_train y_test :
  framed (quiet_without "print_output")
    (df_clsf_run X_train X_test y_train y_test).
Proof.
  unfold df_clsf_run, translate_params. frame.
  - apply framed_quiet_df_clsf_measure.
  - intros w Hn. rewrite (df_clsf_report_raises X_train X_test _ w Hn). auto.
Qed.

Lemma framed_Ok_rel {A} R (m : M A) w a w' : framed R m -> m w = Ok a w' -> R w w'.
Proof. intros Hf Hm. specialize (Hf w). by rewrite Hm in Hf. Qed.

Lemma quiet_step {A} n (m : M A) w a w' :
  framed (quiet_without n) m -> m w = Ok a w' ->
  globals w !! n = None -> globals w' !! n = None.
Proof.
  intros Hf Hm Hn. specialize (Hf w). rewrite Hm in Hf. by destruct (Hf Hn).
Qed.

Lemma df_clsf_run_not_Ok X_train X_test y_train y_test w u w' :
  globals w !! "print_output" = None ->
  df_clsf_run X_train X_test y_train y_test w <> Ok u w'.
Proof.
  intros Hn Hr. unfold df_clsf_run in Hr.
  apply bind_Ok in Hr as (? & w1 & H1 & Hr).
  apply bind_Ok in Hr as (? & w2 & H2 & Hr).
  apply bind_Ok in Hr as (? & w3 & H3 & Hr).
  apply bind_Ok in Hr as (m & w4 & H4 & Hr).
  apply (quiet_step "print_output" _ _ _ _ (framed_quiet_translate _ _) H1) in Hn.
  apply (quiet_step "print_output" _ _ _ _
           (framed_bind_name "print_output" "fit" _ ltac:(discriminate)) H2) in Hn.
  apply (quiet_step "print_output" _ _ _ _
           (framed_bind_name "print_output" "predict" _ ltac:(discriminate)) H3) in Hn.
  apply (quiet_step "print_output" _ _ _ _
           (framed_quiet_df_clsf_measure _ _ _ _) H4) in Hn.
  by rewrite (df_clsf_report_raises X_train X_test m w4 Hn) in Hr.
Qed.

Lemma df_clsf_measure_Ok X_train X_test y_train y_test w m w' :
  df_clsf_measure X_train X_test y_train y_test w = Ok m w' ->
  exists fitted wa y_pred wb predicted,
    measure_function_time (fit X_train y_train) w = Ok fitted wa /\
    predict X_train wa = Ok y_pred wb /\
    measure_function_time (predict X_test) wb = Ok predicted w' /\
    rf_train_acc m = (100 * accuracy_score y_pred y_train)%Q /\
    rf_test_acc m = (100 * accuracy_score (snd predicted) y_test)%Q.
Proof.
  unfold df_clsf_measure. intros Hr. inv_run. simpl.
  eexists _, _, _, _, _. repeat split; eauto.
Qed.

(** C7.  In the classification script the two accuracies are computed as
    the claim says: the training accuracy is 100 times the fraction of
    positions where [predict(X_train)] equals [y_train], the test accuracy
    100 times the fraction where the timed [predict(X_test)] equals
    [y_test].  They are never emitted: the script calls the bare name
    [print_output], which no import binds, so on every command line and
    from every state the script ends with an exception, no report is
    added, and once the measurement has succeeded the exception is
    [NameError: print_output]. *)
Theorem df_clsf_never_reports (argv : list string) (w : World) :
  (forall u w', df_clsf_script argv w <> Ok u w') /\
  reports (world_of (df_clsf_script argv w)) = reports w /\
  (forall X_train X_test y_train y_test w1 m w2,
      df_clsf_measure X_train X_test y_train y_test w1 = Ok m w2 ->
      exists fitted wa y_pred wb predicted,
        measure_function_time (fit X_train y_train) w1 = Ok fitted wa /\
        predict X_train wa = Ok y_pred wb /\
        measure_function_time (predict X_test) wb = Ok predicted w2 /\
        rf_train_acc m = (100 * accuracy_score y_pred y_train)%Q /\
        rf_test_acc m = (100 * accuracy_score (snd predicted) y_test)%Q) /\
  (forall X_train X_test m w2,
      globals w2 !! "print_output" = None ->
      df_clsf_report X_train X_test m w2 = Raise (NameError "print_output") w2).
Proof.
  assert (Hs : forall d w1, df_clsf_setup argv w = Ok d w1 ->
                            globals w1 !! "print_output" = None).
  { intros d w1 (p & s & _ & ->)%df_clsf_setup_Ok. reflexivity. }
  split; [|split; [|split]].
  - intros u w' Hr. unfold df_clsf_script in Hr.
    apply bind_Ok in Hr as ([[[X_train X_test] y_train] y_test] & w1 & H1 & Hr).
    by apply df_clsf_run_not_Ok in Hr; [|eapply Hs].
  - unfold df_clsf_script, bind.
    destruct (df_clsf_setup argv w) as [[[[X_train X_test] y_train] y_test] w1|e w1]
      eqn:H1.
    + destruct (framed_quiet_df_clsf_run X_train X_test y_train y_test w1)
        as [_ ->]; [by eapply Hs|].
      apply df_clsf_setup_Ok in H1 as (p & s & _ & ->). reflexivity.
    + rewrite df_clsf_setup_run in H1.
      destruct (parse_args _ _) as [e'|p]; [by injection H1 as _ <-|].
      unfold bench_load_data in H1.
      destruct (load_data _ _ _) as [?|[? ?]]; [by injection H1 as _ <-|discriminate].
  - apply df_clsf_measure_Ok.
  - apply df_clsf_report_raises.
Qed.

(** ** [predict] and the global [clf] *)

(** C10.  In the classification script, in a state where the global name
    [clf] is unbound, [predict(X)] returns no prediction for any [X]; when
    the preceding statements of its body go through (the [cuml] module is
    imported, its version string has an integer second component, and
    [params.n_classes] exists if that component is at most 14) it raises
    [NameError: clf] and leaves the state as it was.  The name is unbound
    when the script reaches its first call of [fit], and a successful
    [fit] binds it to the estimator it constructed. *)
Theorem predict_before_fit (X : table) (w : World) :
  globals w !! "clf" = None ->
  (forall l w', predict X w <> Ok l w') /\
  (forall b minor,
      globals w !! "cuml" = Some b ->
      version_minor = inr minor ->
      ((minor <= 14)%Z -> is_Some (params w !! "n_classes")) ->
      predict X w = Raise (NameError "clf") w) /\
  (forall argv w0 d w1 y u w2,
      df_clsf_setup argv w0 = Ok d w1 ->
      bind (translate_params y) (fun _ =>
        bind (bind_name "fit" (Callable "fit")) (fun _ =>
          bind_name "predict" (Callable "predict"))) w1 = Ok u w2 ->
      globals w2 !! "clf" = None) /\
  (forall X' y r w',
      fit X' y w = Ok r w' -> globals w' !! "clf" = Some (Object r)).
Proof.
  intros Hclf. split; [|split; [|split]].
  - intros l w' Hr. unfold predict in Hr. inv_run.
    destruct (a0 <=? 14)%Z; inv_run; congruence.
  - intros b minor Hb Hv Hn.
    unfold predict, bind, name_lookup, name_object, lift, getattr.
    rewrite Hb, Hv. unfold ret at 1. cbv beta iota.
    destruct (minor <=? 14)%Z eqn:Hle.
    + destruct Hn as [v Hv']; [by apply Z.leb_le|].
      rewrite Hv'. unfold ret, bind, name_lookup. by rewrite Hclf.
    + unfold ret, bind, name_lookup. by rewrite Hclf.
  - intros argv w0 d w1 y u w2 (p & s & _ & ->)%df_clsf_setup_Ok Hr.
    apply bind_Ok in Hr as (? & wa & H1 & Hr).
    apply bind_Ok in Hr as (? & wb & H2 & H3).
    assert (Hn : globals (set_rng s (set_params p (set_globals df_clsf_imports w0)))
                 !! "clf" = None) by reflexivity.
    apply (quiet_step "clf" _ _ _ _ (framed_quiet_translate _ _) H1) in Hn.
    apply (quiet_step "clf" _ _ _ _
             (framed_bind_name "clf" "fit" _ ltac:(discriminate)) H2) in Hn.
    by apply (quiet_step "clf" _ _ _ _
                (framed_bind_name "clf" "predict" _ ltac:(discriminate)) H3) in Hn.
  - intros X' y r w' (args & f & f' & _ & _ & _ & _ & ->)%fit_Ok.
    simpl. by rewrite lookup_insert_eq.
Qed.

(** ** Initial centroids of the K-means script *)

Lemma row_at_in_range (rows : list row) i :
  (0 <= i < Z.of_nat (length rows))%Z ->
  exists r, row_at rows i = inr r /\ rows !! Z.to_nat i = Some r.
Proof.
  intros [Hlo Hhi]. unfold row_at.
  destruct (Z.ltb_spec i 0); [lia|].
  destruct (Z.leb_spec 0 i); [|lia].
  destruct (Z.ltb_spec i (Z.of_nat (length rows))); [|lia]. simpl.
  destruct (rows !! Z.to_nat i) as [r|] eqn:Hr; [eauto|].
  apply lookup_ge_None in Hr. lia.
Qed.

Lemma rows_at_in_range (rows : list row) idx :
  Forall (fun i => (0 <= i < Z.of_nat (length rows))%Z) idx ->
  exists rs,
    rows_at rows idx = inr rs /\
    Forall2 (fun i r => rows !! Z.to_nat i = Some r) idx rs.
Proof.
  induction 1 as [|i idx Hi _ (rs & Hrs & Hall)]; simpl.
  - exists []. split; [reflexivity | constructor].
  - destruct (row_at_in_range rows i Hi) as (r & -> & Hr). rewrite Hrs.
    exists (r :: rs). split; [reflexivity | by constructor].
Qed.

(** More indices than rows, all within the table: some index repeats. *)
Lemma indices_repeat (n : nat) (idx : list Z) :
  Forall (fun i => (0 <= i < Z.of_nat n)%Z) idx ->
  (n < length idx)%nat -> ~ NoDup idx.
Proof.
  intros Hall Hlen Hnd.
  assert (Hsub : idx ⊆ seqZ 0 (Z.of_nat n)).
  { intros i Hi. rewrite Forall_forall in Hall. apply elem_of_seqZ.
    specialize (Hall i Hi). lia. }
  pose proof (submseteq_length _ _ (NoDup_submseteq _ _ Hnd Hsub)) as Hle.
  rewrite length_seqZ in Hle. lia.
Qed.

(** C1.  In the K-means script, with [np] imported: when [params.filei]
    is not [None] the file is loaded, converted to [params.dtype], taken
    as the initial centroids, and [params.n_clusters] is set to its row
    count; otherwise the random state is seeded with [params.seed] and
    [randint(0, number of training rows, size=n_clusters)] is drawn from
    the seeded state: whenever that call returns [n_clusters] indices
    within the table, the initial centroids are the training rows at
    those indices, position by position, one per index, so an index drawn
    twice gives the same row twice, and asking for more centroids than
    there are rows necessarily repeats rows. *)
Theorem initial_centroids_choice (X_train : table) (w : World) (b : binding) :
  globals w !! "np" = Some b ->
  (forall path loaded dtype X_init,
      params w !! "filei" = Some path -> path <> PyNone ->
      np_load path = inr loaded ->
      params w !! "dtype" = Some dtype ->
      np_astype dtype loaded = inr X_init ->
      initial_centroids X_train w
      = Ok (Init2D X_init)
          (set_params (<["n_clusters" := PyInt (Z.of_nat (length X_init))]> (params w))
             w)) /\
  (forall seed k s0 idx s1,
      params w !! "filei" = Some PyNone ->
      params w !! "seed" = Some (PyInt seed) ->
      params w !! "n_clusters" = Some (PyInt k) ->
      np_random_seed_int seed = inr s0 ->
      np_random_randint s0 0 (shape0 X_train) (PyInt k) = inr (Vector idx, s1) ->
      length idx = Z.to_nat k ->
      Forall (fun i => (0 <= i < shape0 X_train)%Z) idx ->
      exists rows,
        initial_centroids X_train w = Ok (Init2D rows) (set_rng s1 w) /\
        length rows = Z.to_nat k /\
        Forall2 (fun i r => table_rows X_train !! Z.to_nat i = Some r) idx rows /\
        ((shape0 X_train < k)%Z -> ~ NoDup idx)).
Proof.
  intros Hnp. split.
  - intros path loaded dtype X_init Hf Hne Hl Hd Ha.
    unfold initial_centroids, bind, getattr, name_lookup, setattr, modify.
    rewrite Hf. rewrite bool_decide_eq_true_2 by done.
    rewrite Hnp, Hf, Hl. simpl. rewrite Hd, Ha. reflexivity.
  - intros seed k s0 idx s1 Hf Hs Hk Hs0 Hr Hlen Hall.
    destruct (rows_at_in_range (table_rows X_train) idx Hall) as (rows & Hrows & Hf2).
    exists rows. repeat split.
    + unfold initial_centroids, bind, getattr, name_lookup, random_seed,
        random_randint.
      rewrite Hf. rewrite bool_decide_eq_false_2 by (intros Hc; by apply Hc).
      rewrite Hnp, Hs, Hs0. cbv beta iota.
      change (params (set_rng s0 w)) with (params w).
      rewrite Hk. change (rng (set_rng s0 w)) with s0. rewrite Hr.
      unfold iloc_values, getitem, take. rewrite Hrows.
      by destruct (has_iloc X_train).
    + rewrite <- Hlen. symmetry. by eapply Forall2_length.
    + exact Hf2.
    + intros Hlt. apply (indices_repeat (length (table_rows X_train))); [exact Hall|].
      unfold shape0 in Hlt. lia.
Qed.

(** ** Determinism of the sampling *)

(** C5.  In the K-means script, two runs of the centroid choice without a
    centroid file, on the same training data, with the same [params]
    (hence the same [n_clusters]) holding an integer seed, and with [np]
    bound alike, have the same outcome: the same initial centroids, or the
    same exception.  The states the two runs start from may differ in
    everything else, the random state that earlier statements left
    behind included, and successful runs leave the same random state. *)
Theorem sampling_deterministic (X_train : table) (w1 w2 : World) (seed : Z) :
  params w1 = params w2 ->
  globals w1 !! "np" = globals w2 !! "np" ->
  params w1 !! "filei" = Some PyNone ->
  params w1 !! "seed" = Some (PyInt seed) ->
  outcome (initial_centroids X_train w1) = outcome (initial_centroids X_train w2) /\
  (forall c1 c2 w1' w2',
      initial_centroids X_train w1 = Ok c1 w1' ->
      initial_centroids X_train w2 = Ok c2 w2' ->
      c1 = c2 /\ rng w1' = rng w2').
Proof.
  intros Hp Hnp Hf Hs.
  assert (Hrun : forall w,
             params w = params w1 -> globals w !! "np" = globals w1 !! "np" ->
             initial_centroids X_train w =
             match globals w1 !! "np" with
             | None => Raise (NameError "np") w
             | Some _ =>
                 match np_random_seed_int seed with
                 | inl e => Raise e w
                 | inr s0 =>
                     match params w1 !! "n_clusters" with
                     | None => Raise (AttributeError "n_clusters") (set_rng s0 w)
                     | Some size =>
                         match np_random_randint s0 0 (shape0 X_train) size with
                         | inl e => Raise e (set_rng s0 w)
                         | inr (idx, s1) =>
                             match take (table_rows X_train) idx with
                             | inl e => Raise e (set_rng s1 w)
                             | inr c => Ok c (set_rng s1 w)
                             end
                         end
                     end
                 end
             end).
  { intros w Hpw Hgw.
    unfold initial_centroids, bind, getattr, name_lookup, random_seed,
      random_randint.
    rewrite Hpw, Hf. rewrite bool_decide_eq_false_2 by (intros Hc; by apply Hc).
    rewrite Hgw. destruct (globals w1 !! "np"); [|reflexivity].
    rewrite Hpw, Hs. destruct (np_random_seed_int seed) as [e|s0]; [reflexivity|].
    cbv beta iota. change (params (set_rng s0 w)) with (params w).
    rewrite Hpw.
    destruct (params w1 !! "n_clusters") as [size|]; [|reflexivity].
    change (rng (set_rng s0 w)) with s0.
    destruct (np_random_randint s0 0 (shape0 X_train) size) as [e|[idx s1]];
      [reflexivity|].
    unfold iloc_values, getitem.
    destruct (has_iloc X_train);
      by destruct (take (table_rows X_train) idx). }
  pose proof (Hrun w1 eq_refl eq_refl) as H1.
  pose proof (Hrun w2 (eq_sym Hp) (eq_sym Hnp)) as H2.
  split.
  - rewrite H1, H2. by repeat case_match.
  - intros c1 c2 w1' w2'. rewrite H1, H2.
    repeat case_match; try discriminate. intros [= <- <-] [= <- <-]. auto.
Qed.

(** ** The timing harness *)

Lemma default_timer_Ok w t w' :
  default_timer w = Ok t w' -> exists ts, w' = set_timer ts w.
Proof.
  unfold default_timer. destruct (timer w) as [|t0 ts] eqn:Ht; intros [= <- <-].
  - exists []. destruct w; simpl in *. by subst.
  - by exists ts.
Qed.

(** The value a timed callable hands back is the value of its last call,
    and after that call only the clock is read. *)
Lemma timed_calls_last {A} R `{!PreOrder R} (func : M A) n :
  framed R default_timer -> framed R func ->
  forall w r w',
    timed_calls n func w = Ok r w' ->
    exists wi wj ts,
      R w wi /\ func wi = Ok (snd r) wj /\ w' = set_timer ts wj.
Proof.
  intros Ht Hf. induction n as [|n IH]; intros w r w' Hr; simpl in Hr.
  - apply bind_Ok in Hr as (t0 & wa & H0 & Hr).
    apply bind_Ok in Hr as (v & wb & H1 & Hr).
    apply bind_Ok in Hr as (t1 & wc & H2 & Hr).
    injection Hr as <- <-.
    apply default_timer_Ok in H2 as [ts ->].
    exists wa, wb, ts. repeat split; [|exact H1].
    specialize (Ht w). by rewrite H0 in Ht.
  - apply bind_Ok in Hr as (t0 & wa & H0 & Hr).
    apply bind_Ok in Hr as (v & wb & H1 & Hr).
    apply bind_Ok in Hr as (t1 & wc & H2 & Hr).
    apply bind_Ok in Hr as (r' & wd & H3 & Hr).
    injection Hr as <- <-.
    destruct (IH _ _ _ H3) as (wi & wj & ts & HR & Hcall & ->).
    exists wi, wj, ts. repeat split; [|exact Hcall].
    etransitivity; [|exact HR].
    etransitivity; [|by eapply (framed_Ok_rel R default_timer), H2].
    etransitivity; [|by eapply (framed_Ok_rel R func), H1].
    by eapply (framed_Ok_rel R default_timer), H0.
Qed.

Lemma measure_function_time_last {A} R `{!PreOrder R} (func : M A) :
  framed R default_timer -> framed R func ->
  forall w r w',
    measure_function_time func w = Ok r w' ->
    exists wi wj ts,
      R w wi /\ func wi = Ok (snd r) wj /\ w' = set_timer ts wj.
Proof.
  intros Ht Hf w r w' Hr. unfold measure_function_time in Hr.
  apply bind_Ok in Hr as (w0 & wa & H0 & Hr). injection H0 as <- <-.
  apply bind_Ok in Hr as (r' & wb & H1 & Hr). injection Hr as <- <-.
  by apply (timed_calls_last R func _ Ht Hf) in H1.
Qed.

(** The harness runs the callable to the end when each call succeeds:
    for a callable that, from every state satisfying [Inv], returns with
    [Inv] kept and the count [N] raised by one, the harness returns with
    [N] raised by the number of calls. *)
Lemma default_timer_run (Inv : World -> Prop) (N : World -> nat) w :
  (forall w ts, Inv w -> Inv (set_timer ts w)) ->
  (forall w ts, N (set_timer ts w) = N w) ->
  Inv w ->
  exists t w', default_timer w = Ok t w' /\ Inv w' /\ N w' = N w.
Proof.
  intros Hi Hn Hw. unfold default_timer.
  destruct (timer w) as [|t ts]; eauto 6.
Qed.

Lemma timed_calls_progress {A} (Inv : World -> Prop) (N : World -> nat)
    (func : M A) :
  (forall w, Inv w -> exists v w', func w = Ok v w' /\ Inv w' /\ N w' = S (N w)) ->
  (forall w ts, Inv w -> Inv (set_timer ts w)) ->
  (forall w ts, N (set_timer ts w) = N w) ->
  forall n w, Inv w ->
    exists r w', timed_calls n func w = Ok r w' /\ Inv w' /\ N w' = (N w + S n)%nat.
Proof.
  intros Hf Hi Hn. induction n as [|n IH]; intros w Hw; simpl.
  - destruct (default_timer_run Inv N w Hi Hn Hw) as (t0 & wa & H0 & Ha & Na).
    destruct (Hf wa Ha) as (v & wb & H1 & Hb & Nb).
    destruct (default_timer_run Inv N wb Hi Hn Hb) as (t1 & wc & H2 & Hc & Nc).
    erewrite bind_run by exact H0. erewrite bind_run by exact H1.
    erewrite bind_run by exact H2.
    eexists _, _. split; [reflexivity|]. split; [exact Hc|]. lia.
  - destruct (default_timer_run Inv N w Hi Hn Hw) as (t0 & wa & H0 & Ha & Na).
    destruct (Hf wa Ha) as (v & wb & H1 & Hb & Nb).
    destruct (default_timer_run Inv N wb Hi Hn Hb) as (t1 & wc & H2 & Hc & Nc).
    destruct (IH wc Hc) as (r & wd & H3 & Hd & Nd).
    erewrite bind_run by exact H0. erewrite bind_run by exact H1.
    erewrite bind_run by exact H2. erewrite bind_run by exact H3.
    eexists _, _. split; [reflexivity|]. split; [exact Hd|]. lia.
Qed.

Lemma measure_function_time_progress {A} (Inv : World -> Prop) (N : World -> nat)
    (func : M A) :
  (forall w, Inv w -> exists v w', func w = Ok v w' /\ Inv w' /\ N w' = S (N w)) ->
  (forall w ts, Inv w -> Inv (set_timer ts w)) ->
  (forall w ts, N (set_timer ts w) = N w) ->
  forall w, Inv w ->
    exists r w', measure_function_time func w = Ok r w' /\ Inv w' /\
                 N w' = (N w + S (further_calls (params w)))%nat.
Proof.
  intros Hf Hi Hn w Hw. unfold measure_function_time.
  destruct (timed_calls_progress Inv N func Hf Hi Hn (further_calls (params w)) w Hw)
    as (r & w' & Hr & Hw' & Nw').
  unfold get. unfold bind at 1. erewrite bind_run by exact Hr.
  eexists _, _. split; [reflexivity|]. split; [exact Hw'|exact Nw'].
Qed.

(** ** Inertia of the K-means script *)

Lemma framed_inertia_default_timer r : framed (inertia_kept r) default_timer.
Proof. frame_field. Qed.

Lemma framed_inertia_predict r X :
  (forall k X k' l,
      KMeans_predict k X = inr (k', l) -> KMeans_inertia_ k' = KMeans_inertia_ k) ->
  framed (inertia_kept r) (KMeans_predict_method r X).
Proof.
  intros Hkeep w k Hk.
  unfold KMeans_predict_method, bind, deref_kmeans, lift, store, modify.
  rewrite Hk. destruct (KMeans_predict k X) as [e|[k' l]] eqn:Hp; simpl.
  - eauto.
  - rewrite lookup_insert_eq. eauto.
Qed.

Lemma kmeans_measure_Ok X_init X_train X_test w m w' :
  kmeans_measure X_init X_train X_test w = Ok m w' ->
  exists fit_time w1 k1 v1 predicted k2 v2,
    measure_function_time (kmeans_fit X_init X_train) w
    = Ok (fit_time, km_kmeans m) w1 /\
    heap w1 !! km_kmeans m = Some (EKMeans k1) /\
    KMeans_inertia_ k1 = inr v1 /\
    float v1 = inr (km_train_inertia m) /\
    measure_function_time (KMeans_predict_method (km_kmeans m) X_test) w1
    = Ok predicted w' /\
    heap w' !! km_kmeans m = Some (EKMeans k2) /\
    KMeans_inertia_ k2 = inr v2 /\
    float v2 = inr (km_test_inertia m).
Proof.
  unfold kmeans_measure, inertia_. intros Hr. inv_run. simpl.
  match goal with
  | H : measure_function_time (kmeans_fit _ _) _ = Ok ?f _ |- _ => destruct f
  end.
  simpl in *.
  repeat match goal with
    | H1 : ?x = Some _, H2 : ?x = Some _ |- _ => rewrite H1 in H2; injection H2 as <-
    end.
  eexists _, _, _, _, _, _, _. repeat split; eauto.
Qed.

(** C2.  In the K-means script, when the measurement succeeds, the
    training inertia is [float] of the [inertia_] attribute of the
    estimator object the timed fit returned, read in the state the timed
    fit left, and the test inertia is [float] of the [inertia_] attribute
    of that same object, read in the state the timed predict left.  The
    predictions are not used: if the library's [predict] leaves [inertia_]
    as it is, the reported test inertia equals the training inertia,
    whatever the test set. *)
Theorem inertia_read_from_estimator
    (X_init : init_array) (X_train X_test : table) (w : World)
    (m : KMeansMeasured) (w' : World) :
  kmeans_measure X_init X_train X_test w = Ok m w' ->
  (exists fit_time w1 k1 v1 predicted k2 v2,
      measure_function_time (kmeans_fit X_init X_train) w
      = Ok (fit_time, km_kmeans m) w1 /\
      heap w1 !! km_kmeans m = Some (EKMeans k1) /\
      KMeans_inertia_ k1 = inr v1 /\
      float v1 = inr (km_train_inertia m) /\
      measure_function_time (KMeans_predict_method (km_kmeans m) X_test) w1
      = Ok predicted w' /\
      heap w' !! km_kmeans m = Some (EKMeans k2) /\
      KMeans_inertia_ k2 = inr v2 /\
      float v2 = inr (km_test_inertia m)) /\
  ((forall k X k' l,
       KMeans_predict k X = inr (k', l) ->
       KMeans_inertia_ k' = KMeans_inertia_ k) ->
   km_test_inertia m = km_train_inertia m).
Proof.
  intros Hr.
  pose proof (kmeans_measure_Ok _ _ _ _ _ _ Hr)
    as (fit_time & w1 & k1 & v1 & predicted & k2 & v2 &
        Hfit & Hk1 & Hv1 & Hf1 & Hpred & Hk2 & Hv2 & Hf2).
  split; [by eexists _, _, _, _, _, _, _|].
  intros Hkeep.
  pose proof (framed_measure_function_time (inertia_kept (km_kmeans m))
                (KMeans_predict_method (km_kmeans m) X_test)
                (framed_inertia_default_timer _)
                (framed_inertia_predict _ _ Hkeep) w1) as Hfr.
  rewrite Hpred in Hfr. destruct (Hfr k1 Hk1) as (k' & Hk' & Hi).
  simpl in Hk'. rewrite Hk2 in Hk'. injection Hk' as <-.
  rewrite Hi, Hv1 in Hv2. injection Hv2 as <-. congruence.
Qed.

(** ** A timed fit builds its estimator anew *)

Lemma kmeans_kwargs_Ok X_init w args w' :
  kmeans_kwargs X_init w = Ok args w' ->
  w' = w /\
  args = {| km_n_clusters := km_n_clusters args; km_tol := km_tol args;
            km_max_iter := km_max_iter args; km_init := X_init;
            km_max_samples_per_batch := km_max_samples_per_batch args |} /\
  params w !! "n_clusters" = Some (km_n_clusters args) /\
  params w !! "tol" = Some (km_tol args) /\
  params w !! "maxiter" = Some (km_max_iter args) /\
  params w !! "samples_per_batch" = Some (km_max_samples_per_batch args).
Proof. unfold kmeans_kwargs. intros Hr. inv_run. simpl. auto 10. Qed.

Lemma kmeans_kwargs_params X_init w args w' w2 :
  kmeans_kwargs X_init w = Ok args w' -> params w2 = params w ->
  kmeans_kwargs X_init w2 = Ok args w2.
Proof.
  intros (_ & -> & H1 & H2 & H3 & H4)%kmeans_kwargs_Ok Hp.
  unfold kmeans_kwargs.
  repeat (erewrite (bind_run (getattr _))
            by (apply run_getattr; rewrite Hp; eassumption)).
  reflexivity.
Qed.

Lemma forest_kwargs_params w args w' w2 :
  forest_kwargs w = Ok args w' -> params w2 = params w ->
  forest_kwargs w2 = Ok args w2.
Proof.
  unfold forest_kwargs. intros Hr Hp. inv_run.
  repeat (erewrite (bind_run (getattr _))
            by (apply run_getattr; rewrite Hp; eassumption)).
  reflexivity.
Qed.

Lemma kmeans_fit_Ok X_init X w r w' :
  kmeans_fit X_init X w = Ok r w' ->
  exists args k0 k1,
    kmeans_kwargs X_init w = Ok args w /\
    KMeans_init args = inr k0 /\
    KMeans_fit k0 X = inr k1 /\
    r = fresh (dom (heap w)) /\
    w' = set_heap (<[r := EKMeans k1]> (<[r := EKMeans k0]> (heap w))) w.
Proof.
  unfold kmeans_fit, KMeans_fit_method. intros Hr. inv_run.
  match goal with
  | H : kmeans_kwargs _ _ = Ok _ _ |- _ =>
      pose proof (kmeans_kwargs_Ok _ _ _ _ H) as [-> _]; rename H into Hkw
  end.
  repeat match goal with
    | H : _ !! _ = Some _ |- _ =>
        progress cbn [heap globals set_heap set_globals] in H
    | H : <[?k:=_]> _ !! ?k = Some _ |- _ =>
        rewrite lookup_insert_eq in H; simplify_eq
    end.
  eexists _, _, _. repeat split; eauto.
Qed.

Lemma heap_grows_alloc_store (w w' : World) e e' :
  heap w' = <[fresh (dom (heap w)) := e']> (<[fresh (dom (heap w)) := e]> (heap w)) ->
  params w' = params w ->
  heap_grows w w'.
Proof.
  intros Hh Hp. split; [|exact Hp]. intros r0 e0 Hr0. rewrite Hh.
  rewrite !lookup_insert_ne; [exact Hr0| |];
    intros <-; by rewrite fresh_unused in Hr0.
Qed.

Lemma framed_grows_kmeans_fit X_init X : framed heap_grows (kmeans_fit X_init X).
Proof.
  unfold kmeans_fit.
  apply framed_bind; [typeclasses eauto | frame | intros _].
  apply framed_bind; [typeclasses eauto | unfold kmeans_kwargs; frame | intros args].
  apply framed_bind; [typeclasses eauto | frame | intros k].
  intros w. unfold bind, alloc, KMeans_fit_method, bind, deref_kmeans, lift,
    store, modify. simpl. rewrite lookup_insert_eq.
  destruct (KMeans_fit k X); simpl.
  - apply (framed_alloc (EKMeans k) w).
  - eapply heap_grows_alloc_store; reflexivity.
Qed.

Lemma framed_grows_fit X y : framed heap_grows (fit X y).
Proof.
  unfold fit.
  apply framed_bind; [typeclasses eauto | frame | intros _].
  apply framed_bind; [typeclasses eauto | unfold forest_kwargs; frame | intros args].
  apply framed_bind; [typeclasses eauto | frame | intros f].
  intros w. unfold bind, alloc, bind_name, name_object, bind, name_lookup,
    RandomForestClassifier_fit_method, bind, deref_forest, lift, store, modify.
  simpl. rewrite !lookup_insert_eq. simpl. rewrite lookup_insert_eq.
  destruct (RandomForestClassifier_fit f X y); simpl.
  - apply (framed_alloc (EForest f) w).
  - eapply heap_grows_alloc_store; reflexivity.
Qed.

Lemma framed_grows_default_timer : framed heap_grows default_timer.
Proof. frame_field. Qed.

Lemma predict_Ok X w l w' :
  predict X w = Ok l w' ->
  exists r f kw f',
    globals w !! "clf" = Some (Object r) /\
    heap w !! r = Some (EForest f) /\
    RandomForestClassifier_predict f X kw = inr (f', l).
Proof.
  unfold predict, RandomForestClassifier_predict_method. intros Hr. inv_run.
  destruct (a0 <=? 14)%Z; inv_run;
    match goal with
    | H : RandomForestClassifier_predict _ _ _ = inr ?res |- _ => destruct res
    end; eexists _, _, _, _; eauto.
Qed.

(** One call of each fit callable, when the library's constructor and
    [fit] return. *)
Lemma kmeans_fit_run X_init X w b args k0 k1 :
  globals w !! "KMeans" = Some b ->
  kmeans_kwargs X_init w = Ok args w ->
  KMeans_init args = inr k0 -> KMeans_fit k0 X = inr k1 ->
  kmeans_fit X_init X w
  = Ok (fresh (dom (heap w)))
      (set_heap (<[fresh (dom (heap w)) := EKMeans k1]>
                   (<[fresh (dom (heap w)) := EKMeans k0]> (heap w))) w).
Proof.
  intros Hb Hkw Hi Hf. unfold kmeans_fit.
  erewrite bind_run by by apply run_name_lookup.
  erewrite bind_run by exact Hkw.
  unfold bind, lift, alloc, KMeans_fit_method, bind, deref_kmeans, lift, store,
    modify, ret.
  rewrite Hi. simpl. rewrite lookup_insert_eq. rewrite Hf. reflexivity.
Qed.

Lemma fit_run X y w b args f0 f1 :
  globals w !! "RandomForestClassifier" = Some b ->
  forest_kwargs w = Ok args w ->
  RandomForestClassifier_init args = inr f0 ->
  RandomForestClassifier_fit f0 X y = inr f1 ->
  fit X y w
  = Ok (fresh (dom (heap w)))
      (set_heap (<[fresh (dom (heap w)) := EForest f1]>
                   (<[fresh (dom (heap w)) := EForest f0]> (heap w)))
         (set_globals (<["clf" := Object (fresh (dom (heap w)))]> (globals w)) w)).
Proof.
  intros Hb Hkw Hi Hf. unfold fit.
  erewrite bind_run by by apply run_name_lookup.
  erewrite bind_run by exact Hkw. rewrite Hi.
  unfold bind, lift, ret, alloc, bind_name, modify, name_object, bind,
    name_lookup, RandomForestClassifier_fit_method, bind, deref_forest, store,
    modify.
  simpl. rewrite lookup_insert_eq. simpl. rewrite lookup_insert_eq.
  unfold lift. rewrite Hf. reflexivity.
Qed.

Lemma fit_raise X y w b args e :
  globals w !! "RandomForestClassifier" = Some b ->
  forest_kwargs w = Ok args w ->
  RandomForestClassifier_init args = inl e ->
  fit X y w = Raise e w.
Proof.
  intros Hb Hkw Hi. unfold fit. erewrite bind_run by by apply run_name_lookup.
  erewrite bind_run by exact Hkw. rewrite Hi. reflexivity.
Qed.

Lemma heap_size_fresh (h : gmap nat estimator) e e' :
  size (<[fresh (dom h) := e']> (<[fresh (dom h) := e]> h)) = S (size h).
Proof. rewrite insert_insert_eq. apply map_size_insert_None, fresh_unused. Qed.

(** C8.  Each call of the timed fit callable constructs a new estimator
    object.  When the timing harness has run [kmeans_fit] (K-means
    script) or [fit] (classification script) its configured number of
    times from a state [w], the object it returns has an identity that no
    object of [w] has, every object of [w] is still there unaltered, and
    the state of the returned object is the library's [fit] applied to a
    newly constructed estimator whose keyword arguments are read from
    [params]: nothing of an earlier fit enters it.  In the classification
    script the global [clf] then refers to that object, and a following
    [predict] runs the library's [predict] on exactly that state.  And the
    harness does return whenever the class name is bound, the keyword
    arguments can be read and the library's constructor and [fit] return:
    one call is the run written out below, and the timed calls together
    add exactly one object per call to the heap. *)
Theorem fit_builds_fresh_estimator (w : World) :
  (forall X_init X fitted w',
      measure_function_time (kmeans_fit X_init X) w = Ok fitted w' ->
      heap w !! snd fitted = None /\
      (forall r0 e, heap w !! r0 = Some e -> heap w' !! r0 = Some e) /\
      exists args k0 k1,
        kmeans_kwargs X_init w = Ok args w /\
        KMeans_init args = inr k0 /\
        KMeans_fit k0 X = inr k1 /\
        heap w' !! snd fitted = Some (EKMeans k1)) /\
  (forall X y fitted w',
      measure_function_time (fit X y) w = Ok fitted w' ->
      heap w !! snd fitted = None /\
      (forall r0 e, heap w !! r0 = Some e -> heap w' !! r0 = Some e) /\
      globals w' !! "clf" = Some (Object (snd fitted)) /\
      exists args f0 f1,
        forest_kwargs w = Ok args w /\
        RandomForestClassifier_init args = inr f0 /\
        RandomForestClassifier_fit f0 X y = inr f1 /\
        heap w' !! snd fitted = Some (EForest f1) /\
        forall X' l w'',
          predict X' w' = Ok l w'' ->
          exists kw f2, RandomForestClassifier_predict f1 X' kw = inr (f2, l)) /\
  (forall X_init X b args k0 k1,
      globals w !! "KMeans" = Some b ->
      kmeans_kwargs X_init w = Ok args w ->
      KMeans_init args = inr k0 -> KMeans_fit k0 X = inr k1 ->
      kmeans_fit X_init X w
      = Ok (fresh (dom (heap w)))
          (set_heap (<[fresh (dom (heap w)) := EKMeans k1]>
                       (<[fresh (dom (heap w)) := EKMeans k0]> (heap w))) w) /\
      exists fitted w',
        measure_function_time (kmeans_fit X_init X) w = Ok fitted w' /\
        heap w' !! snd fitted = Some (EKMeans k1) /\
        size (heap w') = (size (heap w) + S (further_calls (params w)))%nat) /\
  (forall X y b args f0 f1,
      globals w !! "RandomForestClassifier" = Some b ->
      forest_kwargs w = Ok args w ->
      RandomForestClassifier_init args = inr f0 ->
      RandomForestClassifier_fit f0 X y = inr f1 ->
      fit X y w
      = Ok (fresh (dom (heap w)))
          (set_heap (<[fresh (dom (heap w)) := EForest f1]>
                       (<[fresh (dom (heap w)) := EForest f0]> (heap w)))
             (set_globals (<["clf" := Object (fresh (dom (heap w)))]> (globals w))
                w)) /\
      exists fitted w',
        measure_function_time (fit X y) w = Ok fitted w' /\
        heap w' !! snd fitted = Some (EForest f1) /\
        globals w' !! "clf" = Some (Object (snd fitted)) /\
        size (heap w') = (size (heap w) + S (further_calls (params w)))%nat).
Proof.
  assert (Hkm : forall X_init X fitted w',
      measure_function_time (kmeans_fit X_init X) w = Ok fitted w' ->
      heap w !! snd fitted = None /\
      (forall r0 e, heap w !! r0 = Some e -> heap w' !! r0 = Some e) /\
      exists args k0 k1,
        kmeans_kwargs X_init w = Ok args w /\
        KMeans_init args = inr k0 /\
        KMeans_fit k0 X = inr k1 /\
        heap w' !! snd fitted = Some (EKMeans k1)).
  { intros X_init X fitted w' Hm.
    destruct (measure_function_time_last heap_grows (kmeans_fit X_init X)
                framed_grows_default_timer (framed_grows_kmeans_fit _ _) _ _ _ Hm)
      as (wi & wj & ts & [Hgrow Hpar] & Hcall & ->).
    destruct (kmeans_fit_Ok _ _ _ _ _ Hcall)
      as (args & k0 & k1 & Hkw & Hinit & Hfit & Hr & ->).
    rewrite Hr. simpl. repeat split.
    + destruct (heap w !! fresh (dom (heap wi))) as [e|] eqn:He; [|reflexivity].
      apply Hgrow in He. by rewrite fresh_unused in He.
    + intros r0 e He. apply Hgrow in He.
      rewrite !lookup_insert_ne; [exact He| |];
        intros <-; by rewrite fresh_unused in He.
    + exists args, k0, k1. repeat split; try done.
      * by eapply kmeans_kwargs_params.
      * by rewrite lookup_insert_eq. }
  assert (Hrf : forall X y fitted w',
      measure_function_time (fit X y) w = Ok fitted w' ->
      heap w !! snd fitted = None /\
      (forall r0 e, heap w !! r0 = Some e -> heap w' !! r0 = Some e) /\
      globals w' !! "clf" = Some (Object (snd fitted)) /\
      exists args f0 f1,
        forest_kwargs w = Ok args w /\
        RandomForestClassifier_init args = inr f0 /\
        RandomForestClassifier_fit f0 X y = inr f1 /\
        heap w' !! snd fitted = Some (EForest f1) /\
        forall X' l w'',
          predict X' w' = Ok l w'' ->
          exists kw f2, RandomForestClassifier_predict f1 X' kw = inr (f2, l)).
  { intros X y fitted w' Hm.
    destruct (measure_function_time_last heap_grows (fit X y)
                framed_grows_default_timer (framed_grows_fit _ _) _ _ _ Hm)
      as (wi & wj & ts & [Hgrow Hpar] & Hcall & ->).
    destruct (fit_Ok _ _ _ _ _ Hcall)
      as (args & f0 & f1 & Hkw & Hinit & Hfit & Hr & ->).
    rewrite Hr. simpl. repeat split.
    + destruct (heap w !! fresh (dom (heap wi))) as [e|] eqn:He; [|reflexivity].
      apply Hgrow in He. by rewrite fresh_unused in He.
    + intros r0 e He. apply Hgrow in He.
      rewrite !lookup_insert_ne; [exact He| |];
        intros <-; by rewrite fresh_unused in He.
    + by rewrite lookup_insert_eq.
    + exists args, f0, f1. repeat split; try done.
      * by eapply forest_kwargs_params.
      * by rewrite lookup_insert_eq.
      * intros X' l w'' (r & f & kw & f' & Hclf & Hobj & Hp)%predict_Ok.
        simpl in Hclf, Hobj. rewrite lookup_insert_eq in Hclf.
        injection Hclf as <-. rewrite lookup_insert_eq in Hobj.
        injection Hobj as <-. eauto. }
  split; [exact Hkm|]. split; [exact Hrf|]. split.
  - intros X_init X b args k0 k1 Hb Hkw Hi Hf.
    split; [by eapply kmeans_fit_run|].
    destruct (measure_function_time_progress
                (fun w0 => globals w0 !! "KMeans" = Some b /\ params w0 = params w)
                (fun w0 => size (heap w0)) (kmeans_fit X_init X))
      with (w := w) as (fitted & w' & Hm & _ & Hsize).
    + intros w0 [Hb0 Hp0].
      assert (Hkw0 : kmeans_kwargs X_init w0 = Ok args w0)
        by by eapply kmeans_kwargs_params.
      eexists _, _. split; [by eapply kmeans_fit_run|].
      split; [by split|]. apply heap_size_fresh.
    + by intros w0 ts [? ?].
    + reflexivity.
    + by split.
    + exists fitted, w'. split; [exact Hm|]. split; [|exact Hsize].
      destruct (Hkm _ _ _ _ Hm) as (_ & _ & args' & k0' & k1' & Hkw' & Hi' & Hf' & Hh).
      rewrite Hkw in Hkw'. injection Hkw' as <-.
      rewrite Hi in Hi'. injection Hi' as <-.
      rewrite Hf in Hf'. injection Hf' as <-. exact Hh.
  - intros X y b args f0 f1 Hb Hkw Hi Hf.
    split; [by eapply fit_run|].
    destruct (measure_function_time_progress
                (fun w0 => globals w0 !! "RandomForestClassifier" = Some b /\
                           params w0 = params w)
                (fun w0 => size (heap w0)) (fit X y))
      with (w := w) as (fitted & w' & Hm & _ & Hsize).
    + intros w0 [Hb0 Hp0].
      assert (Hkw0 : forest_kwargs w0 = Ok args w0)
        by by eapply forest_kwargs_params.
      eexists _, _. split; [by eapply fit_run|].
      split; [|apply heap_size_fresh].
      split; [|exact Hp0]. simpl. by rewrite lookup_insert_ne.
    + by intros w0 ts [? ?].
    + reflexivity.
    + by split.
    + exists fitted, w'. split; [exact Hm|].
      destruct (Hrf _ _ _ _ Hm)
        as (_ & _ & Hclf & args' & f0' & f1' & Hkw' & Hi' & Hf' & Hh & _).
      rewrite Hkw in Hkw'. injection Hkw' as <-.
      rewrite Hi in Hi'. injection Hi' as <-.
      rewrite Hf in Hf'. injection Hf' as <-.
      split; [exact Hh|]. split; [exact Hclf|exact Hsize].
Qed.

(** * Further properties of the two scripts *)

(** ** Usage errors *)

(** X1.  When the command line is rejected by the parser, either script
    ends with the parser's exit and has done nothing but its imports: no
    data is loaded (the random state, which the loader may consume, is as
    before), no estimator exists that was not there, [params] is not
    assigned and nothing is emitted. *)
Theorem usage_error_stops_script (argv : list string) (w : World) (e : exn) :
  (parse_args (bench_options KMeansCLI.parser (Some "cuml")
                 (Some ["fit"; "predict"])) argv = inl e ->
   kmeans_script argv w = Raise e (set_globals kmeans_imports w)) /\
  (parse_args (bench_options (ForestCLI.parser float_or_int) None None) argv
   = inl e ->
   df_clsf_script argv w = Raise e (set_globals df_clsf_imports w)).
Proof.
  split; intros Hp.
  - unfold kmeans_script. apply bind_raise. by rewrite kmeans_setup_run, Hp.
  - unfold df_clsf_script. apply bind_raise. by rewrite df_clsf_setup_run, Hp.
Qed.

(** ** The report of the K-means script *)

Lemma framed_reports_kmeans_fit X_init X : framed reports_kept (kmeans_fit X_init X).
Proof. unfold kmeans_fit, kmeans_kwargs, KMeans_fit_method. frame. Qed.

Lemma framed_reports_kmeans_measure X_init X_train X_test :
  framed reports_kept (kmeans_measure X_init X_train X_test).
Proof.
  unfold kmeans_measure, inertia_. frame.
  - apply framed_reports_kmeans_fit.
  - unfold KMeans_predict_method. frame.
Qed.

Lemma framed_reports_initial_centroids X_train :
  framed reports_kept (initial_centroids X_train).
Proof. unfold initial_centroids. frame. Qed.

Lemma kmeans_report_run X_train X_test m w :
  kmeans_report X_train X_test m w =
  match globals w !! "print_output" with
  | None => Raise (NameError "print_output") w
  | Some _ =>
      Ok tt (set_reports
               (reports w ++ [kmeans_report_of X_train X_test m (params w)]) w)
  end.
Proof.
  unfold kmeans_report, bind, name_lookup.
  by destruct (globals w !! "print_output").
Qed.

Lemma kmeans_setup_reports argv w :
  reports (world_of (kmeans_setup argv w)) = reports w.
Proof.
  rewrite kmeans_setup_run. destruct (parse_args _ _) as [e|p]; [reflexivity|].
  destruct (bench_load_data_world None
              (set_params p (set_globals kmeans_imports w))) as [s ->].
  reflexivity.
Qed.

Lemma kmeans_measure_fit X_init X_train X_test w m w' :
  kmeans_measure X_init X_train X_test w = Ok m w' ->
  exists w1,
    measure_function_time (kmeans_fit X_init X_train) w
    = Ok (km_fit_time m, km_kmeans m) w1.
Proof.
  unfold kmeans_measure, inertia_. intros Hr. inv_run. simpl.
  match goal with
  | H : measure_function_time (kmeans_fit _ _) _ = Ok ?f _ |- _ => destruct f
  end.
  eauto.
Qed.

Lemma timed_kmeans_fit_fresh X_init X w fitted w' :
  measure_function_time (kmeans_fit X_init X) w = Ok fitted w' ->
  heap w !! snd fitted = None.
Proof.
  intros Hm.
  destruct (measure_function_time_last heap_grows (kmeans_fit X_init X)
              framed_grows_default_timer (framed_grows_kmeans_fit _ _) _ _ _ Hm)
    as (wi & wj & ts & [Hgrow Hpar] & Hcall & ->).
  destruct (kmeans_fit_Ok _ _ _ _ _ Hcall) as (_ & _ & _ & _ & _ & _ & -> & _).
  destruct (heap w !! fresh (dom (heap wi))) as [e|] eqn:He; [|reflexivity].
  apply Hgrow in He. by rewrite fresh_unused in He.
Qed.

(** X2.  The K-means script emits its report as its last act: a run that
    ends with an exception, wherever it is raised, has emitted nothing; a
    run that ends normally has emitted exactly one report.  That report has
    the two stages [training] and [prediction] with one time and one
    inertia each (fit first) and carries [params] as they are at the end.
    Its model is the object the timing harness returned for [kmeans_fit]
    (line 62), called in the state the script is in once the initial
    centroids are chosen and [kmeans_fit] is defined; the reported fit
    time is the time of that timed fit; the object did not exist before
    it, and it is a K-means object of the final heap. *)
Theorem kmeans_reports_once (argv : list string) (w : World) :
  (forall e w', kmeans_script argv w = Raise e w' -> reports w' = reports w) /\
  (forall u w',
      kmeans_script argv w = Ok u w' ->
      exists X_train X_test y1 y2 w1 X_init w2 m wf k,
        kmeans_setup argv w = Ok (X_train, X_test, y1, y2) w1 /\
        initial_centroids X_train w1 = Ok X_init w2 /\
        measure_function_time (kmeans_fit X_init X_train)
          (set_globals (<["kmeans_fit" := Callable "kmeans_fit"]> (globals w2)) w2)
        = Ok (km_fit_time m, km_kmeans m) wf /\
        heap w2 !! km_kmeans m = None /\
        reports w'
        = (reports w ++ [kmeans_report_of X_train X_test m (params w')])%list /\
        alg_instance (kmeans_report_of X_train X_test m (params w'))
        = km_kmeans m /\
        heap w' !! km_kmeans m = Some (EKMeans k)).
Proof.
  assert (Hrun :
    match kmeans_script argv w with
    | Raise _ w' => reports w' = reports w
    | Ok _ w' =>
        exists X_train X_test y1 y2 w1 X_init w2 m wf k,
          kmeans_setup argv w = Ok (X_train, X_test, y1, y2) w1 /\
          initial_centroids X_train w1 = Ok X_init w2 /\
          measure_function_time (kmeans_fit X_init X_train)
            (set_globals (<["kmeans_fit" := Callable "kmeans_fit"]> (globals w2)) w2)
          = Ok (km_fit_time m, km_kmeans m) wf /\
          heap w2 !! km_kmeans m = None /\
          reports w'
          = (reports w ++ [kmeans_report_of X_train X_test m (params w')])%list /\
          alg_instance (kmeans_report_of X_train X_test m (params w'))
          = km_kmeans m /\
          heap w' !! km_kmeans m = Some (EKMeans k)
    end).
  { unfold kmeans_script, bind.
    pose proof (kmeans_setup_reports argv w) as Hs.
    destruct (kmeans_setup argv w) as [[[[X_train X_test] y1] y2] w1|e1 w1]
      eqn:Hsetup; simpl in Hs; [|exact Hs].
    unfold kmeans_run, bind.
    pose proof (framed_reports_initial_centroids X_train w1) as H1.
    destruct (initial_centroids X_train w1) as [X_init w2|e2 w2] eqn:Hic;
      simpl in H1; [|congruence].
    unfold bind_name, modify.
    set (w3 := set_globals _ w2).
    assert (H3 : reports w3 = reports w) by (unfold w3; simpl; congruence).
    pose proof (framed_reports_kmeans_measure X_init X_train X_test w3) as H4.
    destruct (kmeans_measure X_init X_train X_test w3) as [m w4|e4 w4] eqn:Hm;
      simpl in H4; [|congruence].
    rewrite kmeans_report_run.
    destruct (globals w4 !! "print_output"); [|congruence].
    destruct (kmeans_measure_Ok _ _ _ _ _ _ Hm)
      as (_ & _ & _ & _ & _ & k2 & _ & _ & _ & _ & _ & _ & Hk2 & _).
    destruct (kmeans_measure_fit _ _ _ _ _ _ Hm) as [wf Hfit].
    pose proof (timed_kmeans_fit_fresh _ _ _ _ _ Hfit) as Hfresh.
    exists X_train, X_test, y1, y2, w1, X_init, w2, m, wf, k2.
    split; [reflexivity|]. split; [exact Hic|]. split; [exact Hfit|].
    split; [exact Hfresh|]. simpl. split; [congruence|]. split; [reflexivity|].
    exact Hk2. }
  split.
  - intros e w' Hr. by rewrite Hr in Hrun.
  - intros u w' Hr. by rewrite Hr in Hrun.
Qed.

(** ** The cluster count and the initial centroids *)

(** X3.  In the K-means script, when a centroid file is configured the
    choice of the initial centroids, if it succeeds, yields the loaded
    matrix and overrides [params.n_clusters] with its row count, whatever
    [--n-clusters] said; nothing else of [params] changes, numpy's random
    state is not touched, and the [KMeans] constructor then receives that
    row count as [n_clusters] together with the matrix as [init]. *)
Theorem centroid_file_overrides_count
    (X_train : table) (w : World) (path : pyval) (X_init : init_array) (w1 : World) :
  params w !! "filei" = Some path -> path <> PyNone ->
  initial_centroids X_train w = Ok X_init w1 ->
  exists rows,
    X_init = Init2D rows /\
    params w1 = <["n_clusters" := PyInt (Z.of_nat (length rows))]> (params w) /\
    rng w1 = rng w /\
    forall args w2,
      kmeans_kwargs X_init w1 = Ok args w2 ->
      km_n_clusters args = PyInt (Z.of_nat (length rows)) /\
      km_init args = Init2D rows.
Proof.
  intros Hf Hne Hr. unfold initial_centroids in Hr.
  apply bind_Ok in Hr as (v & w0 & Hg & Hr).
  apply getattr_Ok in Hg as [Hg ->]. rewrite Hf in Hg. injection Hg as <-.
  rewrite bool_decide_eq_true_2 in Hr by done. inv_run.
  eexists. split; [reflexivity|]. split; [reflexivity|]. split; [reflexivity|].
  intros args w2 (_ & Hargs & Hn & _)%kmeans_kwargs_Ok.
  simpl in Hn. rewrite lookup_insert_eq in Hn. injection Hn as <-.
  split; [reflexivity|]. by rewrite Hargs.
Qed.

(** X4.  In the K-means script, when neither a centroid file nor a cluster
    count is configured ([params.filei] and [params.n_clusters] are both
    [None]), [randint] is called with [size=None]; when it returns a single
    index inside the table, the initial "centroids" are that one training
    row (not a matrix), [params] is left as it is, and the [KMeans]
    constructor receives [n_clusters=None] with that row as [init]. *)
Theorem single_row_without_count
    (X_train : table) (w : World) (b : binding) (seed : Z)
    (s0 : RandomState) (i : Z) (s1 : RandomState) :
  globals w !! "np" = Some b ->
  params w !! "filei" = Some PyNone ->
  params w !! "seed" = Some (PyInt seed) ->
  params w !! "n_clusters" = Some PyNone ->
  np_random_seed_int seed = inr s0 ->
  np_random_randint s0 0 (shape0 X_train) PyNone = inr (Scalar i, s1) ->
  (0 <= i < shape0 X_train)%Z ->
  exists r,
    table_rows X_train !! Z.to_nat i = Some r /\
    initial_centroids X_train w = Ok (Init1D r) (set_rng s1 w) /\
    forall args w2,
      kmeans_kwargs (Init1D r) (set_rng s1 w) = Ok args w2 ->
      km_n_clusters args = PyNone /\ km_init args = Init1D r.
Proof.
  intros Hnp Hf Hs Hk Hs0 Hr Hi.
  destruct (row_at_in_range (table_rows X_train) i Hi) as (r & Hrow & Hlook).
  exists r. split; [exact Hlook|]. split.
  - unfold initial_centroids, bind, getattr, name_lookup, random_seed,
      random_randint.
    rewrite Hf. rewrite bool_decide_eq_false_2 by (intros Hc; by apply Hc).
    rewrite Hnp, Hs, Hs0. cbv beta iota.
    change (params (set_rng s0 w)) with (params w).
    rewrite Hk. change (rng (set_rng s0 w)) with s0. rewrite Hr.
    unfold iloc_values, getitem, take. rewrite Hrow.
    by destruct (has_iloc X_train).
  - intros args w2 (_ & Hargs & Hn & _)%kmeans_kwargs_Ok.
    simpl in Hn. rewrite Hk in Hn. injection Hn as <-.
    split; [reflexivity|]. by rewrite Hargs.
Qed.

(** ** The classification script: translation and keyword arguments *)

Lemma translate_params_run y w :
  translate_params y w =
  match params w !! "criterion" with
  | None => Raise (AttributeError "criterion") w
  | Some c =>
      let p1 := <["criterion" :=
                   PyInt (if bool_decide (c = PyStr "gini") then 0 else 1)]>
                  (params w) in
      match params w !! "split_algorithm" with
      | None => Raise (AttributeError "split_algorithm") (set_params p1 w)
      | Some a =>
          Ok tt
            (set_params
               (<["n_classes" := PyInt (Z.of_nat (length (remove_dups y)))]>
                  (<["split_algorithm" :=
                      PyInt (if bool_decide (a = PyStr "hist") then 0 else 1)]>
                     p1)) w)
      end
  end.
Proof.
  unfold translate_params, bind, getattr, setattr, modify.
  destruct (params w !! "criterion") as [c|]; [|reflexivity].
  destruct (bool_decide (c = PyStr "gini")); simpl;
    rewrite lookup_insert_ne by done;
    destruct (params w !! "split_algorithm") as [a|]; try reflexivity;
    by destruct (bool_decide (a = PyStr "hist")).
Qed.



(** The option of the classification parser that writes the destination
    [k], when the shared options leave [k] alone. *)
Lemma forest_option_of_dest a k :
  Forall (fun a => dest a <> k) (shared_arguments None None) ->
  a ∈ bench_options (ForestCLI.parser float_or_int) None None ->
  dest a = k -> arg_action a <> Help ->
  a ∈ ForestCLI.declared float_or_int.
Proof.
  intros Hsh Ha Hd Hact. rewrite bench_options_app in Ha.
  apply elem_of_app in Ha as [Ha|Ha].
  - by apply forest_parser_in in Ha as [Ha|Ha].
  - rewrite Forall_forall in Hsh. by destruct (Hsh a Ha).
Qed.

(** ** The keyword arguments of [predict] *)

(** X6.  In the classification script, a call of [predict] that returns
    has run the library's [predict] on the object the global [clf] refers
    to, with [predict_model='GPU'] and, exactly when the second component
    of the library's version string is at most 14, with [num_classes] set
    to [params.n_classes]; the object's state is replaced by the one the
    library returns and nothing else changes.  When that version component
    cannot be read, [predict] raises the conversion's exception before it
    looks at [clf].  [params.n_classes] is the number of distinct training
    labels, set by the translation of line 65. *)
Theorem predict_keyword_arguments (X : table) (w : World) :
  (forall l w',
      predict X w = Ok l w' ->
      exists minor r f f' kwargs,
        version_minor = inr minor /\
        globals w !! "clf" = Some (Object r) /\
        heap w !! r = Some (EForest f) /\
        RandomForestClassifier_predict f X kwargs = inr (f', l) /\
        kwargs !! "predict_model" = Some (PyStr "GPU") /\
        kwargs !! "num_classes"
        = (if (minor <=? 14)%Z then params w !! "n_classes" else None) /\
        dom kwargs ⊆ {["predict_model"; "num_classes"]} /\
        ((minor <= 14)%Z -> is_Some (params w !! "n_classes")) /\
        w' = set_heap (<[r := EForest f']> (heap w)) w) /\
  (forall b e,
      globals w !! "cuml" = Some b -> version_minor = inl e ->
      predict X w = Raise e w) /\
  (forall y w0 u,
      translate_params y w0 = Ok u w ->
      params w !! "n_classes"
      = Some (PyInt (Z.of_nat (length (remove_dups y))))).
Proof.
  split; [|split].
  - intros l w' Hr. unfold predict, RandomForestClassifier_predict_method in Hr.
    inv_run.
    match goal with
    | H : RandomForestClassifier_predict _ _ _ = inr ?res |- _ =>
        destruct res as [f' l']
    end.
    destruct (a0 <=? 14)%Z eqn:Hle; inv_run; simpl.
    + eexists a0, _, _, f', _. repeat split; try eassumption.
      * by rewrite lookup_insert_ne, lookup_singleton_eq.
      * rewrite lookup_insert_eq, Hle. by symmetry.
      * rewrite dom_insert, dom_singleton. set_solver.
      * eauto.
    + eexists a0, _, _, f', _. repeat split; try eassumption.
      * by rewrite lookup_singleton_eq.
      * by rewrite lookup_singleton_ne, Hle.
      * rewrite dom_singleton. set_solver.
      * intros Hle'%Z.leb_le. congruence.
  - intros b e Hb He. unfold predict. erewrite bind_run by by apply run_name_lookup.
    apply bind_raise. by rewrite He.
  - intros y w0 u Ht. rewrite translate_params_run in Ht.
    destruct (params w0 !! "criterion") as [c|]; [|discriminate].
    destruct (params w0 !! "split_algorithm") as [a|]; [|discriminate].
    injection Ht as _ <-. simpl. by rewrite lookup_insert_eq.
Qed.

Lemma parse_args_has_key opts argv k p :
  is_Some (initial_namespace opts !! k) ->
  parse_args opts argv = inr p -> is_Some (p !! k).
Proof.
  intros [v0 Hv0] Hp.
  destruct (parse_args_value (fun _ => True) opts argv k) with (p := p)
    as (v & Hv & _); eauto.
Qed.

Lemma forest_keys_parsed argv p k :
  k ∈ ["criterion"; "split_algorithm"; "num_trees"; "max_features"; "max_depth";
       "min_samples_split"; "max_leaf_nodes"; "min_impurity_decrease";
       "bootstrap"] ->
  parse_args (bench_options (ForestCLI.parser float_or_int) None None) argv = inr p ->
  is_Some (p !! k).
Proof.
  intros Hk. apply parse_args_has_key. rewrite bench_options_app.
  rewrite !elem_of_cons, elem_of_nil in Hk.
  repeat (destruct Hk as [->|Hk];
          [eexists; apply initial_namespace_app; vm_compute; reflexivity|]).
  destruct Hk.
Qed.

Lemma forest_kwargs_fields w args w' :
  forest_kwargs w = Ok args w' ->
  params w !! "criterion" = Some (split_criterion args) /\
  params w !! "split_algorithm" = Some (split_algo args) /\
  params w !! "num_trees" = Some (n_estimators args) /\
  params w !! "max_depth" = Some (rf_max_depth args) /\
  params w !! "max_features" = Some (rf_max_features args) /\
  params w !! "min_samples_split" = Some (min_rows_per_node args) /\
  params w !! "max_leaf_nodes" = Some (max_leaves args) /\
  params w !! "min_impurity_decrease" = Some (rf_min_impurity_decrease args) /\
  params w !! "bootstrap" = Some (rf_bootstrap args).
Proof. unfold forest_kwargs. intros Hr. inv_run. simpl. auto 12. Qed.

Lemma forest_kwargs_succeeds w :
  (forall k,
      k ∈ ["criterion"; "split_algorithm"; "num_trees"; "max_features";
           "max_depth"; "min_samples_split"; "max_leaf_nodes";
           "min_impurity_decrease"; "bootstrap"] ->
      is_Some (params w !! k)) ->
  exists args, forest_kwargs w = Ok args w.
Proof.
  intros Hk. unfold forest_kwargs.
  repeat match goal with
    | |- context [bind (getattr ?k) _ w] =>
        let v := fresh "v" in let Hv := fresh "Hv" in
        destruct (Hk k) as [v Hv]; [set_solver|];
        rewrite (bind_run (getattr k) _ w v w (run_getattr _ _ _ Hv))
    end.
  eexists. reflexivity.
Qed.

(** X7.  In the classification script, once the parser has accepted the
    command line and the data is loaded, neither the translation of the
    string-valued hyperparameters nor the evaluation of the constructor's
    keyword arguments can fail: every attribute they read is the
    destination of a declared option.  The constructor receives
    [--num-trees], [--max-depth], [--max-features], [--min-samples-split],
    [--max-leaf-nodes], [--min-impurity-decrease] and the bootstrap flag
    exactly as parsed (as [n_estimators], [max_depth], [max_features],
    [min_rows_per_node], [max_leaves], [min_impurity_decrease],
    [bootstrap]), and an integer code for the two translated ones. *)
Theorem hyperparameters_reach_constructor
    (argv : list string) (w : World) (d : table * table * list Z * list Z)
    (w1 : World) (y : list Z) :
  df_clsf_setup argv w = Ok d w1 ->
  exists p w2 args,
    parse_args (bench_options (ForestCLI.parser float_or_int) None None) argv
    = inr p /\
    translate_params y w1 = Ok tt w2 /\
    forest_kwargs w2 = Ok args w2 /\
    p !! "num_trees" = Some (n_estimators args) /\
    p !! "max_depth" = Some (rf_max_depth args) /\
    p !! "max_features" = Some (rf_max_features args) /\
    p !! "min_samples_split" = Some (min_rows_per_node args) /\
    p !! "max_leaf_nodes" = Some (max_leaves args) /\
    p !! "min_impurity_decrease" = Some (rf_min_impurity_decrease args) /\
    p !! "bootstrap" = Some (rf_bootstrap args) /\
    (split_criterion args = PyInt 0 \/ split_criterion args = PyInt 1) /\
    (split_algo args = PyInt 0 \/ split_algo args = PyInt 1).
Proof.
  intros (p & s & Hp & ->)%df_clsf_setup_Ok.
  destruct (forest_keys_parsed argv p "criterion" ltac:(set_solver) Hp) as [c Hc].
  destruct (forest_keys_parsed argv p "split_algorithm" ltac:(set_solver) Hp)
    as [a Ha].
  set (w1 := set_rng s (set_params p (set_globals df_clsf_imports w))).
  assert (Ht := translate_params_run y w1).
  change (params w1) with p in Ht. rewrite Hc, Ha in Ht. cbv zeta in Ht.
  match type of Ht with _ = Ok tt ?w2' => set (w2 := w2') in * end.
  destruct (forest_kwargs_succeeds w2) as [args Hargs].
  { intros k Hk.
    destruct (forest_keys_parsed argv p k Hk Hp) as [v Hv].
    unfold w2. simpl.
    destruct (decide (k = "n_classes")) as [->|?];
      [rewrite lookup_insert_eq; eauto | rewrite lookup_insert_ne by done].
    destruct (decide (k = "split_algorithm")) as [->|?];
      [rewrite lookup_insert_eq; eauto | rewrite lookup_insert_ne by done].
    destruct (decide (k = "criterion")) as [->|?];
      [rewrite lookup_insert_eq; eauto | rewrite lookup_insert_ne by done].
    eauto. }
  exists p, w2, args. split; [exact Hp|]. split; [exact Ht|]. split; [exact Hargs|].
  apply forest_kwargs_fields in Hargs
    as (H1 & H2 & H3 & H4 & H5 & H6 & H7 & H8 & H9).
  unfold w2 in *. simpl in *.
  rewrite !lookup_insert_ne in H3, H4, H5, H6, H7, H8, H9 by done.
  rewrite lookup_insert_ne, lookup_insert_ne, lookup_insert_eq in H1 by done.
  rewrite lookup_insert_ne, lookup_insert_eq in H2 by done.
  injection H1 as H1. injection H2 as H2.
  repeat split; try done.
  - rewrite <- H1. destruct (bool_decide (c = PyStr "gini")); auto.
  - rewrite <- H2. destruct (bool_decide (a = PyStr "hist")); auto.
Qed.

(** ** From the command line to the constructor *)

(** Once the parser has accepted the command line and the data is
    loaded, the translation and the evaluation of the keyword arguments
    run to their end. *)
Lemma df_clsf_configured argv w d w1 y :
  df_clsf_setup argv w = Ok d w1 ->
  exists p c a w2 args,
    parse_args (bench_options (ForestCLI.parser float_or_int) None None) argv
    = inr p /\
    p !! "criterion" = Some c /\
    p !! "split_algorithm" = Some a /\
    translate_params y w1 = Ok tt w2 /\
    is_Some (globals w2 !! "RandomForestClassifier") /\
    params w2 !! "criterion"
    = Some (PyInt (if bool_decide (c = PyStr "gini") then 0 else 1)) /\
    params w2 !! "split_algorithm"
    = Some (PyInt (if bool_decide (a = PyStr "hist") then 0 else 1)) /\
    forest_kwargs w2 = Ok args w2 /\
    split_criterion args
    = PyInt (if bool_decide (c = PyStr "gini") then 0 else 1) /\
    split_algo args
    = PyInt (if bool_decide (a = PyStr "hist") then 0 else 1) /\
    p !! "num_trees" = Some (n_estimators args).
Proof.
  intros (p & s & Hp & ->)%df_clsf_setup_Ok.
  destruct (forest_keys_parsed argv p "criterion" ltac:(set_solver) Hp) as [c Hc].
  destruct (forest_keys_parsed argv p "split_algorithm" ltac:(set_solver) Hp)
    as [a Ha].
  set (w1 := set_rng s (set_params p (set_globals df_clsf_imports w))).
  assert (Ht := translate_params_run y w1).
  change (params w1) with p in Ht. rewrite Hc, Ha in Ht. cbv zeta in Ht.
  match type of Ht with _ = Ok tt ?w2' => set (w2 := w2') in * end.
  destruct (forest_kwargs_succeeds w2) as [args Hargs].
  { intros k Hk.
    destruct (forest_keys_parsed argv p k Hk Hp) as [v Hv].
    unfold w2. simpl.
    destruct (decide (k = "n_classes")) as [->|?];
      [rewrite lookup_insert_eq; eauto | rewrite lookup_insert_ne by done].
    destruct (decide (k = "split_algorithm")) as [->|?];
      [rewrite lookup_insert_eq; eauto | rewrite lookup_insert_ne by done].
    destruct (decide (k = "criterion")) as [->|?];
      [rewrite lookup_insert_eq; eauto | rewrite lookup_insert_ne by done].
    eauto. }
  exists p, c, a, w2, args.
  split; [exact Hp|]. split; [exact Hc|]. split; [exact Ha|]. split; [exact Ht|].
  split; [eexists; vm_compute; reflexivity|].
  pose proof (forest_kwargs_fields _ _ _ Hargs) as (H1 & H2 & H3 & _).
  unfold w2 in H1, H2, H3 |- *. simpl in H1, H2, H3 |- *.
  rewrite !lookup_insert_ne in H3 by done.
  rewrite lookup_insert_ne, lookup_insert_ne, lookup_insert_eq in H1 by done.
  rewrite lookup_insert_ne, lookup_insert_eq in H2 by done.
  injection H1 as H1. injection H2 as H2.
  split; [by rewrite lookup_insert_ne, lookup_insert_ne, lookup_insert_eq|].
  split; [by rewrite lookup_insert_ne, lookup_insert_eq|].
  split; [exact Hargs|]. split; [by rewrite H1|]. split; [by rewrite H2|].
  exact H3.
Qed.

(** A call of [fit], in any state with the same [params], hands the
    keyword arguments [args] to the constructor: it ends as the
    constructor called on [args] and the library's [fit] end. *)
Lemma fit_with_kwargs w2 args :
  forest_kwargs w2 = Ok args w2 ->
  forall X y w' b,
    params w' = params w2 ->
    globals w' !! "RandomForestClassifier" = Some b ->
    (forall e, RandomForestClassifier_init args = inl e ->
               fit X y w' = Raise e w') /\
    (forall f0 f1,
        RandomForestClassifier_init args = inr f0 ->
        RandomForestClassifier_fit f0 X y = inr f1 ->
        exists r w3,
          fit X y w' = Ok r w3 /\
          heap w3 !! r = Some (EForest f1) /\
          globals w3 !! "clf" = Some (Object r)).
Proof.
  intros Hkw X y w' b Hp Hb.
  assert (Hkw' : forest_kwargs w' = Ok args w') by by eapply forest_kwargs_params.
  split.
  - intros e Hi. by eapply fit_raise.
  - intros f0 f1 Hi Hf. eexists _, _.
    split; [by eapply fit_run|]. simpl. by rewrite !lookup_insert_eq.
Qed.



(** ** The split criterion *)


(** ** The split algorithm *)


(** ** The number of trees *)

(** C9.  In the classification script, when no token of the command line
    is read as the [--num-trees] option, every configuration the parser
    returns has [num_trees = 100], the attribute still has that value
    when the script ends, and each call of [fit] passes the current
    [params.num_trees] to the constructor as [n_estimators].  The
    constructor is called with 100: once the parser has accepted the
    command line and the data is loaded, the translation returns, the
    keyword arguments can be read and hold [n_estimators = 100], and every
    later call of [fit] under these [params] is the constructor called on
    them followed by the library's [fit]. *)
Theorem default_num_trees (argv : list string) (w : World) :
  Forall (fun a => dest a <> "num_trees") (shared_arguments None None) ->
  Forall (fun tok =>
            ~ selects (bench_options (ForestCLI.parser float_or_int) None None)
                "num_trees" tok) argv ->
  (forall p,
      parse_args (bench_options (ForestCLI.parser float_or_int) None None) argv
      = inr p ->
      p !! "num_trees" = Some (PyInt 100)) /\
  (forall d w1,
      df_clsf_setup argv w = Ok d w1 ->
      params w1 !! "num_trees" = Some (PyInt 100) /\
      forall X_train X_test y_train y_test,
        params (world_of (df_clsf_run X_train X_test y_train y_test w1))
        !! "num_trees" = Some (PyInt 100)) /\
  (forall X y w' r w'',
      fit X y w' = Ok r w'' ->
      exists args f f',
        forest_kwargs w' = Ok args w' /\
        Some (n_estimators args) = params w' !! "num_trees" /\
        RandomForestClassifier_init args = inr f /\
        RandomForestClassifier_fit f X y = inr f' /\
        heap w'' !! r = Some (EForest f')) /\
  (forall d w1 y,
      df_clsf_setup argv w = Ok d w1 ->
      exists w2 args,
        translate_params y w1 = Ok tt w2 /\
        is_Some (globals w2 !! "RandomForestClassifier") /\
        forest_kwargs w2 = Ok args w2 /\
        n_estimators args = PyInt 100 /\
        forall X y' w' b,
          params w' = params w2 ->
          globals w' !! "RandomForestClassifier" = Some b ->
          (forall e, RandomForestClassifier_init args = inl e ->
                     fit X y' w' = Raise e w') /\
          (forall f0 f1,
              RandomForestClassifier_init args = inr f0 ->
              RandomForestClassifier_fit f0 X y' = inr f1 ->
              exists r w3,
                fit X y' w' = Ok r w3 /\
                heap w3 !! r = Some (EForest f1) /\
                globals w3 !! "clf" = Some (Object r))).
Proof.
  intros Hsh Hsel.
  assert (Hparse : forall p,
             parse_args (bench_options (ForestCLI.parser float_or_int) None None)
               argv = inr p ->
             p !! "num_trees" = Some (PyInt 100)).
  { apply parse_args_default; [|exact Hsel|].
    - rewrite bench_options_app. apply initial_namespace_app.
      vm_compute. reflexivity.
    - intros a s Ha Hd Hact. rewrite bench_options_app in Ha.
      apply elem_of_app in Ha as [Ha|Ha].
      + apply forest_parser_in in Ha as [Ha|Ha]; [congruence|].
        pose proof (forest_declared_dest a _ Ha Hd) as Hn.
        simpl in Hn. injection Hn as <-. discriminate.
      + rewrite Forall_forall in Hsh. by destruct (Hsh a Ha). }
  split; [exact Hparse|]. split; [|split].
  - intros d w1 (p & s & Hp & ->)%df_clsf_setup_Ok.
    specialize (Hparse p Hp). split; [exact Hparse|].
    intros X_train X_test y_train y_test.
    rewrite <- (framed_params_df_clsf_run X_train X_test y_train y_test
                  (set_rng s (set_params p (set_globals df_clsf_imports w)))
                  "num_trees"); [exact Hparse|].
    rewrite !elem_of_cons, elem_of_nil. intros [[=]|[[=]|[[=]|[]]]].
  - intros X y w' r w'' (args & f & f' & Hkw & Hi & Hf & Hr & ->)%fit_Ok.
    exists args, f, f'. repeat split; try done.
    + apply forest_kwargs_Ok in Hkw as (_ & _ & _ & Hn). by rewrite Hn.
    + simpl. by rewrite lookup_insert_eq.
  - intros d w1 y Hsetup.
    destruct (df_clsf_configured _ _ _ _ y Hsetup)
      as (p & c & a & w2 & args & Hp & _ & _ & Ht & Hname & _ & _ & Hkw
          & _ & _ & Hn).
    exists w2, args. split; [exact Ht|]. split; [exact Hname|].
    split; [exact Hkw|]. split.
    { rewrite (Hparse p Hp) in Hn. by injection Hn as <-. }
    by apply fit_with_kwargs.
Qed.

(** ** A failing fit and the global [clf] *)

(** X8.  In the classification script, [fit] assigns the global [clf]
    before it calls the library's [fit]: when the constructor succeeds and
    the library's [fit] raises, the exception leaves [clf] bound to the new,
    unfitted estimator (the estimator it referred to before is no longer
    reachable through [clf]), while every object that existed is unaltered.
    When the constructor itself raises, the state, [clf] included, is as it
    was. *)
Theorem failed_fit_rebinds_clf
    (X : table) (y : list Z) (w : World) (b : binding) (args : ForestArgs) :
  globals w !! "RandomForestClassifier" = Some b ->
  forest_kwargs w = Ok args w ->
  (forall f e,
      RandomForestClassifier_init args = inr f ->
      RandomForestClassifier_fit f X y = inl e ->
      exists w',
        fit X y w = Raise e w' /\
        globals w' !! "clf" = Some (Object (fresh (dom (heap w)))) /\
        heap w' !! fresh (dom (heap w)) = Some (EForest f) /\
        heap w !! fresh (dom (heap w)) = None /\
        forall r0 e0, heap w !! r0 = Some e0 -> heap w' !! r0 = Some e0) /\
  (forall e,
      RandomForestClassifier_init args = inl e -> fit X y w = Raise e w).
Proof.
  intros Hb Hkw. split.
  - intros f e Hinit Hfit. eexists. split; [|repeat split].
    + unfold fit. erewrite bind_run by by apply run_name_lookup.
      erewrite bind_run by exact Hkw. rewrite Hinit.
      unfold bind, lift, ret, alloc, bind_name, modify, name_object, bind,
        name_lookup, RandomForestClassifier_fit_method, bind, deref_forest.
      simpl. rewrite lookup_insert_eq. simpl. rewrite lookup_insert_eq.
      unfold lift. rewrite Hfit. reflexivity.
    + simpl. by rewrite lookup_insert_eq.
    + simpl. by rewrite lookup_insert_eq.
    + apply fresh_unused.
    + intros r0 e0 Hr0. simpl. rewrite lookup_insert_ne; [exact Hr0|].
      intros <-. by rewrite fresh_unused in Hr0.
  - intros e Hinit. unfold fit. erewrite bind_run by by apply run_name_lookup.
    erewrite bind_run by exact Hkw. rewrite Hinit. reflexivity.
Qed.

(** ** More on the command-line parser *)

Lemma consume_extras opts n :
  forall argv ns seen r,
    (length argv <= n)%nat ->
    consume opts argv ns seen true = inr r -> r.2 = true.
Proof.
  induction n as [|n IH]; intros argv ns seen r Hlen Hc.
  - destruct argv; [|simpl in Hlen; lia]. simpl in Hc. by simplify_eq.
  - destruct argv as [|tok rest]; [simpl in Hc; by simplify_eq|].
    simpl in Hlen. cbn [consume] in Hc.
    destruct (String.eqb tok "--"); [by simplify_eq|].
    destruct (classify opts tok) as [|a o e| |]; try discriminate;
      try (eapply IH; [|exact Hc]; lia).
    destruct (token_plan opts a o e) as [|[acts [a'|]]]; [discriminate| |].
    + destruct (arg_action a').
      * destruct rest as [|s rest']; [discriminate|].
        destruct (is_argument_token opts s); [|discriminate].
        destruct (take_actions _ ns seen) as [|[ns1 seen1]]; [discriminate|].
        eapply IH; [|exact Hc]. simpl in Hlen. lia.
      * destruct (take_actions _ ns seen) as [|[ns1 seen1]]; [discriminate|].
        eapply IH; [|exact Hc]. lia.
      * destruct (take_actions _ ns seen) as [|[ns1 seen1]]; [discriminate|].
        eapply IH; [|exact Hc]. lia.
    + destruct (take_actions _ ns seen) as [|[ns1 seen1]]; [discriminate|].
      eapply IH; [|exact Hc]. lia.
Qed.

(** When every value that can be stored in the destination [k] is [v0]
    and some token is read as an option writing [k], a command line that
    is consumed without leftovers leaves [v0] in [k]. *)
Lemma take_actions_selected (opts : list Argument) k v0 acts :
  (forall a v, a ∈ opts -> dest a = k -> can_store a v -> v = v0) ->
  (forall a, a ∈ List.map fst acts -> a ∈ opts) ->
  forall (ns : Namespace) seen ns' seen',
    take_actions acts ns seen = inr (ns', seen') ->
    some_dest k (List.map fst acts) \/ ns !! k = Some v0 ->
    ns' !! k = Some v0.
Proof.
  intros Hw. induction acts as [|[a arg] acts IH];
    intros Hin ns seen ns' seen' Ht Hor; simpl in Ht.
  - simplify_eq. by destruct Hor.
  - assert (Ha : a ∈ opts) by (apply Hin; simpl; by left).
    assert (Hin' : forall a0, a0 ∈ List.map fst acts -> a0 ∈ opts)
      by (intros a0 Ha0; apply Hin; simpl; by right).
    assert (Hnext : forall v, can_store a v ->
               some_dest k (List.map fst acts) \/
               <[dest a := v]> ns !! k = Some v0).
    { intros v Hv. destruct (decide (dest a = k)) as [Hd|Hd].
      - right. rewrite <- Hd at 1. rewrite lookup_insert_eq. f_equal. eauto.
      - rewrite lookup_insert_ne by done. simpl in Hor. tauto. }
    destruct (arg_action a) eqn:Hact; [| |discriminate].
    + destruct arg as [s|]; [|discriminate].
      destruct (get_value a s) as [|v] eqn:Hv; [discriminate|].
      eapply IH; [exact Hin'|exact Ht|]. apply Hnext. left. eauto.
    + eapply IH; [exact Hin'|exact Ht|]. apply Hnext. by right.
Qed.

Lemma consume_selected opts k v0 :
  (forall a v, a ∈ opts -> dest a = k -> can_store a v -> v = v0) ->
  forall n argv (ns : Namespace) seen extras ns' seen',
    (length argv <= n)%nat -> "--" ∉ argv ->
    consume opts argv ns seen extras = inr (ns', seen', false) ->
    Exists (selects opts k) argv \/ ns !! k = Some v0 ->
    ns' !! k = Some v0.
Proof.
  intros Hw.
  induction n as [|n IH]; intros argv ns seen extras ns' seen' Hlen Hdd Hc Hor.
  - destruct argv; [|simpl in Hlen; lia]. simpl in Hc. simplify_eq.
    destruct Hor as [Hex|]; [by apply Exists_nil in Hex | done].
  - destruct argv as [|tok rest].
    { simpl in Hc. simplify_eq.
      destruct Hor as [Hex|]; [by apply Exists_nil in Hex | done]. }
    simpl in Hlen. cbn [consume] in Hc.
    assert (Htok : tok <> "--") by (intros ->; apply Hdd; left).
    assert (Hrest : "--" ∉ rest) by (intros Hin; apply Hdd; by right).
    apply String.eqb_neq in Htok. rewrite Htok in Hc.
    assert (Hhead : Exists (selects opts k) (tok :: rest) ->
                    some_dest k (token_actions opts tok) \/
                    Exists (selects opts k) rest)
      by (intros Hex; by apply Exists_cons in Hex).
    pose proof (token_actions_in opts tok) as Hin.
    unfold token_actions in Hhead, Hin.
    destruct (classify opts tok) as [|a o e| |] eqn:Hcl; try discriminate.
    + by apply (consume_extras opts (length rest)) in Hc.
    + destruct (token_plan opts a o e) as [|[acts last]] eqn:Hp; [discriminate|].
      assert (Hacts : forall l ns1 seen1,
                 List.map fst l = (List.map fst acts ++ option_list last)%list ->
                 take_actions l ns seen = inr (ns1, seen1) ->
                 Exists (selects opts k) rest \/ ns1 !! k = Some v0).
      { intros l ns1 seen1 Hl Ht.
        destruct Hor as [Hex|Hns].
        - destruct (Hhead Hex) as [Hd|Hex']; [right|by left].
          eapply (take_actions_selected opts k v0 l Hw); [|exact Ht|].
          + intros a0 Ha0. apply Hin. by rewrite <- Hl.
          + left. by rewrite Hl.
        - right. eapply (take_actions_selected opts k v0 l Hw); [|exact Ht|by right].
          intros a0 Ha0. apply Hin. by rewrite <- Hl. }
      destruct last as [a'|].
      * destruct (arg_action a').
        -- destruct rest as [|s rest']; [discriminate|].
           destruct (is_argument_token opts s) eqn:Hs; [|discriminate].
           destruct (take_actions _ ns seen) as [|[ns1 seen1]] eqn:Ht; [discriminate|].
           eapply IH; [| |exact Hc|]; [simpl in Hlen; lia| |].
           ++ intros Hin'. apply Hrest. by right.
           ++ destruct (Hacts (acts ++ [(a', Some s)])%list ns1 seen1) as [Hex|Hns];
                [by rewrite map_app|exact Ht| |by right].
              apply Exists_cons in Hex as [Hsel|Hex]; [|by left].
              unfold selects, token_actions in Hsel.
              unfold is_argument_token in Hs.
              by destruct (classify opts s).
        -- destruct (take_actions _ ns seen) as [|[ns1 seen1]] eqn:Ht; [discriminate|].
           eapply IH; [| |exact Hc|]; [lia|done|].
           eapply Hacts; [|exact Ht]. by rewrite map_app.
        -- destruct (take_actions _ ns seen) as [|[ns1 seen1]] eqn:Ht; [discriminate|].
           eapply IH; [| |exact Hc|]; [lia|done|].
           eapply Hacts; [|exact Ht]. by rewrite map_app.
      * destruct (take_actions _ ns seen) as [|[ns1 seen1]] eqn:Ht; [discriminate|].
        eapply IH; [| |exact Hc|]; [lia|done|].
        eapply Hacts; [|exact Ht]. simpl. by rewrite app_nil_r.
    + by apply (consume_extras opts (length rest)) in Hc.
Qed.

Lemma parse_args_selected opts argv k v0 p :
  (forall a v, a ∈ opts -> dest a = k -> can_store a v -> v = v0) ->
  (forall a s v, a ∈ opts -> dest a = k -> arg_action a = Store ->
                 arg_default a = Some (PyStr s) ->
                 convert (arg_type a) s = Some v -> v = v0) ->
  "--" ∉ argv -> Exists (selects opts k) argv ->
  parse_args opts argv = inr p -> p !! k = Some v0.
Proof.
  intros Hw Hwd Hdd Hex. unfold parse_args.
  destruct (existsb _ _); [discriminate|].
  destruct (consume _ _ _ _ _) as [|[[ns seen] extras]] eqn:Hc; [discriminate|].
  destruct (foldl _ _ _) as [|ns'] eqn:Hf; [discriminate|].
  destruct extras; [discriminate|]. intros [= <-].
  eapply (convert_defaults_inv (fun ns => ns !! k = Some v0) opts seen);
    [|reflexivity| |exact Hf].
  - intros a s v ns0 Ha Hact Hdef Hv _ Hns.
    destruct (decide (dest a = k)) as [Hd|Hd].
    + rewrite <- Hd at 1. rewrite lookup_insert_eq. f_equal. eauto.
    + by rewrite lookup_insert_ne.
  - intros ? [= <-].
    eapply (consume_selected opts k v0 Hw); [reflexivity|exact Hdd|exact Hc|by left].
Qed.

(** X9.  In the classification script, for every command line the parser
    accepts: [params.bootstrap] is [True] when no token is read as the
    [--no-bootstrap] option, and [False] when some token is (in particular
    when the token [--no-bootstrap] occurs), wherever it stands among the
    other options. *)
Theorem bootstrap_flag (argv : list string) (p : Namespace) :
  Forall (fun a => dest a <> "bootstrap") (shared_arguments None None) ->
  parse_args (bench_options (ForestCLI.parser float_or_int) None None) argv
  = inr p ->
  (Forall (fun tok =>
             ~ selects (bench_options (ForestCLI.parser float_or_int) None None)
                 "bootstrap" tok) argv ->
   p !! "bootstrap" = Some (PyBool true)) /\
  ("--" ∉ argv ->
   Exists (selects (bench_options (ForestCLI.parser float_or_int) None None)
             "bootstrap") argv ->
   p !! "bootstrap" = Some (PyBool false)) /\
  ("--" ∉ argv -> "--no-bootstrap" ∈ argv ->
   p !! "bootstrap" = Some (PyBool false)).
Proof.
  intros Hsh Hp.
  assert (Hw : forall a v,
             a ∈ bench_options (ForestCLI.parser float_or_int) None None ->
             dest a = "bootstrap" -> can_store a v -> v = PyBool false).
  { intros a v Ha Hd Hv.
    pose proof (forest_option_of_dest a _ Hsh Ha Hd (can_store_not_help _ _ Hv))
      as Hin.
    pose proof (forest_declared_dest a _ Hin Hd) as Hn.
    simpl in Hn. injection Hn as <-.
    by destruct Hv as [[[=] _]|[_ ->]]. }
  assert (Hfalse : "--" ∉ argv ->
            Exists (selects (bench_options (ForestCLI.parser float_or_int) None None)
                      "bootstrap") argv ->
            p !! "bootstrap" = Some (PyBool false)).
  { intros Hdd Hex. eapply parse_args_selected; [exact Hw| |exact Hdd|exact Hex|exact Hp].
    intros a s v Ha Hd Hact Hdef _.
    assert (Hnh : arg_action a <> Help) by congruence.
    pose proof (forest_option_of_dest a _ Hsh Ha Hd Hnh) as Hin.
    pose proof (forest_declared_dest a _ Hin Hd) as Hn.
    simpl in Hn. injection Hn as <-. discriminate. }
  split; [|split; [exact Hfalse|]].
  - intros Hsel. revert Hp. apply parse_args_default; [|exact Hsel|].
    + rewrite bench_options_app. apply initial_namespace_app.
      vm_compute. reflexivity.
    + intros a s Ha Hd Hact Hdef.
      assert (Hin : a ∈ ForestCLI.declared float_or_int)
        by (apply (forest_option_of_dest a "bootstrap"); auto; congruence).
      pose proof (forest_declared_dest a _ Hin Hd) as Hn.
      simpl in Hn. injection Hn as <-. discriminate.
  - intros Hdd Hin. apply Hfalse; [exact Hdd|].
    apply Exists_exists. exists "--no-bootstrap". split; [exact Hin|].
    unfold selects, token_actions. rewrite bench_options_app.
    rewrite (classify_exact _ _ _ (ForestCLI.no_bootstrap)) by reflexivity.
    simpl. by left.
Qed.

(** ** Types of the parsed configuration *)




(** The option of the K-means parser that writes the destination [k], when
    the shared options leave [k] alone. *)
Lemma kmeans_option_of_dest a k :
  Forall (fun a => dest a <> k)
    (shared_arguments (Some "cuml") (Some ["fit"; "predict"])) ->
  a ∈ bench_options KMeansCLI.parser (Some "cuml") (Some ["fit"; "predict"]) ->
  dest a = k -> arg_action a <> Help ->
  List.nth_error KMeansCLI.declared
    match k with
    | "filei" => 0 | "tol" => 1 | "maxiter" => 2 | "samples_per_batch" => 3
    | _ => 4
    end%nat = Some a.
Proof.
  intros Hsh Ha Hd Hact. rewrite bench_options_app in Ha.
  apply elem_of_app in Ha as [Ha|Ha].
  - subst k. apply list_elem_of_In in Ha.
    unfold KMeansCLI.parser, KMeansCLI.declared in Ha |- *. simpl in Ha.
    destruct Ha as [<-|Ha]; [done|].
    repeat (destruct Ha as [<-|Ha]; [reflexivity|]). destruct Ha.
  - rewrite Forall_forall in Hsh. by destruct (Hsh a Ha).
Qed.





(** ** The spellings of the centroid-file option *)

(** X12.  In the K-means script, each of the four spellings [-i],
    [--filei], [--fileI] and [--init], given first and followed by a path,
    stores the path in [params.filei] (so the centroids are taken from that
    file), provided no later token is read as that option again and the
    parser accepts the command line. *)
Theorem centroid_file_option_spellings
    (o path : string) (rest : list string) (p : Namespace) :
  o ∈ option_strings KMeansCLI.filei ->
  Forall (fun a => dest a <> "filei")
    (shared_arguments (Some "cuml") (Some ["fit"; "predict"])) ->
  is_argument_token
    (bench_options KMeansCLI.parser (Some "cuml") (Some ["fit"; "predict"])) path
  = true ->
  Forall (fun tok =>
            ~ selects (bench_options KMeansCLI.parser (Some "cuml")
                         (Some ["fit"; "predict"])) "filei" tok) rest ->
  parse_args (bench_options KMeansCLI.parser (Some "cuml") (Some ["fit"; "predict"]))
    (o :: path :: rest) = inr p ->
  p !! "filei" = Some (PyStr path) /\ PyStr path <> PyNone.
Proof.
  intros Ho Hsh Hpath Hsel Hp. split; [|discriminate].
  assert (Hcl : classify (bench_options KMeansCLI.parser (Some "cuml")
                            (Some ["fit"; "predict"])) o
                = Optional KMeansCLI.filei o None /\ String.eqb o "--" = false).
  { rewrite bench_options_app. simpl in Ho.
    rewrite !elem_of_cons, elem_of_nil in Ho.
    destruct Ho as [->|[->|[->|[->|[]]]]];
      (split; [apply classify_exact; reflexivity | reflexivity]). }
  destruct Hcl as [Hcl Hdd].
  assert (Hty : forall a' s',
             a' ∈ bench_options KMeansCLI.parser (Some "cuml")
                    (Some ["fit"; "predict"]) ->
             dest a' = dest KMeansCLI.filei -> arg_action a' = Store ->
             arg_default a' = Some (PyStr s') -> arg_type a' = type_str).
  { intros a' s' Ha' Hd Hact Hdef.
    assert (Hnh : arg_action a' <> Help) by congruence.
    pose proof (kmeans_option_of_dest a' _ Hsh Ha' Hd Hnh) as [= <-].
    discriminate. }
  destruct (parse_args_first _ _ _ path rest p Hdd Hcl eq_refl Hsel Hty Hp)
    as (v & Hv & Hlook).
  injection Hv as <-. exact Hlook.
Qed.

(** ** Randomly chosen centroids come from the training set *)

Lemma row_at_elem (rows : list row) i r : row_at rows i = inr r -> r ∈ rows.
Proof.
  unfold row_at. intros Hr.
  destruct (_ && _)%bool; [|discriminate].
  destruct (rows !! _) as [r'|] eqn:Hl; [|discriminate].
  injection Hr as <-. by eapply list_elem_of_lookup_2.
Qed.

Lemma row_at_nil i : row_at [] i = inl IndexError.
Proof.
  unfold row_at. cbv zeta. change (Z.of_nat (length (@nil row))) with 0%Z.
  set (j := if (i <? 0)%Z then _ else _).
  destruct (0 <=? j)%Z eqn:H1, (j <? 0)%Z eqn:H2; reflexivity.
Qed.

Lemma rows_at_elem (rows : list row) idx rs :
  rows_at rows idx = inr rs ->
  length rs = length idx /\ Forall (fun r => r ∈ rows) rs.
Proof.
  revert rs. induction idx as [|i idx IH]; intros rs Hr; simpl in Hr.
  - injection Hr as <-. by split.
  - destruct (row_at rows i) as [|r] eqn:Hi; [discriminate|].
    destruct (rows_at rows idx) as [|rs'] eqn:Hrs; [discriminate|].
    injection Hr as <-. destruct (IH rs' eq_refl) as [Hlen Hall].
    split; [simpl; by rewrite Hlen|].
    constructor; [by eapply row_at_elem | exact Hall].
Qed.

(** X13.  In the K-means script, when no centroid file is configured, a
    choice of initial centroids that succeeds has reseeded numpy's random
    state from [params.seed] and drawn from it, has left [params] as it
    was, and returns nothing but rows of the training table, one for each
    index drawn, whatever indices the generator returned; in particular an
    empty training table can only give an empty matrix.  An index outside
    the table makes the choice end with [IndexError]. *)
Theorem random_centroids_are_training_rows
    (X_train : table) (w : World) (X_init : init_array) (w1 : World) :
  params w !! "filei" = Some PyNone ->
  initial_centroids X_train w = Ok X_init w1 ->
  (exists seed size s0 idx,
      params w !! "seed" = Some seed /\
      params w !! "n_clusters" = Some size /\
      random_seed seed w = Ok tt (set_rng s0 w) /\
      np_random_randint s0 0 (shape0 X_train) size = inr (idx, rng w1) /\
      w1 = set_rng (rng w1) w /\
      match idx, X_init with
      | Scalar _, Init1D r => r ∈ table_rows X_train
      | Vector l, Init2D rows =>
          length rows = length l /\
          Forall (fun r => r ∈ table_rows X_train) rows
      | _, _ => False
      end) /\
  (table_rows X_train = [] -> X_init = Init2D []) /\
  (forall i, (i < - shape0 X_train \/ shape0 X_train <= i)%Z ->
             iloc_values X_train (Scalar i) = inl IndexError /\
             getitem X_train (Scalar i) = inl IndexError).
Proof.
  intros Hf Hr.
  assert (Hmain :
    exists seed size s0 idx,
      params w !! "seed" = Some seed /\
      params w !! "n_clusters" = Some size /\
      random_seed seed w = Ok tt (set_rng s0 w) /\
      np_random_randint s0 0 (shape0 X_train) size = inr (idx, rng w1) /\
      w1 = set_rng (rng w1) w /\
      take (table_rows X_train) idx = inr X_init).
  { unfold initial_centroids in Hr.
    apply bind_Ok in Hr as (v & wa & Hg & Hr).
    apply getattr_Ok in Hg as [Hg ->]. rewrite Hf in Hg. injection Hg as <-.
    rewrite bool_decide_eq_false_2 in Hr by (intros Hc; by apply Hc).
    apply bind_Ok in Hr as (b & wa & Hnp & Hr).
    apply name_lookup_Ok in Hnp as [Hnp ->].
    apply bind_Ok in Hr as (seed & wa & Hs & Hr).
    apply getattr_Ok in Hs as [Hs ->].
    apply bind_Ok in Hr as ([] & wa & Hseed & Hr).
    assert (Hwa : exists s0, wa = set_rng s0 w).
    { unfold random_seed in Hseed.
      destruct (match seed with PyInt z => _ | _ => _ end) as [|s0];
        [discriminate|].
      injection Hseed as <-. by exists s0. }
    destruct Hwa as [s0 ->].
    apply bind_Ok in Hr as (size & wb & Hn & Hr).
    apply getattr_Ok in Hn as [Hn ->].
    apply bind_Ok in Hr as (idx & wb & Hd & Hr).
    unfold random_randint in Hd.
    change (rng (set_rng s0 w)) with s0 in Hd.
    destruct (np_random_randint s0 0 (shape0 X_train) size) as [|[idx' s1]] eqn:Hdraw;
      [discriminate|].
    injection Hd as -> <-.
    assert (Htake : take (table_rows X_train) idx = inr X_init /\
                    w1 = set_rng s1 (set_rng s0 w)).
    { destruct (has_iloc X_train); apply lift_Ok in Hr as [Hr ->];
        by split. }
    destruct Htake as [Htake ->].
    exists seed, size, s0, idx. simpl.
    split; [exact Hs|]. split; [exact Hn|]. split; [exact Hseed|].
    split; [exact Hdraw|]. split; [by destruct w|exact Htake]. }
  destruct Hmain as (seed & size & s0 & idx & Hs & Hn & Hseed & Hdraw & Hw1 & Htake).
  split; [|split].
  - exists seed, size, s0, idx.
    split; [exact Hs|]. split; [exact Hn|]. split; [exact Hseed|].
    split; [exact Hdraw|]. split; [exact Hw1|].
    unfold take in Htake. destruct idx as [i|l].
    + destruct (row_at _ i) as [|r] eqn:Hi; [discriminate|].
      injection Htake as <-. by eapply row_at_elem.
    + destruct (rows_at _ l) as [|rs] eqn:Hl; [discriminate|].
      injection Htake as <-. by apply rows_at_elem.
  - intros Hempty. rewrite Hempty in Htake. unfold take in Htake.
    destruct idx as [i|l].
    + by rewrite row_at_nil in Htake.
    + destruct l as [|i l]; [simpl in Htake; by injection Htake as <-|].
      simpl in Htake. by rewrite row_at_nil in Htake.
  - intros i Hi.
    assert (Hrow : row_at (table_rows X_train) i = inl IndexError).
    { unfold row_at. unfold shape0 in Hi.
      destruct (i <? 0)%Z eqn:Hneg.
      - apply Z.ltb_lt in Hneg.
        rewrite (proj2 (andb_false_iff _ _)); [reflexivity|].
        left. apply Z.leb_gt. lia.
      - apply Z.ltb_ge in Hneg.
        rewrite (proj2 (andb_false_iff _ _)); [reflexivity|].
        right. apply Z.ltb_ge. lia. }
    unfold iloc_values, getitem, take. by rewrite Hrow.
Qed.

End Properties.

(** * The properties at work on the reference configuration *)

Import Example.

(** Closed, decidable statements are settled by evaluation. *)
Ltac by_evaluation := apply (bool_decide_unpack _); vm_compute; exact I.

(** C4, on the reference configuration: with an empty command line the
    classification script ends with [params] different from what
    [parse_args] returned. *)
Lemma params_read_only_counterexample :
  exists p,
    parse_args (bench_options (ForestCLI.parser float_or_int) None None) []
    = inr p /\
    params (world_of (df_clsf_script [] w0)) !! "criterion"
    <> p !! "criterion".
Proof.
  exists forest_defaults. split; [by_evaluation|].
  vm_compute. discriminate.
Qed.

Lemma params_assigned_after_parse_witness :
  agree_except ["criterion"; "split_algorithm"; "n_classes"]
    forest_defaults
    (params (world_of (df_clsf_script [] w0))).
Proof.
  apply (proj2 (params_assigned_after_parse [] w0)).
  by_evaluation.
Defined.


Lemma default_num_trees_witness :
  match df_clsf_setup ["--criterion"; "entropy"] w0 with
  | Ok d w1 =>
      params w1 !! "num_trees" = Some (PyInt 100) /\
      exists w2 args r w3,
        translate_params y_train w1 = Ok tt w2 /\
        forest_kwargs w2 = Ok args w2 /\
        n_estimators args = PyInt 100 /\
        fit X_train y_train w2 = Ok r w3 /\
        heap w3 !! r = Some (EForest y_train)
  | Raise _ _ => False
  end.
Proof.
  assert (Hsh : Forall (fun a => dest a <> "num_trees") (shared_arguments None None))
    by (repeat constructor; vm_compute; discriminate).
  assert (Hsel : Forall (fun tok =>
                   ~ selects (bench_options (ForestCLI.parser float_or_int) None None)
                       "num_trees" tok) ["--criterion"; "entropy"])
    by (repeat constructor; vm_compute; intuition discriminate).
  destruct (df_clsf_setup ["--criterion"; "entropy"] w0) as [d w1|e w1] eqn:Hrun.
  - pose proof (default_num_trees ["--criterion"; "entropy"] w0 Hsh Hsel)
      as (_ & Hsetup & _ & Hcall).
    destruct (Hsetup d w1 Hrun) as [Hn _].
    destruct (Hcall d w1 y_train Hrun)
      as (w2 & args & Ht & [b Hb] & Hkw & Hnum & Hfit).
    destruct (proj2 (Hfit X_train y_train w2 b eq_refl Hb) [] y_train
                eq_refl eq_refl) as (r & w3 & Hr & Hobj & _).
    split; [exact Hn|]. exists w2, args, r, w3.
    split; [exact Ht|]. split; [exact Hkw|]. split; [exact Hnum|].
    split; [exact Hr | exact Hobj].
  - apply (f_equal outcome) in Hrun. vm_compute in Hrun. discriminate.
Defined.

(** C6, on the K-means parser: [--filei] is declared without a default. *)
Lemma stated_defaults_counterexample :
  ~ Forall (fun a => is_Some (arg_default a)) KMeansCLI.declared.
Proof.
  intros Hall. apply Forall_inv in Hall. destruct Hall as [v Hv]. discriminate.
Qed.

Lemma stated_defaults_witness :
  <["tol" := PyFloat 1]> kmeans_defaults !! "filei" = Some PyNone.
Proof.
  apply (proj2 (proj2 (stated_defaults ["--tol"; "1"])) "filei").
  - by left.
  - repeat constructor; vm_compute; discriminate.
  - repeat constructor; vm_compute; intuition discriminate.
  - by_evaluation.
Defined.

Lemma initial_centroids_choice_witness :
  exists rows,
    initial_centroids X_train kmeans_ready
    = Ok (Init2D rows) (set_rng 1449466924%Z kmeans_ready) /\
    length rows = 3%nat.
Proof.
  assert (Hnp : globals kmeans_ready !! "np" = Some (Module_ "numpy"))
    by (vm_compute; reflexivity).
  assert (Hfile : params kmeans_ready !! "filei" = Some PyNone)
    by (vm_compute; reflexivity).
  assert (Hseed : params kmeans_ready !! "seed" = Some (PyInt 12345))
    by (vm_compute; reflexivity).
  assert (Hsize : params kmeans_ready !! "n_clusters" = Some (PyInt 3))
    by (vm_compute; reflexivity).
  assert (Hstate : np_random_seed_int 12345%Z = inr 12345%Z)
    by (vm_compute; reflexivity).
  assert (Hdraw : np_random_randint 12345%Z 0 (shape0 X_train) (PyInt 3)
                  = inr (Vector [2; 3; 0]%Z, 1449466924%Z))
    by (vm_compute; reflexivity).
  assert (Hrange : Forall (fun i => (0 <= i < shape0 X_train)%Z) [2; 3; 0]%Z)
    by (repeat constructor; vm_compute; discriminate).
  destruct (proj2 (initial_centroids_choice X_train kmeans_ready _ Hnp)
              _ _ _ _ _ Hfile Hseed Hsize Hstate Hdraw eq_refl Hrange)
    as (rows & Hrun & Hlen & _).
  exists rows. split; [exact Hrun | exact Hlen].
Defined.

Lemma sampling_deterministic_witness :
  outcome (initial_centroids X_train kmeans_ready)
  = outcome (initial_centroids X_train (set_rng 42%Z (set_timer [] kmeans_ready))).
Proof.
  assert (Hfile : params kmeans_ready !! "filei" = Some PyNone)
    by (vm_compute; reflexivity).
  assert (Hseed : params kmeans_ready !! "seed" = Some (PyInt 12345))
    by (vm_compute; reflexivity).
  exact (proj1 (sampling_deterministic X_train kmeans_ready
                  (set_rng 42%Z (set_timer [] kmeans_ready)) 12345%Z
                  eq_refl eq_refl Hfile Hseed)).
Defined.

Lemma inertia_read_from_estimator_witness :
  match kmeans_measure (Init2D []) X_train X_test kmeans_ready with
  | Ok m _ => km_test_inertia m = km_train_inertia m
  | Raise _ _ => False
  end.
Proof.
  destruct (kmeans_measure (Init2D []) X_train X_test kmeans_ready)
    as [m w'|e w'] eqn:Hrun.
  - apply (inertia_read_from_estimator _ _ _ _ _ _ Hrun).
    intros k X k' l [= <- _]. reflexivity.
  - apply (f_equal outcome) in Hrun. vm_compute in Hrun. discriminate.
Defined.

(** C7, on the reference configuration: the classification script ends
    with [NameError: print_output] and an empty list of reports. *)
Lemma df_clsf_never_reports_witness :
  outcome (df_clsf_script [] w0) = inl (NameError "print_output") /\
  reports (world_of (df_clsf_script [] w0)) = [].
Proof.
  split; [vm_compute; reflexivity|].
  apply (proj1 (proj2 (df_clsf_never_reports [] w0))).
Defined.

Lemma fit_builds_fresh_estimator_witness :
  (exists fitted w',
      measure_function_time (kmeans_fit (Init2D []) X_train) kmeans_ready
      = Ok fitted w' /\
      heap kmeans_ready !! snd fitted = None /\
      heap w' !! snd fitted = Some (EKMeans (inject_Z 4)) /\
      size (heap w') = 2%nat) /\
  (exists fitted w',
      measure_function_time (fit X_train y_train) df_clsf_ready = Ok fitted w' /\
      heap df_clsf_ready !! snd fitted = None /\
      heap w' !! snd fitted = Some (EForest y_train) /\
      globals w' !! "clf" = Some (Object (snd fitted)) /\
      size (heap w') = 2%nat).
Proof.
  split.
  - assert (Hname : globals kmeans_ready !! "KMeans" = Some (Callable "cuml.KMeans"))
      by (vm_compute; reflexivity).
    assert (Hcalls : (size (heap kmeans_ready)
                      + S (further_calls (params kmeans_ready)))%nat = 2%nat)
      by (vm_compute; reflexivity).
    destruct (kmeans_kwargs (Init2D []) kmeans_ready) as [args w1|e w1] eqn:Hkw.
    + destruct (kmeans_kwargs_Ok _ _ _ _ Hkw) as [Hw1 _]. subst w1.
      destruct (proj1 (proj2 (proj2 (fit_builds_fresh_estimator kmeans_ready)))
                  (Init2D []) X_train _ args 0%Q (inject_Z 4) Hname Hkw
                  eq_refl eq_refl)
        as (_ & fitted & w' & Hrun & Hobj & Hsize).
      destruct (proj1 (fit_builds_fresh_estimator kmeans_ready) _ _ _ _ Hrun)
        as (Hfresh & _).
      exists fitted, w'. split; [exact Hrun|]. split; [exact Hfresh|].
      split; [exact Hobj|]. rewrite Hsize. exact Hcalls.
    + apply (f_equal outcome) in Hkw. vm_compute in Hkw. discriminate.
  - assert (Hname : globals df_clsf_ready !! "RandomForestClassifier"
                    = Some (Callable "cuml.ensemble.RandomForestClassifier"))
      by (vm_compute; reflexivity).
    assert (Hcalls : (size (heap df_clsf_ready)
                      + S (further_calls (params df_clsf_ready)))%nat = 2%nat)
      by (vm_compute; reflexivity).
    destruct (forest_kwargs df_clsf_ready) as [args w1|e w1] eqn:Hkw.
    + destruct (forest_kwargs_Ok _ _ _ Hkw) as [Hw1 _]. subst w1.
      destruct (proj2 (proj2 (proj2 (fit_builds_fresh_estimator df_clsf_ready)))
                  X_train y_train _ args [] y_train Hname Hkw eq_refl eq_refl)
        as (_ & fitted & w' & Hrun & Hobj & Hclf & Hsize).
      destruct (proj1 (proj2 (fit_builds_fresh_estimator df_clsf_ready))
                  _ _ _ _ Hrun) as (Hfresh & _).
      exists fitted, w'. split; [exact Hrun|]. split; [exact Hfresh|].
      split; [exact Hobj|]. split; [exact Hclf|]. rewrite Hsize. exact Hcalls.
    + apply (f_equal outcome) in Hkw. vm_compute in Hkw. discriminate.
Defined.

Lemma predict_before_fit_witness :
  predict X_test df_clsf_ready = Raise (NameError "clf") df_clsf_ready.
Proof.
  assert (Hclf : globals df_clsf_ready !! "clf" = None)
    by (vm_compute; reflexivity).
  assert (Hcuml : globals df_clsf_ready !! "cuml" = Some (Module_ "cuml"))
    by (vm_compute; reflexivity).
  assert (Hminor : version_minor = inr 14%Z) by (vm_compute; reflexivity).
  assert (Hclasses : (14 <= 14)%Z -> is_Some (params df_clsf_ready !! "n_classes"))
    by (intros _; exists (PyInt 2); vm_compute; reflexivity).
  exact (proj1 (proj2 (predict_before_fit X_test df_clsf_ready Hclf))
           _ _ Hcuml Hminor Hclasses).
Defined.

(** ** The further properties on the reference configuration *)

Lemma centroid_file_overrides_count_witness :
  match initial_centroids X_train kmeans_from_file with
  | Ok X_init w1 =>
      exists rows,
        X_init = Init2D rows /\
        params w1
        = <["n_clusters" := PyInt (Z.of_nat (length rows))]>
            (params kmeans_from_file) /\
        rng w1 = rng kmeans_from_file
  | Raise _ _ => False
  end.
Proof.
  assert (Hfile : params kmeans_from_file !! "filei" = Some (PyStr "centroids.npy"))
    by (vm_compute; reflexivity).
  destruct (initial_centroids X_train kmeans_from_file) as [X_init w1|e w1] eqn:Hrun.
  - destruct (centroid_file_overrides_count X_train kmeans_from_file _ _ _
                Hfile ltac:(discriminate) Hrun) as (rows & HX & Hp & Hr & _).
    exists rows. split; [exact HX|]. split; [exact Hp | exact Hr].
  - apply (f_equal outcome) in Hrun. vm_compute in Hrun. discriminate.
Defined.

Lemma single_row_without_count_witness :
  exists r,
    table_rows X_train !! Z.to_nat 2 = Some r /\
    initial_centroids X_train kmeans_uncounted
    = Ok (Init1D r) (set_rng 1406932606%Z kmeans_uncounted).
Proof.
  assert (Hnp : globals kmeans_uncounted !! "np" = Some (Module_ "numpy"))
    by (vm_compute; reflexivity).
  assert (Hfile : params kmeans_uncounted !! "filei" = Some PyNone)
    by (vm_compute; reflexivity).
  assert (Hseed : params kmeans_uncounted !! "seed" = Some (PyInt 12345))
    by (vm_compute; reflexivity).
  assert (Hsize : params kmeans_uncounted !! "n_clusters" = Some PyNone)
    by (vm_compute; reflexivity).
  assert (Hstate : np_random_seed_int 12345%Z = inr 12345%Z)
    by (vm_compute; reflexivity).
  assert (Hdraw : np_random_randint 12345%Z 0 (shape0 X_train) PyNone
                  = inr (Scalar 2%Z, 1406932606%Z))
    by (vm_compute; reflexivity).
  assert (Hrange : (0 <= 2 < shape0 X_train)%Z) by (vm_compute; split; [discriminate | reflexivity]).
  destruct (single_row_without_count X_train kmeans_uncounted _ _ _ _ _
              Hnp Hfile Hseed Hsize Hstate Hdraw Hrange) as (r & Hrow & Hrun & _).
  exists r. split; [exact Hrow | exact Hrun].
Defined.


Lemma hyperparameters_reach_constructor_witness :
  match df_clsf_setup ["--num-trees"; "7"; "--max-depth"; "3"] w0 with
  | Ok d w1 =>
      exists p w2 args,
        parse_args (bench_options (ForestCLI.parser float_or_int) None None)
          ["--num-trees"; "7"; "--max-depth"; "3"] = inr p /\
        translate_params y_train w1 = Ok tt w2 /\
        forest_kwargs w2 = Ok args w2 /\
        p !! "num_trees" = Some (n_estimators args) /\
        p !! "max_depth" = Some (rf_max_depth args)
  | Raise _ _ => False
  end.
Proof.
  destruct (df_clsf_setup ["--num-trees"; "7"; "--max-depth"; "3"] w0)
    as [d w1|e w1] eqn:Hrun.
  - destruct (hyperparameters_reach_constructor _ _ _ _ y_train Hrun)
      as (p & w2 & args & Hp & Ht & Hk & Hn & Hd & _).
    exists p, w2, args. repeat split; assumption.
  - apply (f_equal outcome) in Hrun. vm_compute in Hrun. discriminate.
Defined.

Lemma failed_fit_rebinds_clf_witness :
  exists w' : @World numpy strict_cuml,
    @fit numpy strict_cuml (NdArray []) [] df_clsf_fitted
    = Raise (LibraryError "empty training set") w' /\
    globals df_clsf_fitted !! "clf" = Some (Object 0%nat) /\
    globals w' !! "clf" = Some (Object (fresh (dom (heap df_clsf_fitted)))) /\
    heap w' !! 0%nat = Some (@EForest strict_cuml [0; 0; 1; 1]%Z).
Proof.
  assert (Hclass : globals df_clsf_fitted !! "RandomForestClassifier"
                   = Some (Callable "cuml.ensemble.RandomForestClassifier"))
    by (vm_compute; reflexivity).
  destruct (@forest_kwargs numpy strict_cuml df_clsf_fitted)
    as [args w1|e w1] eqn:Hkw.
  - destruct (forest_kwargs_Ok _ _ _ Hkw) as [Hw1 _]. subst w1.
    destruct (proj1 (@failed_fit_rebinds_clf numpy strict_cuml (NdArray []) []
                       df_clsf_fitted _ args Hclass Hkw)
                [] (LibraryError "empty training set") eq_refl eq_refl)
      as (w' & Hrun & Hclf & _ & _ & Hold).
    exists w'. split; [exact Hrun|]. split; [vm_compute; reflexivity|].
    split; [exact Hclf|]. apply Hold. vm_compute. reflexivity.
  - apply (f_equal outcome) in Hkw. vm_compute in Hkw. discriminate.
Defined.

Lemma bootstrap_flag_witness :
  <["bootstrap" := PyBool false]> (<["num_trees" := PyInt 7]> forest_defaults)
    !! "bootstrap" = Some (PyBool false).
Proof.
  assert (Hsh : Forall (fun a => dest a <> "bootstrap") (shared_arguments None None))
    by (repeat constructor; vm_compute; discriminate).
  assert (Hp : parse_args (bench_options (ForestCLI.parser float_or_int) None None)
                 ["--no-bootstrap"; "--num-trees"; "7"]
               = inr (<["bootstrap" := PyBool false]>
                        (<["num_trees" := PyInt 7]> forest_defaults)))
    by by_evaluation.
  apply (proj2 (proj2 (bootstrap_flag _ _ Hsh Hp))).
  - rewrite !elem_of_cons, elem_of_nil. intros [[=]|[[=]|[[=]|[]]]].
  - by left.
Defined.



Lemma centroid_file_option_spellings_witness :
  parse_args (bench_options KMeansCLI.parser (Some "cuml") (Some ["fit"; "predict"]))
    ["-i"; "centroids.npy"; "-t5"]
  = inr (<["tol" := PyFloat 5]>
           (<["filei" := PyStr "centroids.npy"]> kmeans_defaults)) /\
  <["tol" := PyFloat 5]>
    (<["filei" := PyStr "centroids.npy"]> kmeans_defaults) !! "filei"
  = Some (PyStr "centroids.npy").
Proof.
  assert (Hp : parse_args (bench_options KMeansCLI.parser (Some "cuml")
                             (Some ["fit"; "predict"]))
                 ["-i"; "centroids.npy"; "-t5"]
               = inr (<["tol" := PyFloat 5]>
                        (<["filei" := PyStr "centroids.npy"]> kmeans_defaults)))
    by by_evaluation.
  split; [exact Hp|].
  apply (proj1 (centroid_file_option_spellings "-i" "centroids.npy"
                  ["-t5"] _
                  ltac:(repeat constructor)
                  ltac:(repeat constructor; vm_compute; discriminate)
                  ltac:(vm_compute; reflexivity)
                  ltac:(repeat constructor; vm_compute; intuition discriminate)
                  Hp)).
Defined.

Lemma usage_error_stops_script_witness :
  kmeans_script ["--n-clusters"; "three"] w0
  = Raise (SystemExit 2) (set_globals kmeans_imports w0) /\
  df_clsf_script ["--num-trees"] w0
  = Raise (SystemExit 2) (set_globals df_clsf_imports w0).
Proof.
  split.
  - apply (proj1 (usage_error_stops_script ["--n-clusters"; "three"] w0
                    (SystemExit 2))).
    by_evaluation.
  - apply (proj2 (usage_error_stops_script ["--num-trees"] w0 (SystemExit 2))).
    by_evaluation.
Defined.

Lemma kmeans_reports_once_witness :
  match kmeans_script ["--n-clusters"; "3"] w0 with
  | Ok _ w' =>
      exists X_train X_test X_init w2 m wf,
        measure_function_time (kmeans_fit X_init X_train)
          (set_globals (<["kmeans_fit" := Callable "kmeans_fit"]> (globals w2)) w2)
        = Ok (km_fit_time m, km_kmeans m) wf /\
        heap w2 !! km_kmeans m = None /\
        reports w' = [kmeans_report_of X_train X_test m (params w')] /\
        is_Some (heap w' !! km_kmeans m)
  | Raise _ _ => False
  end.
Proof.
  destruct (kmeans_script ["--n-clusters"; "3"] w0) as [u w'|e w'] eqn:Hrun.
  - destruct (proj2 (kmeans_reports_once ["--n-clusters"; "3"] w0) _ _ Hrun)
      as (X1 & X2 & y1 & y2 & w1 & X_init & w2 & m & wf & k
          & _ & _ & Hfit & Hfresh & Hrep & _ & Hobj).
    exists X1, X2, X_init, w2, m, wf.
    split; [exact Hfit|]. split; [exact Hfresh|]. split; [exact Hrep|].
    exists (EKMeans k). exact Hobj.
  - apply (f_equal outcome) in Hrun. vm_compute in Hrun. discriminate.
Defined.

Lemma predict_keyword_arguments_witness :
  match @predict builtins numpy strict_cuml X_test df_clsf_fitted with
  | Ok l w' =>
      exists f f' kwargs,
        heap df_clsf_fitted !! 0%nat = Some (@EForest strict_cuml f) /\
        @RandomForestClassifier_predict strict_cuml f X_test kwargs = inr (f', l) /\
        kwargs !! "num_classes" = Some (PyInt 2)
  | Raise _ _ => False
  end.
Proof.
  destruct (@predict builtins numpy strict_cuml X_test df_clsf_fitted)
    as [l w'|e w'] eqn:Hrun.
  - destruct (proj1 (@predict_keyword_arguments builtins numpy strict_cuml
                       X_test df_clsf_fitted) _ _ Hrun)
      as (minor & r & f & f' & kwargs & Hm & Hclf & Hheap & Hcall & _ & Hn & _).
    assert (Hr : r = 0%nat) by (vm_compute in Hclf; congruence).
    assert (Hminor : minor = 14%Z) by (vm_compute in Hm; congruence).
    subst r minor. exists f, f', kwargs.
    split; [exact Hheap|]. split; [exact Hcall|].
    rewrite Hn. vm_compute. reflexivity.
  - apply (f_equal outcome) in Hrun. vm_compute in Hrun. discriminate.
Defined.

Lemma random_centroids_are_training_rows_witness :
  match initial_centroids X_train kmeans_ready with
  | Ok X_init w1 =>
      exists size s0 idx,
        params kmeans_ready !! "n_clusters" = Some size /\
        np_random_randint s0 0 (shape0 X_train) size = inr (idx, rng w1) /\
        match idx, X_init with
        | Scalar _, Init1D r => r ∈ table_rows X_train
        | Vector l, Init2D rows =>
            length rows = length l /\
            Forall (fun r => r ∈ table_rows X_train) rows
        | _, _ => False
        end
  | Raise _ _ => False
  end.
Proof.
  assert (Hfile : params kmeans_ready !! "filei" = Some PyNone)
    by (vm_compute; reflexivity).
  destruct (initial_centroids X_train kmeans_ready) as [X_init w1|e w1] eqn:Hrun.
  - destruct (proj1 (random_centroids_are_training_rows X_train kmeans_ready _ _
                       Hfile Hrun))
      as (seed & size & s0 & idx & _ & Hn & _ & Hdraw & _ & Hrows).
    exists size, s0, idx. split; [exact Hn|]. split; [exact Hdraw | exact Hrows].
  - apply (f_equal outcome) in Hrun. vm_compute in Hrun. discriminate.
Defined.
